(** * BoostBox: scanner, cleaner and optimizer

    A shallow embedding of [modules/scanner.py], [modules/cleaner.py] and
    [modules/optimizer.py], together with the part of the Python runtime they
    call ([os.path], [os.stat], [os.walk], [os.remove], [time.time], ...).

    Conventions.
    - A Python [str] is a [string]; [str.lower] maps [A-Z] to [a-z], which
      is what Python does on ASCII text. A statement that depends on the
      lower-cased form of a text that need not be ASCII says so
      ([str.isascii]).
    - [os.path] is [posixpath], the module Python binds on Linux and macOS.
      A statement that depends on what [os.path.commonpath] answers is made
      for hosts other than Windows.
    - Time stamps and sizes are exact integers ([Z]); the comparisons of the
      source are kept as they are written. The display strings of
      [scan_all] go through Python's floats: [_human] is their value for
      sizes below [2^53] bytes, where that arithmetic is exact.
    - A call that may raise returns [Exc]; [try/except] is a [match].
    - The file system is a tree of named entries; every function that touches
      it takes the tree (or the [world], tree and clock) and returns the new
      one. [os.walk] lists the tree as it is when the walk of a folder
      starts; the loops of the source only delete entries of directories that
      are already listed, so the lazy generator yields the same triples.
    - The tree has regular files, directories and symbolic links whose
      target is missing. It has no link to an existing file or directory:
      the statements below relate a path to the place it names on such a
      tree only. The metadata kept for a directory is not updated when one
      of its entries is removed: what is stated of metadata after a removal
      is stated of regular files.
    - The operating system may refuse a removal (permissions, a read-only
      mount, a file in use): [denied] lists the places where it does.
    - The rows for Windows of the directory tables are transcribed as they
      are written, over the same [os.path]; [ntpath] is not modelled.
    - [pathlib] is the one of Python 3.11 to 3.13. *)

From Stdlib Require Import ZArith List String Ascii Bool Lia Arith DecimalString.
Import ListNotations.
Open Scope string_scope.
Open Scope Z_scope.
Open Scope list_scope.


(* ------------------------------------------------------------------ *)
(** ** Exceptions *)

Inductive exn : Type :=
| FileNotFoundError (path : string)
| NotADirectoryError (path : string)
| IsADirectoryError (path : string)
| OSError (msg : string)
| ValueError (msg : string)
| NameError (name : string).

Definition str_of_exn (e : exn) : string :=
  match e with
  | FileNotFoundError p => ("[Errno 2] No such file or directory: '" ++ p ++ "'")%string
  | NotADirectoryError p => ("[Errno 20] Not a directory: '" ++ p ++ "'")%string
  | IsADirectoryError p => ("[Errno 21] Is a directory: '" ++ p ++ "'")%string
  | OSError m => m
  | ValueError m => m
  | NameError n => ("name '" ++ n ++ "' is not defined")%string
  end.

Inductive Exc (A : Type) : Type :=
| Ok (a : A)
| Raise (e : exn).

Arguments Ok {A} a.
Arguments Raise {A} e.

Definition bind {A B : Type} (m : Exc A) (k : A -> Exc B) : Exc B :=
  match m with
  | Ok a => k a
  | Raise e => Raise e
  end.

Notation "x <- m ;; k" := (bind m (fun x => k))
  (at level 61, m at next level, right associativity).

Definition is_ok {A : Type} (m : Exc A) : bool :=
  match m with Ok _ => true | Raise _ => false end.

(* ------------------------------------------------------------------ *)
(** ** Python strings and containers *)

Module str.

Definition startswith (s pre : string) : bool := String.prefix pre s.

Fixpoint endswith_char (s : string) (c : ascii) : bool :=
  match s with
  | EmptyString => false
  | String a EmptyString => Ascii.eqb a c
  | String _ s' => endswith_char s' c
  end.

(** [s.split(sep)] for a one-character separator: never empty. *)
Fixpoint split (sep : ascii) (s : string) : list string :=
  match s with
  | EmptyString => [EmptyString]
  | String c s' =>
      if Ascii.eqb c sep then EmptyString :: split sep s'
      else match split sep s' with
           | h :: t => String c h :: t
           | [] => [String c EmptyString]
           end
  end.

Definition join (sep : string) (l : list string) : string := String.concat sep l.

Definition lower_char (c : ascii) : ascii :=
  let n := nat_of_ascii c in
  if andb (Nat.leb 65 n) (Nat.leb n 90) then ascii_of_nat (n + 32) else c.

Fixpoint lower (s : string) : string :=
  match s with
  | EmptyString => EmptyString
  | String c s' => String (lower_char c) (lower s')
  end.

(** [s.rfind(c)]: index of the last occurrence, [None] for -1. *)
Fixpoint rfind (c : ascii) (s : string) : option nat :=
  match s with
  | EmptyString => None
  | String a s' =>
      match rfind c s' with
      | Some i => Some (S i)
      | None => if Ascii.eqb a c then Some O else None
      end
  end.

(** [s.rstrip(c)]. *)
Fixpoint rstrip (c : ascii) (s : string) : string :=
  match s with
  | EmptyString => EmptyString
  | String a s' =>
      match rstrip c s' with
      | EmptyString => if Ascii.eqb a c then EmptyString else String a EmptyString
      | r => String a r
      end
  end.

(** [s.isascii()] *)
Fixpoint isascii (s : string) : bool :=
  match s with
  | EmptyString => true
  | String c s' => andb (Nat.ltb (nat_of_ascii c) 128) (isascii s')
  end.

(** [str(n)] for an [int]. *)
Definition of_int (n : Z) : string := NilZero.string_of_int (Z.to_int n).

(** [s in l] for a list or set of strings. *)
Definition mem (s : string) (l : list string) : bool :=
  existsb (String.eqb s) l.

(** [list(dict.fromkeys(l))]: first occurrences, in order. *)
Fixpoint dedupe_from (seen l : list string) : list string :=
  match l with
  | [] => []
  | x :: l' => if mem x seen then dedupe_from seen l'
               else x :: dedupe_from (x :: seen) l'
  end.

Definition dedupe (l : list string) : list string := dedupe_from [] l.

End str.

(* ------------------------------------------------------------------ *)
(** ** [posixpath] *)

Module posixpath.

Definition sep : string := "/".
Definition sep_char : ascii := "/"%char.

Definition isabs (s : string) : bool := str.startswith s sep.

(** [os.path.join(a, b)]. *)
Definition join (a b : string) : string :=
  if str.startswith b sep then b
  else if orb (String.eqb a "") (str.endswith_char a sep_char) then (a ++ b)%string
  else (a ++ sep ++ b)%string.

Fixpoint join_all (a : string) (ps : list string) : string :=
  match ps with
  | [] => a
  | b :: ps' => join_all (join a b) ps'
  end.

Definition norm_step (initial_slashes : nat) (new_comps : list string) (comp : string)
  : list string :=
  if orb (String.eqb comp "") (String.eqb comp ".") then new_comps
  else if orb (negb (String.eqb comp ".."))
            (orb (andb (Nat.eqb initial_slashes 0)
                       (match new_comps with [] => true | _ => false end))
                 (match new_comps with
                  | [] => false
                  | _ => String.eqb (last new_comps "") ".."
                  end))
       then new_comps ++ [comp]
       else removelast new_comps.

Fixpoint repeat_sep (n : nat) : string :=
  match n with
  | O => ""
  | S n' => (sep ++ repeat_sep n')%string
  end.

Definition normpath (path : string) : string :=
  if String.eqb path "" then "."
  else
    let initial_slashes :=
      if str.startswith path sep then
        if andb (str.startswith path "//") (negb (str.startswith path "///"))
        then 2%nat else 1%nat
      else 0%nat in
    let comps := fold_left (norm_step initial_slashes) (str.split sep_char path) [] in
    let p := (repeat_sep initial_slashes ++ str.join sep comps)%string in
    if String.eqb p "" then "." else p.

(** [os.path.abspath], for a process whose working directory is [cwd]. *)
Definition abspath (cwd path : string) : string :=
  normpath (if isabs path then path else join cwd path).

Definition keep_comp (c : string) : bool :=
  negb (orb (String.eqb c "") (String.eqb c ".")).

Fixpoint list_compare (a b : list string) : comparison :=
  match a, b with
  | [], [] => Eq
  | [], _ :: _ => Lt
  | _ :: _, [] => Gt
  | x :: a', y :: b' =>
      match String.compare x y with
      | Eq => list_compare a' b'
      | c => c
      end
  end.

Definition list_min (a b : list string) : list string :=
  match list_compare b a with Lt => b | _ => a end.

Definition list_max (a b : list string) : list string :=
  match list_compare b a with Gt => b | _ => a end.

(** The loop of [commonpath] over [s1 = min] and [s2 = max]. *)
Fixpoint common_prefix (s1 s2 : list string) : list string :=
  match s1, s2 with
  | c :: s1', d :: s2' => if String.eqb c d then c :: common_prefix s1' s2' else []
  | _, _ => []
  end.

(** [os.path.commonpath(paths)]. *)
Definition commonpath (paths : list string) : Exc string :=
  match paths with
  | [] => Raise (ValueError "commonpath() arg is an empty sequence")
  | p0 :: rest =>
      if forallb (fun p => Bool.eqb (isabs p) (isabs p0)) rest then
        let split_paths :=
          map (fun p => filter keep_comp (str.split sep_char p)) paths in
        let s0 := filter keep_comp (str.split sep_char p0) in
        let s1 := fold_left list_min split_paths s0 in
        let s2 := fold_left list_max split_paths s0 in
        let prefix := if isabs p0 then sep else "" in
        Ok (prefix ++ str.join sep (common_prefix s1 s2))%string
      else Raise (ValueError "Can't mix absolute and relative paths")
  end.

End posixpath.

(** [pathlib.PurePosixPath]: the two properties the scanner reads. *)
Module pathlib.

(** [Path(p).name]: the last component that is neither empty nor ["."]. *)
Definition name (p : string) : string :=
  last (filter posixpath.keep_comp (str.split posixpath.sep_char p)) "".

(** [Path(p).suffix]. *)
Definition suffix (p : string) : string :=
  let nm := name p in
  match str.rfind "."%char nm with
  | Some i =>
      if andb (Nat.ltb 0 i) (Nat.ltb i (String.length nm - 1))
      then String.substring i (String.length nm - i) nm
      else ""
  | None => ""
  end.

End pathlib.

(* ------------------------------------------------------------------ *)
(** ** The host: process environment, clock and file system *)

Record Host : Type := {
  platform_system : string;            (* platform.system() *)
  environ : string -> option string;   (* os.environ.get *)
  pw_dir : string;                     (* home directory of the password database *)
  gettempdir : string;                 (* tempfile.gettempdir() *)
  getcwd : string;                     (* os.getcwd() *)
  clock : nat -> Z;                    (* value of the n-th reading of time.time() *)
  denied : list string -> bool         (* places whose removal the system refuses *)
}.

Record stat_result : Type := { st_mtime : Z; st_size : Z }.

(** A directory entry is a regular file, a symbolic link whose target is
    missing (listed by its directory, but [os.stat] fails on it), or a
    directory. *)
#[local] Set Warnings "-register-all".

Inductive node : Type :=
| File (st : stat_result)
| Dangling
| Dir (st : stat_result) (entries : list (string * node)).

Record world : Type := { fs : node; ticks : nat }.

Module os.

Definition get_entry (c : string) (es : list (string * node)) : option node :=
  option_map snd (find (fun e => String.eqb (fst e) c) es).

Definition del_entry (c : string) (es : list (string * node)) : list (string * node) :=
  filter (fun e => negb (String.eqb (fst e) c)) es.

Definition set_entry (c : string) (v : node) (es : list (string * node))
  : list (string * node) :=
  map (fun e => if String.eqb (fst e) c then (c, v) else e) es.

(** The entry reached from [n] along the canonical components [cs]. *)
Fixpoint lookup (n : node) (cs : list string) : option node :=
  match cs with
  | [] => Some n
  | c :: cs' =>
      match n with
      | Dir _ es =>
          match get_entry c es with
          | Some ch => lookup ch cs'
          | None => None
          end
      | _ => None
      end
  end.

(** Path resolution as the kernel does it: every component is taken from a
    directory that exists; [acc] is the canonical path walked so far. *)
Fixpoint canon (root : node) (acc cs : list string) : option (list string) :=
  match cs with
  | [] => Some acc
  | c :: cs' =>
      match lookup root acc with
      | Some (Dir _ _) =>
          if orb (String.eqb c "") (String.eqb c ".") then canon root acc cs'
          else if String.eqb c ".." then canon root (removelast acc) cs'
          else canon root (acc ++ [c]) cs'
      | _ => None
      end
  end.

(** Remove the entry at [cs]; the caller has checked what it is. *)
Fixpoint delete_at (cs : list string) (n : node) : option node :=
  match cs with
  | [] => None
  | c :: cs' =>
      match n with
      | Dir st es =>
          match cs' with
          | [] => Some (Dir st (del_entry c es))
          | _ :: _ =>
              match get_entry c es with
              | Some ch =>
                  match delete_at cs' ch with
                  | Some ch' => Some (Dir st (set_entry c ch' es))
                  | None => None
                  end
              | None => None
              end
          end
      | _ => None
      end
  end.

Definition is_dir_node (n : node) : bool :=
  match n with Dir _ _ => true | _ => false end.

Definition dir_names (es : list (string * node)) : list string :=
  map fst (filter (fun e => is_dir_node (snd e)) es).

Definition nondir_names (es : list (string * node)) : list string :=
  map fst (filter (fun e => negb (is_dir_node (snd e))) es).

(** The triples [(root, dirs, files)] that [os.walk] yields below a
    directory node. *)
Fixpoint walk_node (topdown : bool) (top : string) (n : node)
  : list (string * list string * list string) :=
  match n with
  | Dir _ es =>
      let here := (top, dir_names es, nondir_names es) in
      let below :=
        (fix go (l : list (string * node)) : list (string * list string * list string) :=
           match l with
           | [] => []
           | (nm, ch) :: l' =>
               match ch with
               | Dir _ _ => walk_node topdown (posixpath.join top nm) ch
               | _ => []
               end ++ go l'
           end) es in
      if topdown then here :: below else below ++ [here]
  | _ => []
  end.

Section WithHost.

Variable h : Host.

Definition locate (root : node) (p : string) : option (list string) :=
  if String.eqb p "" then None
  else canon root []
         (str.split posixpath.sep_char
            (if posixpath.isabs p then p else posixpath.join (getcwd h) p)).

Definition resolve (root : node) (p : string) : option node :=
  match locate root p with
  | Some cs => lookup root cs
  | None => None
  end.

(** [os.stat(p)] *)
Definition stat (root : node) (p : string) : Exc stat_result :=
  match resolve root p with
  | Some (File st) => Ok st
  | Some (Dir st _) => Ok st
  | Some Dangling => Raise (FileNotFoundError p)
  | None => Raise (FileNotFoundError p)
  end.

(** The text of an [OSError] that names a file. *)
Definition os_error (errno p : string) : exn :=
  OSError (errno ++ ": '" ++ p ++ "'").

(** [os.remove(p)] *)
Definition remove (root : node) (p : string) : Exc node :=
  match locate root p with
  | Some cs =>
      match lookup root cs with
      | Some (Dir _ _) => Raise (IsADirectoryError p)
      | Some _ =>
          if denied h cs then Raise (os_error "[Errno 13] Permission denied" p)
          else
            match delete_at cs root with
            | Some root' => Ok root'
            | None => Raise (os_error "[Errno 16] Device or resource busy" p)
            end
      | None => Raise (FileNotFoundError p)
      end
  | None => Raise (FileNotFoundError p)
  end.

(** The last name of a path as the system reads it, trailing separators
    apart. *)
Definition last_component (p : string) : string :=
  last (filter (fun c => negb (String.eqb c "")) (str.split posixpath.sep_char p)) "".

(** [os.rmdir(p)]. A path that ends in ["."] or [".."], and the root, are
    refused whatever they name; permission is checked before the content. *)
Definition rmdir (root : node) (p : string) : Exc node :=
  match locate root p with
  | Some cs =>
      match lookup root cs with
      | Some (Dir _ es) =>
          if String.eqb (last_component p) "." then
            Raise (os_error "[Errno 22] Invalid argument" p)
          else if String.eqb (last_component p) ".." then
            Raise (os_error "[Errno 39] Directory not empty" p)
          else if String.eqb (last_component p) "" then
            Raise (os_error "[Errno 16] Device or resource busy" p)
          else if denied h cs then Raise (os_error "[Errno 13] Permission denied" p)
          else
            match es with
            | _ :: _ => Raise (os_error "[Errno 39] Directory not empty" p)
            | [] =>
                match delete_at cs root with
                | Some root' => Ok root'
                | None => Raise (os_error "[Errno 16] Device or resource busy" p)
                end
            end
      | Some _ => Raise (NotADirectoryError p)
      | None => Raise (FileNotFoundError p)
      end
  | None => Raise (FileNotFoundError p)
  end.

(** [os.walk(top, topdown)]; errors of the listing are ignored, as with
    the default [onerror=None]. *)
Definition walk (root : node) (top : string) (topdown : bool)
  : list (string * list string * list string) :=
  match resolve root top with
  | Some n => walk_node topdown top n
  | None => []
  end.

(** [os.path.exists(p)]: [os.stat] without its exception. *)
Definition path_exists (root : node) (p : string) : bool := is_ok (stat root p).

(** [os.path.isdir(p)] *)
Definition path_isdir (root : node) (p : string) : bool :=
  match resolve root p with
  | Some (Dir _ _) => true
  | _ => false
  end.

(** [os.path.getmtime(p)] and [os.path.getsize(p)] *)
Definition path_getmtime (root : node) (p : string) : Exc Z :=
  st <- stat root p ;; Ok (st_mtime st).

Definition path_getsize (root : node) (p : string) : Exc Z :=
  st <- stat root p ;; Ok (st_size st).

Definition path_abspath (p : string) : string := posixpath.abspath (getcwd h) p.

(** [os.path.expanduser(p)] for ["~"] and ["~/..."], the two forms the
    source passes; any other argument is returned as it is. *)
Definition path_expanduser (p : string) : string :=
  match p with
  | String "~" rest =>
      if orb (String.eqb rest "") (str.startswith rest posixpath.sep) then
        let userhome :=
          match environ h "HOME" with Some v => v | None => pw_dir h end in
        let r := (str.rstrip posixpath.sep_char userhome ++ rest)%string in
        if String.eqb r "" then posixpath.sep else r
      else p
  | _ => p
  end.

(** [time.time()] *)
Definition time (w : world) : Z * world :=
  (clock h (ticks w), {| fs := fs w; ticks := S (ticks w) |}).

End WithHost.

End os.

(* ------------------------------------------------------------------ *)
(** ** Python values used by the three modules *)

(** Truth value of an [int]-or-[None] argument. *)
Definition truthy (o : option Z) : bool :=
  match o with
  | Some z => negb (z =? 0)
  | None => false
  end.

(** Truth value of a [str]-or-[None] value. *)
Definition truthy_str (o : option string) : bool :=
  match o with
  | Some s => negb (String.eqb s "")
  | None => false
  end.

Definition int_of (o : option Z) : Z :=
  match o with Some z => z | None => 0 end.

Definition environ_get (h : Host) (k default : string) : string :=
  match environ h k with Some v => v | None => default end.

(** A [dict] with string keys, in insertion order. *)
Module dict.

Definition t (V : Type) : Type := list (string * V).

Fixpoint get {V : Type} (d : t V) (k : string) : option V :=
  match d with
  | [] => None
  | (k', v) :: d' => if String.eqb k' k then Some v else get d' k
  end.

Definition contains {V : Type} (d : t V) (k : string) : bool :=
  match get d k with Some _ => true | None => false end.

(** [d[k] = v]: in place when the key is there, at the end otherwise. *)
Fixpoint set {V : Type} (d : t V) (k : string) (v : V) : t V :=
  match d with
  | [] => [(k, v)]
  | (k', v') :: d' => if String.eqb k' k then (k', v) :: d' else (k', v') :: set d' k v
  end.

End dict.

(** The default of [SYSTEMDRIVE]: the letter, a colon and a backslash. *)
Definition drive_c : string := String "C" (String ":" (String (ascii_of_nat 92) "")).

(** The five categories of a scan report. *)
Definition categories : list string :=
  ["junk"; "large"; "suspicious"; "harmful"; "skipped"].

(* ------------------------------------------------------------------ *)
(** ** [modules/scanner.py] *)

Module Scanner.

(** The attributes [__init__] sets, apart from [_found], which the scan
    functions thread as a value. Python sets are lists here; every use of
    them is a membership test or a loop that returns on the first hit. *)
Record obj : Type := {
  system : string;
  extra_dirs : list string;
  junk_extensions : list string;
  potentially_dangerous_extensions : list string;
  suspicious_script_extensions : list string;
  temp_dirs : list string;
  browser_cache_dirs : list string;
  download_dirs : list string;
  whitelist_paths : list string
}.

(** [self._found] *)
Definition found : Type := dict.t (list string).

Definition empty_found : found :=
  [("junk", []); ("large", []); ("suspicious", []); ("harmful", []); ("skipped", [])].

(** The report [scan_all] returns. [sizes] and [total_size] are the
    display strings that [_human] builds. *)
Record summary : Type := {
  counts : dict.t Z;
  sizes : dict.t string;
  lists : dict.t (list string);
  total_files : Z;
  total_size : string;
  scanned_folders : list string;
  dry_run : bool;
  notes_whitelist_paths : list string;
  notes_download_dirs : list string;
  notes_browser_cache_dirs : list string
}.

Section WithHost.

Variable h : Host.

Definition _get_temp_dirs (s : string) (extra : list string) (root : node)
  : list string :=
  let dirs :=
    if String.eqb s "Windows" then
      let windir := environ_get h "WINDIR" "C:\Windows" in
      let user := environ h "USERPROFILE" in
      [gettempdir h; posixpath.join windir "Temp"]
      ++ (if truthy_str user
          then [posixpath.join_all (environ_get h "USERPROFILE" "") ["AppData"; "Local"; "Temp"]]
          else [])
    else if String.eqb s "Linux" then
      ["/tmp"; os.path_expanduser h "~/.cache"]
    else if String.eqb s "Darwin" then
      ["/tmp"; os.path_expanduser h "~/Library/Caches"]
    else [] in
  filter (os.path_exists h root) (dirs ++ extra).

Definition _get_browser_cache_dirs (s : string) (root : node) : list string :=
  let home := os.path_expanduser h "~" in
  let dirs :=
    if String.eqb s "Windows" then
      let local := environ h "LOCALAPPDATA" in
      if truthy_str local then
        let l := environ_get h "LOCALAPPDATA" "" in
        [posixpath.join_all l ["Google"; "Chrome"; "User Data"; "Default"; "Cache"];
         posixpath.join_all l ["Microsoft"; "Edge"; "User Data"; "Default"; "Cache"];
         posixpath.join_all l ["Mozilla"; "Firefox"; "Profiles"]]
      else []
    else if String.eqb s "Linux" then
      [posixpath.join_all home [".cache"; "google-chrome"];
       posixpath.join_all home [".cache"; "chromium"];
       posixpath.join_all home [".cache"; "mozilla"]]
    else if String.eqb s "Darwin" then
      [posixpath.join_all home ["Library"; "Caches"; "Google"; "Chrome"];
       posixpath.join_all home ["Library"; "Caches"; "Firefox"]]
    else [] in
  filter (os.path_exists h root) dirs.

Definition _get_download_dirs (s : string) (root : node) : list string :=
  let home := os.path_expanduser h "~" in
  let candidates :=
    if String.eqb s "Windows" then
      if truthy_str (environ h "USERPROFILE")
      then [posixpath.join (environ_get h "USERPROFILE" "") "Downloads"]
      else []
    else [posixpath.join home "Downloads"] in
  filter (os.path_exists h root) candidates.

(** The configured paths, before the final comprehension. *)
Definition whitelist_candidates (s : string) : list string :=
  if String.eqb s "Windows" then
    [environ_get h "WINDIR" "C:\Windows";
     posixpath.join (environ_get h "SYSTEMDRIVE" drive_c) "Program Files";
     posixpath.join (environ_get h "SYSTEMDRIVE" drive_c) "Program Files (x86)"]
    ++ (if truthy_str (environ h "USERPROFILE") then
          let user := environ_get h "USERPROFILE" "" in
          [posixpath.join_all user ["AppData"; "Roaming"];
           posixpath.join_all user ["AppData"; "Local"; "Programs"]]
        else [])
  else
    ["/"; "/bin"; "/sbin"; "/usr"; "/usr/bin"; "/usr/sbin"; "/lib"; "/lib64"; "/etc"; "/var"]
    ++ (if String.eqb s "Darwin" then ["/System"; "/Applications"] else []).

(** [{os.path.abspath(p) for p in wl if p}] *)
Definition _get_whitelist_paths (s : string) : list string :=
  str.dedupe
    (map (os.path_abspath h)
       (filter (fun p => negb (String.eqb p "")) (str.dedupe (whitelist_candidates s)))).

Definition __init__ (root : node) (extra : list string) : obj :=
  let s := platform_system h in
  {| system := s;
     extra_dirs := extra;
     junk_extensions :=
       [".tmp"; ".log"; ".bak"; ".old"; ".crdownload"; ".part"; ".cache";
        ".swp"; ".~"; ".trashinfo"];
     potentially_dangerous_extensions :=
       [".exe"; ".msi"; ".bat"; ".cmd"; ".ps1"; ".vbs"; ".scr"; ".jar"; ".apk";
        ".dmg"; ".pkg"];
     suspicious_script_extensions := [".sh"; ".py"; ".pl"; ".rb"];
     temp_dirs := _get_temp_dirs s extra root;
     browser_cache_dirs := _get_browser_cache_dirs s root;
     download_dirs := _get_download_dirs s root;
     whitelist_paths := _get_whitelist_paths s |}.

(** The loop returns at the first entry that matches. [os.path.abspath] does
    not raise here, so the [except] branch ([return True]) is not taken. *)
Definition _is_under_whitelist (self : obj) (path : string) : bool :=
  let path := os.path_abspath h path in
  existsb
    (fun p => orb (String.eqb path p) (str.startswith path (p ++ posixpath.sep)%string))
    (whitelist_paths self).

(** [any(os.path.commonpath([file_path, d]) == d for d in dirs)] *)
Fixpoint any_commonpath (file_path : string) (dirs : list string) : Exc bool :=
  match dirs with
  | [] => Ok false
  | d :: dirs' =>
      c <- posixpath.commonpath [file_path; d] ;;
      if String.eqb c d then Ok true else any_commonpath file_path dirs'
  end.

Definition _classify_file (self : obj) (w : world) (file_path : string)
           (age_seconds size_threshold_bytes : option Z)
  : Exc (option string) * world :=
  match os.stat h (fs w) file_path with
  | Raise _ => (Ok (Some "skip"), w)
  | Ok st =>
      let mtime := st_mtime st in
      let size := st_size st in
      if _is_under_whitelist self file_path then (Ok (Some "skipped"), w)
      else
        let '(recent, w) :=
          match age_seconds with
          | None => (false, w)
          | Some age => let '(now, w') := os.time h w in (now - mtime <? age, w')
          end in
        if recent then (Ok None, w)
        else
          let suffix := str.lower (pathlib.suffix file_path) in
          if str.mem suffix (potentially_dangerous_extensions self) then
            (inside <- any_commonpath file_path (download_dirs self ++ temp_dirs self) ;;
             if inside then Ok (Some "harmful") else Ok (Some "skipped"), w)
          else if str.mem suffix (suspicious_script_extensions self) then
            (inside <- any_commonpath file_path (download_dirs self ++ temp_dirs self) ;;
             if inside then Ok (Some "suspicious") else Ok None, w)
          else if str.mem suffix (junk_extensions self) then
            if andb (truthy size_threshold_bytes) (size <? int_of size_threshold_bytes)
            then (Ok None, w)
            else (Ok (Some "junk"), w)
          else if andb (truthy size_threshold_bytes)
                    (size >=? Z.max (int_of size_threshold_bytes) (20 * 1024 * 1024))
          then
            (inside <- any_commonpath file_path (download_dirs self ++ temp_dirs self) ;;
             if inside then Ok (Some "large")
             else
               in_cache <- any_commonpath file_path (browser_cache_dirs self) ;;
               if in_cache then Ok (Some "junk") else Ok None, w)
          else (Ok None, w)
  end.

(** The body of the innermost loop of [_walk_and_collect], for one file. *)
Definition collect_file (self : obj) (age_seconds size_threshold_bytes : option Z)
           (category_limits : dict.t Z) (st : found * world) (file_path : string)
  : found * world :=
  let '(fnd, w) := st in
  let '(r, w) := _classify_file self w file_path age_seconds size_threshold_bytes in
  let cat := match r with Ok c => c | Raise _ => Some "skipped" end in
  match cat with
  | Some cat =>
      if String.eqb cat "" then (fnd, w)
      else
        let fnd := if dict.contains fnd cat then fnd else dict.set fnd cat [] in
        let stored := match dict.get fnd cat with Some l => l | None => [] end in
        if andb (truthy (dict.get category_limits cat))
                (Z.of_nat (List.length stored) >=? int_of (dict.get category_limits cat))
        then (fnd, w)
        else (dict.set fnd cat (stored ++ [file_path]), w)
  | None => (fnd, w)
  end.

Definition collect_dir (self : obj) (age_seconds size_threshold_bytes : option Z)
           (category_limits : dict.t Z) (st : found * world)
           (entry : string * list string * list string) : found * world :=
  let '(root, _, files) := entry in
  fold_left
    (fun st f =>
       collect_file self age_seconds size_threshold_bytes category_limits st
         (posixpath.join root f))
    files st.

Definition _walk_and_collect (self : obj) (st : found * world) (folders : list string)
           (age_seconds size_threshold_bytes : option Z)
           (category_limits : option (dict.t Z)) : found * world :=
  let category_limits := match category_limits with Some d => d | None => [] end in
  fold_left
    (fun st folder =>
       if negb (os.path_exists h (fs (snd st)) folder) then st
       else
         fold_left (collect_dir self age_seconds size_threshold_bytes category_limits)
           (os.walk h (fs (snd st)) folder true) st)
    folders st.

(** The count and byte total of one stored list. *)
Definition count_and_size (root : node) (files : list string) : Z * Z :=
  fold_left
    (fun acc p =>
       let '(count, size) := acc in
       match os.path_getsize h root p with
       | Ok n => (count + 1, size + n)
       | Raise _ => (count + 1, size)
       end)
    files (0, 0).

Definition sum_values (d : dict.t Z) : Z :=
  fold_left (fun acc kv => acc + snd kv) d 0.

(** [round(num / den, 2)] of a float, as hundredths: the decimal nearest to
    the exact quotient, the even one on a tie. *)
Definition round_hundredths (num den : Z) : Z :=
  let q := (100 * num) / den in
  let r := (100 * num) mod den in
  if 2 * r <? den then q
  else if den <? 2 * r then q + 1
  else if Z.even q then q else q + 1.

(** [str(round(num / den, 2))]: the shortest text of the rounded float, with
    one digit after the point at least. *)
Definition str_round2 (num den : Z) : string :=
  let hundredths := round_hundredths num den in
  let whole := hundredths / 100 in
  let frac := hundredths mod 100 in
  let tenths := str.of_int (frac / 10) in
  let last_digit := if frac mod 10 =? 0 then "" else str.of_int (frac mod 10) in
  (str.of_int whole ++ "." ++ tenths ++ last_digit)%string.

(** The loop of [_human] once [b] is a float: [b] is [n / scale]. *)
Fixpoint human_float (units : list string) (n scale : Z) : string :=
  match units with
  | [] => (str_round2 n scale ++ " PB")%string
  | unit :: units' =>
      if n <? 1024 * scale then (str_round2 n scale ++ " " ++ unit)%string
      else human_float units' n (scale * 1024)
  end.

(** [_human(b)] for an [int]: the first turn of the loop prints the [int]
    itself, the division makes a float of it for the turns that follow. *)
Definition _human (b : Z) : string :=
  if b <? 1024 then (str.of_int b ++ " B")%string
  else human_float ["KB"; "MB"; "GB"; "TB"] b 1024.

Definition scan_all (self : obj) (w : world)
           (age_seconds size_threshold_bytes : option Z)
           (include_downloads include_browser_cache : bool)
           (extra_scan_dirs : list string)
           (category_limits : option (dict.t Z)) (dry : bool)
  : summary * found * world :=
  let folders :=
    temp_dirs self
    ++ (if include_browser_cache then browser_cache_dirs self else [])
    ++ (if include_downloads then download_dirs self else [])
    ++ extra_scan_dirs in
  let folders := filter (os.path_exists h (fs w)) (str.dedupe folders) in
  let '(fnd, w) :=
    _walk_and_collect self (empty_found, w) folders age_seconds size_threshold_bytes
      category_limits in
  let summary_counts :=
    map (fun kv => (fst kv, fst (count_and_size (fs w) (snd kv)))) fnd in
  let summary_sizes :=
    map (fun kv => (fst kv, snd (count_and_size (fs w) (snd kv)))) fnd in
  let total_files := sum_values summary_counts in
  let total_size_bytes := sum_values summary_sizes in
  ({| counts := summary_counts;
      sizes := map (fun kv => (fst kv, _human (snd kv))) summary_sizes;
      lists := fnd;
      total_files := total_files;
      total_size := _human total_size_bytes;
      scanned_folders := folders;
      dry_run := dry;
      notes_whitelist_paths := whitelist_paths self;
      notes_download_dirs := download_dirs self;
      notes_browser_cache_dirs := browser_cache_dirs self |},
   fnd, w).

End WithHost.

End Scanner.

(* ------------------------------------------------------------------ *)
(** ** [modules/cleaner.py] *)

Module Cleaner.

Record obj : Type := { use_trash : bool }.

(** [send2trash] is an optional third-party function: [None] when its
    import failed. A call may change the file system and may raise. *)
Definition trash_fn : Type := node -> string -> option exn * node.

(** Run [f] on every element, stopping at the first exception. *)
Fixpoint for_each (f : node -> string -> Exc node) (l : list string) (root : node)
  : option exn * node :=
  match l with
  | [] => (None, root)
  | x :: l' =>
      match f root x with
      | Ok root' => for_each f l' root'
      | Raise e => (Some e, root)
      end
  end.

Section WithHost.

Variable h : Host.
Variable send2trash : option trash_fn.

Definition _HAS_SEND2TRASH : bool :=
  match send2trash with Some _ => true | None => false end.

Definition __init__ : obj := {| use_trash := _HAS_SEND2TRASH |}.

(** The two inner loops of the permanent delete, for one triple of the
    bottom-up walk. *)
Definition delete_entry (root : node) (entry : string * list string * list string)
  : option exn * node :=
  let '(r, dirs, files) := entry in
  match for_each (fun fs name => os.remove h fs (posixpath.join r name)) files root with
  | (None, root') =>
      for_each (fun fs name => os.rmdir h fs (posixpath.join r name)) dirs root'
  | failed => failed
  end.

Fixpoint delete_entries (root : node) (l : list (string * list string * list string))
  : option exn * node :=
  match l with
  | [] => (None, root)
  | e :: l' =>
      match delete_entry root e with
      | (None, root') => delete_entries root' l'
      | failed => failed
      end
  end.

(** The branch [if force:] of [clean_paths], for one path. *)
Definition permanent_delete (root : node) (p : string) : option exn * node :=
  if os.path_isdir h root p then
    match delete_entries root (os.walk h root p false) with
    | (None, root') =>
        match os.rmdir h root' p with
        | Ok root'' => (None, root'')
        | Raise e => (Some e, root')
        end
    | failed => failed
    end
  else
    match os.remove h root p with
    | Ok root' => (None, root')
    | Raise e => (Some e, root)
    end.

Definition outcome : Type :=
  (list (string * string) * list (string * string) * node)%type.

(** The body of the loop of [clean_paths]. *)
Definition clean_path (self : obj) (dry_run force : bool) (acc : outcome) (p : string)
  : outcome :=
  let '(results, errors, root) := acc in
  if negb (os.path_exists h root p) then (results, errors ++ [(p, "NotFound")], root)
  else if dry_run then
    let action :=
      if use_trash self then "trashed"
      else if force then "deleted" else "would_delete_but_no_trash" in
    (results ++ [(p, action)], errors, root)
  else if use_trash self then
    match send2trash with
    | Some f =>
        match f root p with
        | (None, root') => (results ++ [(p, "trashed")], errors, root')
        | (Some e, root') => (results, errors ++ [(p, str_of_exn e)], root')
        end
    | None => (results, errors ++ [(p, str_of_exn (NameError "send2trash"))], root)
    end
  else if force then
    match permanent_delete root p with
    | (None, root') => (results ++ [(p, "deleted")], errors, root')
    | (Some e, root') => (results, errors ++ [(p, str_of_exn e)], root')
    end
  else (results, errors ++ [(p, "send2trash_not_available")], root).

Definition clean_paths (self : obj) (root : node) (paths : list string)
           (dry_run force : bool) : outcome :=
  fold_left (clean_path self dry_run force) paths ([], [], root).

End WithHost.

End Cleaner.

(* ------------------------------------------------------------------ *)
(** ** [modules/optimizer.py] *)

Module Optimizer.

Record obj : Type := {
  system : string;
  whitelist_paths : list string;
  temp_dirs : list string
}.

Section WithHost.

Variable h : Host.

(** [{os.path.abspath(p) for p in wl if os.path.exists(p)}], over the same
    table of configured paths as the scanner's. *)
Definition _get_whitelist_paths (s : string) (root : node) : list string :=
  str.dedupe
    (map (os.path_abspath h)
       (filter (os.path_exists h root) (str.dedupe (Scanner.whitelist_candidates h s)))).

Definition _get_temp_dirs (s : string) (root : node) : list string :=
  let dirs :=
    if String.eqb s "Windows" then
      [gettempdir h]
      ++ (if truthy_str (environ h "USERPROFILE")
          then [posixpath.join_all (environ_get h "USERPROFILE" "") ["AppData"; "Local"; "Temp"]]
          else [])
    else if String.eqb s "Linux" then
      ["/tmp"; os.path_expanduser h "~/.cache"]
    else if String.eqb s "Darwin" then
      ["/tmp"; os.path_expanduser h "~/Library/Caches"]
    else [] in
  filter (os.path_exists h root) dirs.

Definition __init__ (root : node) : obj :=
  let s := platform_system h in
  {| system := s;
     whitelist_paths := _get_whitelist_paths s root;
     temp_dirs := _get_temp_dirs s root |}.

Definition _is_safe_path (self : obj) (path : string) : bool :=
  let path := os.path_abspath h path in
  negb (existsb
          (fun p => orb (String.eqb path p)
                        (str.startswith path (p ++ posixpath.sep)%string))
          (whitelist_paths self)).

(** The body of the innermost loop of [optimize_disk], for one file. *)
Definition optimize_file (self : obj) (age_seconds : Z) (delete_small_files : bool)
           (st : list string * world) (fpath : string) : list string * world :=
  let '(removed_files, w) := st in
  if negb (_is_safe_path self fpath) then (removed_files, w)
  else
    let '(now, w) := os.time h w in
    match os.path_getmtime h (fs w) fpath with
    | Raise _ => (removed_files, w)
    | Ok mtime =>
        if now - mtime <? age_seconds then (removed_files, w)
        else
          let small :=
            if delete_small_files then Ok false
            else (size <- os.path_getsize h (fs w) fpath ;; Ok (size <? 1024)) in
          match small with
          | Raise _ => (removed_files, w)
          | Ok true => (removed_files, w)
          | Ok false =>
              match os.remove h (fs w) fpath with
              | Ok root' =>
                  (removed_files ++ [fpath], {| fs := root'; ticks := ticks w |})
              | Raise _ => (removed_files, w)
              end
          end
    end.

Definition optimize_dir (self : obj) (age_seconds : Z) (delete_small_files : bool)
           (st : list string * world) (entry : string * list string * list string)
  : list string * world :=
  let '(root, _, files) := entry in
  fold_left
    (fun st f => optimize_file self age_seconds delete_small_files st (posixpath.join root f))
    files st.

Definition optimize_disk (self : obj) (w : world) (max_age_days : Z)
           (delete_small_files : bool) : list string * world :=
  let age_seconds := max_age_days * 86400 in
  fold_left
    (fun st folder =>
       fold_left (optimize_dir self age_seconds delete_small_files)
         (os.walk h (fs (snd st)) folder true) st)
    (temp_dirs self) ([], w).

(** [optimize_memory]. What it asks of the operating system (dropping the
    page cache, reading process information) lies outside the file system;
    [external] is the exception that step raises, if it raises. *)
Definition optimize_memory (self : obj) (external : option exn) : string :=
  if orb (String.eqb (system self) "Linux")
         (orb (String.eqb (system self) "Windows") (String.eqb (system self) "Darwin"))
  then
    match external with
    | None => "Memory optimization completed."
    | Some e => ("Memory optimization failed: " ++ str_of_exn e)%string
    end
  else "Memory optimization completed.".

Record full_summary : Type := {
  memory_status : string;
  files_removed_count : Z;
  files_removed_sample : list string
}.

Definition full_optimize (self : obj) (w : world) (max_age_days : Z)
           (external : option exn) : full_summary * world :=
  let mem_status := optimize_memory self external in
  let '(removed_files, w) := optimize_disk self w max_age_days true in
  ({| memory_status := mem_status;
      files_removed_count := Z.of_nat (List.length removed_files);
      files_removed_sample := firstn 20 removed_files |}, w).

End WithHost.

End Optimizer.

(* ------------------------------------------------------------------ *)
(** ** [ui/dashboard.py]: the two handlers of the cleaner tab and the disk
    handler of the optimizer tab, without the text they write to the log. *)

Module Dashboard.

(** [last_scan] is the attribute the scan handler sets on the scanner. *)
Record obj : Type := {
  scanner : Scanner.obj;
  optimizer : Optimizer.obj;
  last_scan : option Scanner.summary
}.

Section WithHost.

Variable h : Host.

Definition __init__ (root : node) : obj :=
  {| scanner := Scanner.__init__ h root [];
     optimizer := Optimizer.__init__ h root;
     last_scan := None |}.

Definition scan_files (self : obj) (w : world) : obj * world :=
  let '(summary, _, w) :=
    Scanner.scan_all h (scanner self) w (Some 84600) (Some 1) true true [] None true in
  ({| scanner := scanner self; optimizer := optimizer self; last_scan := Some summary |},
   w).

(** The body of the loop of [clear_junk_files]. *)
Definition clear_file (st : list string * node) (f : string) : list string * node :=
  let '(deleted_files, root) := st in
  if os.path_exists h root f then
    match os.remove h root f with
    | Ok root' => (deleted_files ++ [f], root')
    | Raise _ => (deleted_files, root)
    end
  else (deleted_files, root).

(** [None] when the handler stops at "No junk files found. Scan first.". *)
Definition clear_junk_files (self : obj) (root : node) : option (list string) * node :=
  match last_scan self with
  | None => (None, root)
  | Some summary =>
      match dict.get (Scanner.lists summary) "junk" with
      | None => (None, root)
      | Some [] => (None, root)
      | Some junk_files =>
          let '(deleted_files, root) := fold_left clear_file junk_files ([], root) in
          (Some deleted_files, root)
      end
  end.

Definition optimize_disk (self : obj) (w : world) : list string * world :=
  Optimizer.optimize_disk h (optimizer self) w 7 true.

End WithHost.

End Dashboard.

(* ------------------------------------------------------------------ *)
(** ** A Linux host used for the examples *)

Module Sample.

Definition t0 : Z := 1700000000.

Definition host : Host :=
  {| platform_system := "Linux";
     environ := fun k => if String.eqb k "HOME" then Some "/home/user" else None;
     pw_dir := "/home/user";
     gettempdir := "/tmp";
     getcwd := "/home/user";
     clock := fun n => t0 + Z.of_nat n;
     denied := fun _ => false |}.

Definition aged (days : Z) (size : Z) : node :=
  File {| st_mtime := t0 - days * 86400; st_size := size |}.

Definition dir (es : list (string * node)) : node :=
  Dir {| st_mtime := 0; st_size := 4096 |} es.

Definition MiB : Z := 1024 * 1024.

(** [/lib64] is absent, as on hosts without a multilib layout. *)
Definition disk : node :=
  dir [("bin", dir []);
       ("sbin", dir []);
       ("lib", dir []);
       ("usr", dir [("bin", dir [("env", aged 400 40000)]); ("sbin", dir [])]);
       ("var", dir []);
       ("etc", dir [("hosts", aged 30 200); ("old.log", aged 30 4096)]);
       ("opt", dir [("tools", dir [("setup.exe", aged 10 (5 * MiB))])]);
       ("tmp", dir [("app.tmp", aged 2 2048);
                    ("big.iso", aged 9 (30 * MiB));
                    ("fresh.tmp", aged 0 2048);
                    ("gone", Dangling);
                    ("sub", dir [("run.sh", aged 3 100)])]);
       ("home", dir [("user", dir [("Downloads", dir [("setup.exe", aged 10 (5 * MiB))]);
                                   (".cache", dir [("mozilla", dir [("blob", aged 5 (25 * MiB))])]);
                                   ("rel", dir [("setup.exe", aged 10 (5 * MiB));
("big.iso", aged 9 (30 * MiB))])])])].

Definition w0 : world := {| fs := disk; ticks := 0 |}.

Definition scanner : Scanner.obj := Scanner.__init__ host disk [].

(** The same scanner with one extra directory, given as a relative path. *)
Definition scanner_rel : Scanner.obj := Scanner.__init__ host disk ["rel"].

Definition optimizer : Optimizer.obj := Optimizer.__init__ host disk.

End Sample.


(* ------------------------------------------------------------------ *)
(** ** Vocabulary of the properties *)

(** [interleave l1 l2 l]: [l] is a merge of [l1] and [l2] that keeps the
    order of both. *)
Inductive interleave {A : Type} : list A -> list A -> list A -> Prop :=
| interleave_nil : interleave [] [] []
| interleave_left : forall x l1 l2 l,
    interleave l1 l2 l -> interleave (x :: l1) l2 (x :: l)
| interleave_right : forall x l1 l2 l,
    interleave l1 l2 l -> interleave l1 (x :: l2) (x :: l).

(** The containment test of the whitelist, on a path as it is written:
    [P] equals an entry [W] or starts with [W] and the separator. *)
Definition under_whitelist (wl : list string) (P : string) : Prop :=
  exists W, In W wl /\ (P = W \/ str.startswith P (W ++ posixpath.sep)%string = true).

(** The test [os.path.commonpath([file_path, d]) == d] for one directory,
    and for some directory of a list. *)
Definition inside (file_path d : string) : bool :=
  match posixpath.commonpath [file_path; d] with
  | Ok c => String.eqb c d
  | Raise _ => false
  end.

Definition inside_any (file_path : string) (dirs : list string) : bool :=
  existsb (inside file_path) dirs.

(** A name of a path in plain form: not empty, not ["."], not [".."]. *)
Definition is_name (c : string) : bool :=
  negb (orb (String.eqb c "") (orb (String.eqb c ".") (String.eqb c ".."))).

(** A path in plain form: names separated by single separators, after one
    leading separator when the path is absolute, and no trailing separator.
    The root ["/"] is plain; the empty path is not. *)
Definition plain (s : string) : bool :=
  match str.split posixpath.sep_char s with
  | EmptyString :: rest =>
      orb (String.eqb s "/")
          (andb (forallb is_name rest) (negb (Nat.eqb (List.length rest) 0)))
  | comps => forallb is_name comps
  end.

(** [P] is the directory [D] or is written below it: [P] starts with [D]
    and a separator (which the root ends with already). *)
Definition lies_in (P D : string) : bool :=
  orb (String.eqb P D)
      (str.startswith P (if String.eqb D "/" then D else (D ++ posixpath.sep)%string)).

Definition lies_in_any (P : string) (dirs : list string) : bool :=
  existsb (lies_in P) dirs.

(** The names of a path, as [commonpath] takes them, and what it writes
    before them. *)
Definition names_of (s : string) : list string :=
  filter posixpath.keep_comp (str.split posixpath.sep_char s).

Definition lead (s : string) : string := if posixpath.isabs s then "/" else "".

(** Names: texts without a separator, none empty. *)
Definition name_list (l : list string) : Prop :=
  forall x, In x l -> str.split posixpath.sep_char x = [x] /\ x <> "".

(** The age gate lets the file through: no threshold, or an age that is not
    below it, on the clock reading the call takes. *)
Definition old_enough (h : Host) (w : world) (st : stat_result) (age_seconds : option Z)
  : Prop :=
  match age_seconds with
  | None => True
  | Some age => age <= clock h (ticks w) - st_mtime st
  end.

(** What the rules on extension, size and place decide, once the whitelist
    and the age gate are behind. *)
Definition by_rules (self : Scanner.obj) (file_path : string) (size : Z)
           (size_threshold_bytes : option Z)
  : Exc (option string) :=
  let suffix := str.lower (pathlib.suffix file_path) in
  let places := Scanner.download_dirs self ++ Scanner.temp_dirs self in
  if str.mem suffix (Scanner.potentially_dangerous_extensions self) then
    inside <- Scanner.any_commonpath file_path places ;;
    if inside then Ok (Some "harmful") else Ok (Some "skipped")
  else if str.mem suffix (Scanner.suspicious_script_extensions self) then
    inside <- Scanner.any_commonpath file_path places ;;
    if inside then Ok (Some "suspicious") else Ok None
  else if str.mem suffix (Scanner.junk_extensions self) then
    if andb (truthy size_threshold_bytes) (size <? int_of size_threshold_bytes)
    then Ok None else Ok (Some "junk")
  else if andb (truthy size_threshold_bytes)
            (size >=? Z.max (int_of size_threshold_bytes) (20 * 1024 * 1024))
  then
    inside <- Scanner.any_commonpath file_path places ;;
    if inside then Ok (Some "large")
    else
      in_cache <- Scanner.any_commonpath file_path (Scanner.browser_cache_dirs self) ;;
      if in_cache then Ok (Some "junk") else Ok None
  else Ok None.

(** The stored list of a category, empty when the key is absent. *)
Definition stored (fnd : Scanner.found) (cat : string) : list string :=
  match dict.get fnd cat with Some l => l | None => [] end.

(** The paths the walker hands to the classifier, in order: for every
    folder that exists, every file of every directory that [os.walk] yields. *)
Definition visited_files (h : Host) (root : node) (folders : list string) : list string :=
  flat_map
    (fun folder =>
       if os.path_exists h root folder then
         flat_map (fun entry : string * list string * list string =>
                     let '(r, _, files) := entry in map (posixpath.join r) files)
           (os.walk h root folder true)
       else [])
    folders.

(** The category the walker works with: the classifier's answer, or
    ["skipped"] when it raised. *)
Definition category_of (h : Host) (self : Scanner.obj)
           (age_seconds size_threshold_bytes : option Z) (w : world) (p : string)
  : option string :=
  match fst (Scanner._classify_file h self w p age_seconds size_threshold_bytes) with
  | Ok c => c
  | Raise _ => Some "skipped"
  end.

(** No list other than ["skipped"] and ["skip"] holds a whitelisted path. *)
Definition whitelist_safe (h : Host) (self : Scanner.obj) (fnd : Scanner.found) : Prop :=
  forall k q,
    In q (stored fnd k) ->
    Scanner._is_under_whitelist h self q = true ->
    k = "skipped" \/ k = "skip".

Definition limits_of (category_limits : option (dict.t Z)) : dict.t Z :=
  match category_limits with Some d => d | None => [] end.

(** [shrunk n n']: [n'] is [n] after some deletions of entries. *)
Inductive shrunk : node -> node -> Prop :=
| shrunk_refl : forall n, shrunk n n
| shrunk_step : forall n m n' cs,
    shrunk n m -> os.delete_at cs m = Some n' -> shrunk n n'.

Definition below_of (topdown : bool) (top : string) (es : list (string * node))
  : list (string * list string * list string) :=
  flat_map (fun e : string * node =>
              os.walk_node topdown (posixpath.join top (fst e)) (snd e)) es.

(** [p] is a file that [os.walk] lists below one of the folders. *)
Definition listed (h : Host) (root : node) (folders : list string) (p : string) : Prop :=
  exists folder r dirs files f,
    In folder folders
    /\ In (r, dirs, files) (os.walk h root folder true)
    /\ In f files
    /\ p = posixpath.join r f.

(** The file system after [os.remove] of each path in turn. *)
Definition remove_all (h : Host) (root : node) (ps : list string) : node :=
  fold_left
    (fun r p => match os.remove h r p with Ok r' => r' | Raise _ => r end)
    ps root.

(** What [optimize_disk], started in world [w0], may remove: a path that is
    not under the whitelist, is a file of a temp directory, and whose age on
    some clock reading of the call is at least [age_seconds]. *)
Definition removable (h : Host) (self : Optimizer.obj) (w0 : world) (age_seconds : Z)
           (p : string) : Prop :=
  ~ under_whitelist (Optimizer.whitelist_paths self) (os.path_abspath h p)
  /\ listed h (fs w0) (Optimizer.temp_dirs self) p
  /\ exists k mtime,
      (ticks w0 <= k)%nat
      /\ os.path_getmtime h (fs w0) p = Ok mtime
      /\ age_seconds <= clock h k - mtime.

Definition optimizer_invariant (h : Host) (self : Optimizer.obj) (w0 : world)
           (age_seconds : Z) (st : list string * world) : Prop :=
  shrunk (fs w0) (fs (snd st))
  /\ (ticks w0 <= ticks (snd st))%nat
  /\ (forall p, In p (fst st) -> removable h self w0 age_seconds p)
  /\ fs (snd st) = remove_all h (fs w0) (fst st).

(** The categories whose files the cleaner tab may delete. *)
Definition deletable_categories : list string :=
  ["junk"; "large"; "suspicious"; "harmful"].

(** The age gate stops the file: a threshold is set and the age, on the
    clock reading the call takes, is below it. *)
Definition too_recent (h : Host) (w : world) (st : stat_result) (age_seconds : option Z)
  : bool :=
  match age_seconds with
  | None => false
  | Some age => clock h (ticks w) - st_mtime st <? age
  end.

(** The system directories every host that is not Windows protects. *)
Definition unix_system_dirs : list string :=
  ["/"; "/bin"; "/sbin"; "/usr"; "/usr/bin"; "/usr/sbin"; "/lib"; "/lib64"; "/etc"; "/var"].

(** The folders [scan_all] is asked to scan, before the existence filter. *)
Definition requested_folders (self : Scanner.obj) (include_downloads include_browser_cache : bool)
           (extra_scan_dirs : list string) : list string :=
  Scanner.temp_dirs self
  ++ (if include_browser_cache then Scanner.browser_cache_dirs self else [])
  ++ (if include_downloads then Scanner.download_dirs self else [])
  ++ extra_scan_dirs.

(** The size [scan_all] adds for a stored path: [0] when it cannot be read. *)
Definition size_or_zero (h : Host) (root : node) (p : string) : Z :=
  match os.path_getsize h root p with Ok n => n | Raise _ => 0 end.

Definition sum_Z (l : list Z) : Z := fold_right Z.add 0 l.

(** What [optimize_disk], started in world [w0], keeps true of the paths it
    has removed so far and of the rest of the file system. *)
Definition optimizer_frame (h : Host) (w0 : world) (delete_small_files : bool)
           (st : list string * world) : Prop :=
  NoDup (fst st)
  /\ (forall p, In p (fst st) -> os.path_exists h (fs w0) p = true)
  /\ (forall p, In p (fst st) -> os.path_exists h (fs (snd st)) p = false)
  /\ (delete_small_files = false ->
      forall p, In p (fst st) ->
                exists size, os.path_getsize h (fs w0) p = Ok size /\ 1024 <= size)
  /\ shrunk (fs w0) (fs (snd st))
  /\ (forall q, os.locate h (fs (snd st)) q = os.locate h (fs w0) q)
  /\ (forall q stq,
         os.stat h (fs w0) q = Ok stq ->
         (forall p, In p (fst st) -> os.locate h (fs w0) p <> os.locate h (fs w0) q) ->
         os.stat h (fs (snd st)) q = Ok stq).

(** A trash that moves the entry away. *)
Definition sample_trash : Cleaner.trash_fn :=
  fun root p =>
    match os.remove Sample.host root p with
    | Ok root' => (None, root')
    | Raise e => (Some e, root)
    end.

(* ================================================================== *)
(** * Properties *)

(** ** Lists built by a loop *)

Lemma fold_left_invariant :
  forall (A B : Type) (P : A -> Prop) (f : A -> B -> A) (l : list B) (a : A),
    P a ->
    (forall a' b, In b l -> P a' -> P (f a' b)) ->
    P (fold_left f l a).
Proof.
  intros A B P f l; induction l as [|b l IH]; intros a Ha Hstep; simpl.
  - exact Ha.
  - apply IH.
    + apply Hstep; [left; reflexivity | exact Ha].
    + intros a' b' Hin; apply Hstep; right; exact Hin.
Qed.


Lemma interleave_snoc_left :
  forall (A : Type) (l1 l2 l : list A) (x : A),
    interleave l1 l2 l -> interleave (l1 ++ [x]) l2 (l ++ [x]).
Proof.
  intros A l1 l2 l x H; induction H; simpl.
  - apply interleave_left; constructor.
  - apply interleave_left; assumption.
  - apply interleave_right; assumption.
Qed.

Lemma interleave_snoc_right :
  forall (A : Type) (l1 l2 l : list A) (x : A),
    interleave l1 l2 l -> interleave l1 (l2 ++ [x]) (l ++ [x]).
Proof.
  intros A l1 l2 l x H; induction H; simpl.
  - apply interleave_right; constructor.
  - apply interleave_left; assumption.
  - apply interleave_right; assumption.
Qed.

Lemma interleave_length :
  forall (A : Type) (l1 l2 l : list A),
    interleave l1 l2 l -> List.length l = (List.length l1 + List.length l2)%nat.
Proof.
  intros A l1 l2 l H; induction H; simpl; lia.
Qed.

(* ------------------------------------------------------------------ *)
(** ** The cleaner *)

Section CleanerFacts.

Variable h : Host.
Variable send2trash : option Cleaner.trash_fn.
Variable self : Cleaner.obj.

Abbreviation step := (Cleaner.clean_path h send2trash self).

(** Every iteration of the loop adds one entry, to one of the lists. *)
Lemma clean_path_one_outcome :
  forall dry_run force results errors root p,
    (exists a root',
        step dry_run force (results, errors, root) p
        = (results ++ [(p, a)], errors, root'))
    \/ (exists m root',
           step dry_run force (results, errors, root) p
           = (results, errors ++ [(p, m)], root')).
Proof.
  intros dry_run force results errors root p.
  unfold Cleaner.clean_path.
  destruct (os.path_exists h root p); simpl.
  2: { right; eauto. }
  destruct dry_run.
  { left; eauto. }
  destruct (Cleaner.use_trash self).
  { destruct send2trash as [f|].
    - destruct (f root p) as [[e|] root']; [right | left]; eauto.
    - right; eauto. }
  destruct force.
  - destruct (Cleaner.permanent_delete h root p) as [[e|] root']; [right | left]; eauto.
  - right; eauto.
Qed.

Lemma clean_paths_interleave :
  forall dry_run force paths results errors root done,
    interleave (map fst results) (map fst errors) done ->
    let '(results', errors', _) :=
      fold_left (step dry_run force) paths (results, errors, root) in
    interleave (map fst results') (map fst errors') (done ++ paths).
Proof.
  intros dry_run force paths; induction paths as [|p paths IH];
    intros results errors root done Hdone; cbn [fold_left].
  - rewrite app_nil_r; exact Hdone.
  - destruct (clean_path_one_outcome dry_run force results errors root p)
      as [(a & root' & E) | (m & root' & E)]; rewrite E.
    + specialize (IH (results ++ [(p, a)]) errors root' (done ++ [p])).
      rewrite <- app_assoc in IH; simpl in IH; apply IH.
      rewrite map_app; simpl; apply interleave_snoc_left; exact Hdone.
    + specialize (IH results (errors ++ [(p, m)]) root' (done ++ [p])).
      rewrite <- app_assoc in IH; simpl in IH; apply IH.
      rewrite map_app; simpl; apply interleave_snoc_right; exact Hdone.
Qed.

(** Without a trash and without [force], an iteration only reports. *)
Lemma clean_paths_closed :
  forall paths results errors root,
    Cleaner.use_trash self = false ->
    fold_left (step false false) paths (results, errors, root)
    = (results,
       errors ++ map (fun p => (p, if os.path_exists h root p
                                   then "send2trash_not_available"
                                   else "NotFound")) paths,
       root).
Proof.
  intros paths; induction paths as [|p paths IH]; intros results errors root Hno;
    cbn [fold_left map].
  - rewrite app_nil_r; reflexivity.
  - unfold Cleaner.clean_path at 2; rewrite Hno.
    destruct (os.path_exists h root p); simpl;
      rewrite IH by exact Hno; rewrite <- app_assoc; reflexivity.
Qed.

(** A dry run only reports. *)
Lemma clean_paths_dry :
  forall force paths results errors root,
    fold_left (step true force) paths (results, errors, root)
    = (results ++ map (fun p => (p, if Cleaner.use_trash self then "trashed"
                                    else if force then "deleted"
                                         else "would_delete_but_no_trash"))
                    (filter (os.path_exists h root) paths),
       errors ++ map (fun p => (p, "NotFound"))
                   (filter (fun p => negb (os.path_exists h root p)) paths),
       root).
Proof.
  intros force paths; induction paths as [|p paths IH]; intros results errors root;
    cbn [fold_left map filter].
  - rewrite !app_nil_r; reflexivity.
  - unfold Cleaner.clean_path at 2.
    destruct (os.path_exists h root p); simpl;
      rewrite IH; rewrite <- app_assoc; reflexivity.
Qed.

End CleanerFacts.

(** C6. Disposal fails closed: with [dry_run=False], no trash mechanism and
    [force=False], [clean_paths] returns no result, leaves the file system as
    it was, and reports, in input order, ["send2trash_not_available"] for
    every path that exists (and ["NotFound"] for the others). *)
Theorem C6_disposal_fails_closed :
  forall (h : Host) (send2trash : option Cleaner.trash_fn) (self : Cleaner.obj)
         (root : node) (paths : list string),
    Cleaner.use_trash self = false ->
    Cleaner.clean_paths h send2trash self root paths false false
    = ([],
       map (fun p => (p, if os.path_exists h root p
                         then "send2trash_not_available"
                         else "NotFound")) paths,
       root).
Proof.
  intros h send2trash self root paths Hno.
  unfold Cleaner.clean_paths.
  rewrite clean_paths_closed by exact Hno.
  reflexivity.
Qed.

Lemma C6_disposal_fails_closed_witness :
  Cleaner.use_trash (Cleaner.__init__ None) = false
  /\ Cleaner.clean_paths Sample.host None (Cleaner.__init__ None) Sample.disk
       ["/tmp/app.tmp"; "/nope"; "/opt"] false false
     = ([],
        [("/tmp/app.tmp", "send2trash_not_available");
         ("/nope", "NotFound");
         ("/opt", "send2trash_not_available")],
        Sample.disk).
Proof.
  split; [reflexivity |].
  rewrite (C6_disposal_fails_closed Sample.host None (Cleaner.__init__ None) Sample.disk
             ["/tmp/app.tmp"; "/nope"; "/opt"] eq_refl).
  reflexivity.
Defined.

(** C7. A dry run changes nothing and reports the intended action: the file
    system after the call is the one before it, so every path that existed
    still exists; each existing path is reported, in input order, with
    ["trashed"] when a trash mechanism is in use, else ["deleted"] under
    [force], else ["would_delete_but_no_trash"]. *)
Theorem C7_dry_run_is_non_destructive :
  forall (h : Host) (send2trash : option Cleaner.trash_fn) (self : Cleaner.obj)
         (root : node) (paths : list string) (force : bool),
    let '(results, errors, root') :=
      Cleaner.clean_paths h send2trash self root paths true force in
    root' = root
    /\ (forall p, In p paths -> os.path_exists h root p = true ->
                  os.path_exists h root' p = true)
    /\ results
       = map (fun p => (p, if Cleaner.use_trash self then "trashed"
                           else if force then "deleted"
                                else "would_delete_but_no_trash"))
           (filter (os.path_exists h root) paths)
    /\ errors
       = map (fun p => (p, "NotFound"))
           (filter (fun p => negb (os.path_exists h root p)) paths).
Proof.
  intros h send2trash self root paths force.
  unfold Cleaner.clean_paths.
  rewrite clean_paths_dry; simpl.
  repeat split; auto.
Qed.

(** C10. [clean_paths] gives every input path exactly one outcome: the paths
    of [results] and the paths of [errors], each in input order, merge into
    the input list, whatever the flags and whatever fails on the way. *)
Theorem C10_every_path_gets_one_outcome :
  forall (h : Host) (send2trash : option Cleaner.trash_fn) (self : Cleaner.obj)
         (root : node) (paths : list string) (dry_run force : bool),
    let '(results, errors, _) :=
      Cleaner.clean_paths h send2trash self root paths dry_run force in
    interleave (map fst results) (map fst errors) paths
    /\ (List.length results + List.length errors = List.length paths)%nat.
Proof.
  intros h send2trash self root paths dry_run force.
  unfold Cleaner.clean_paths.
  pose proof (clean_paths_interleave h send2trash self dry_run force paths
                [] [] root [] interleave_nil) as H.
  destruct (fold_left (Cleaner.clean_path h send2trash self dry_run force) paths
              ([], [], root)) as [[results errors] root'].
  simpl in H. split; [exact H |].
  apply interleave_length in H.
  rewrite !length_map in H. lia.
Qed.

(* ------------------------------------------------------------------ *)
(** ** The classifier *)


Section ClassifierFacts.

Variable h : Host.
Variable self : Scanner.obj.

Lemma is_under_whitelist_spec :
  forall p,
    Scanner._is_under_whitelist h self p = true
    <-> under_whitelist (Scanner.whitelist_paths self) (os.path_abspath h p).
Proof.
  intros p; unfold Scanner._is_under_whitelist, under_whitelist.
  rewrite existsb_exists.
  split; intros (W & HW & Hc); exists W; split; auto.
  - apply orb_true_iff in Hc as [Hc | Hc]; [left; apply String.eqb_eq | right]; exact Hc.
  - apply orb_true_iff; destruct Hc as [Hc | Hc]; [left; apply String.eqb_eq | right]; exact Hc.
Qed.

Lemma classify_unreadable :
  forall w p age thr e,
    os.stat h (fs w) p = Raise e ->
    Scanner._classify_file h self w p age thr = (Ok (Some "skip"), w).
Proof.
  intros w p age thr e E; unfold Scanner._classify_file; rewrite E; reflexivity.
Qed.

Lemma classify_whitelisted :
  forall w p age thr st,
    os.stat h (fs w) p = Ok st ->
    Scanner._is_under_whitelist h self p = true ->
    Scanner._classify_file h self w p age thr = (Ok (Some "skipped"), w).
Proof.
  intros w p age thr st E Hwl; unfold Scanner._classify_file; rewrite E, Hwl; reflexivity.
Qed.


Lemma classify_old_enough :
  forall w p age thr st,
    os.stat h (fs w) p = Ok st ->
    Scanner._is_under_whitelist h self p = false ->
    old_enough h w st age ->
    fst (Scanner._classify_file h self w p age thr) = by_rules self p (st_size st) thr.
Proof.
  intros w p age thr st E Hwl Hold.
  unfold Scanner._classify_file; rewrite E, Hwl.
  assert (Hrecent :
            match age with
            | None => (false, w)
            | Some a => let '(now, w') := os.time h w in (now - st_mtime st <? a, w')
            end
            = (false, match age with None => w | Some _ => snd (os.time h w) end)).
  { destruct age as [a|]; [| reflexivity].
    unfold os.time; simpl. simpl in Hold.
    destruct (Z.ltb_spec (clock h (ticks w) - st_mtime st) a); [lia | reflexivity]. }
  rewrite Hrecent; unfold by_rules.
  repeat match goal with
         | |- context [if ?b then _ else _] => destruct b
         end; reflexivity.
Qed.

Lemma classify_recent :
  forall w p age thr st,
    os.stat h (fs w) p = Ok st ->
    Scanner._is_under_whitelist h self p = false ->
    clock h (ticks w) - st_mtime st < age ->
    fst (Scanner._classify_file h self w p (Some age) thr) = Ok None.
Proof.
  intros w p age thr st E Hwl Hlt.
  unfold Scanner._classify_file; rewrite E, Hwl.
  unfold os.time; simpl.
  destruct (Z.ltb_spec (clock h (ticks w) - st_mtime st) age); [reflexivity | lia].
Qed.

(** The classifier reads the file system and the clock; it writes nothing. *)
Lemma classify_keeps_fs :
  forall w p age thr,
    fs (snd (Scanner._classify_file h self w p age thr)) = fs w.
Proof.
  intros w p age thr; unfold Scanner._classify_file.
  destruct (os.stat h (fs w) p) as [st | e]; [| reflexivity].
  destruct (Scanner._is_under_whitelist h self p); [reflexivity |].
  destruct age as [age|]; unfold os.time; simpl;
    repeat match goal with
           | |- context [if ?b then _ else _] => destruct b
           end; reflexivity.
Qed.

(** When the path and the directories are of one kind, all absolute or all
    relative, [commonpath] does not raise and [any] is a plain disjunction. *)
Lemma commonpath_pair_same_kind :
  forall p d,
    posixpath.isabs d = posixpath.isabs p ->
    exists c, posixpath.commonpath [p; d] = Ok c.
Proof.
  intros p d Hd; unfold posixpath.commonpath.
  cbn [forallb]; rewrite Hd, Bool.eqb_reflx; cbn [andb].
  eexists; reflexivity.
Qed.

Lemma any_commonpath_same_kind :
  forall p dirs,
    (forall d, In d dirs -> posixpath.isabs d = posixpath.isabs p) ->
    Scanner.any_commonpath p dirs = Ok (inside_any p dirs).
Proof.
  intros p dirs; induction dirs as [|d dirs IH]; intros Hk.
  - reflexivity.
  - destruct (commonpath_pair_same_kind p d) as [c Hc];
      [apply Hk; left; reflexivity |].
    cbn [Scanner.any_commonpath inside_any existsb].
    unfold inside at 1; rewrite Hc; cbn [bind].
    destruct (String.eqb c d); cbn [orb].
    + reflexivity.
    + apply IH; intros d' Hin; apply Hk; right; exact Hin.
Qed.

End ClassifierFacts.

Ltac in_list := vm_compute; repeat (first [left; reflexivity | right]).

(** C1, as stated, fails: a path that is written below a whitelist entry but
    leaves it through [..] is compared after [os.path.abspath], and is
    classified by the ordinary rules. *)
Lemma C1_textual_prefix_is_not_enough :
  is_ok (os.stat Sample.host (fs Sample.w0) "/etc/../tmp/app.tmp") = true
  /\ under_whitelist (Scanner.whitelist_paths Sample.scanner) "/etc/../tmp/app.tmp"
  /\ fst (Scanner._classify_file Sample.host Sample.scanner Sample.w0
            "/etc/../tmp/app.tmp" (Some 86400) (Some 1024))
     = Ok (Some "junk")
  /\ fst (Scanner._classify_file Sample.host Sample.scanner Sample.w0
            "/etc/../tmp/app.tmp" (Some 86400) (Some 1024))
     <> Ok (Some "skipped").
Proof.
  split; [vm_compute; reflexivity |].
  split; [exists "/etc"; split; [in_list | right; vm_compute; reflexivity] |].
  split; [vm_compute; reflexivity | vm_compute; discriminate].
Qed.

(** C1, amended. Whitelist supremacy: for every path [P] with readable
    metadata, if the absolute, normalized form of [P] ([os.path.abspath])
    equals a whitelist entry [W] or starts with [W] and the separator, then
    [_classify_file] returns ["skipped"], whatever the thresholds, the
    extension, the age and the size; the call reads no clock. *)
Theorem C1_whitelist_supremacy :
  forall (h : Host) (self : Scanner.obj) (w : world) (P : string)
         (age_seconds size_threshold_bytes : option Z),
    is_ok (os.stat h (fs w) P) = true ->
    under_whitelist (Scanner.whitelist_paths self) (os.path_abspath h P) ->
    Scanner._classify_file h self w P age_seconds size_threshold_bytes
    = (Ok (Some "skipped"), w).
Proof.
  intros h self w P age thr Hstat Hwl.
  destruct (os.stat h (fs w) P) as [st | e] eqn:E; [| discriminate].
  apply classify_whitelisted with (st := st); [exact E |].
  apply is_under_whitelist_spec; exact Hwl.
Qed.

Lemma C1_whitelist_supremacy_witness :
  is_ok (os.stat Sample.host (fs Sample.w0) "/etc/old.log") = true
  /\ under_whitelist (Scanner.whitelist_paths Sample.scanner)
       (os.path_abspath Sample.host "/etc/old.log")
  /\ Scanner._classify_file Sample.host Sample.scanner Sample.w0 "/etc/old.log"
       (Some 86400) (Some 1024)
     = (Ok (Some "skipped"), Sample.w0).
Proof.
  assert (H1 : is_ok (os.stat Sample.host (fs Sample.w0) "/etc/old.log") = true)
    by (vm_compute; reflexivity).
  assert (H2 : under_whitelist (Scanner.whitelist_paths Sample.scanner)
                 (os.path_abspath Sample.host "/etc/old.log"))
    by (exists "/etc"; split; [in_list | right; vm_compute; reflexivity]).
  split; [exact H1 | split; [exact H2 |]].
  exact (C1_whitelist_supremacy Sample.host Sample.scanner Sample.w0 "/etc/old.log"
           (Some 86400) (Some 1024) H1 H2).
Defined.

(** For a path that is already absolute and normalized the test is the one
    on the path as written. *)
Lemma whitelist_supremacy_normalized :
  forall (h : Host) (self : Scanner.obj) (w : world) (P : string)
         (age_seconds size_threshold_bytes : option Z),
    os.path_abspath h P = P ->
    is_ok (os.stat h (fs w) P) = true ->
    under_whitelist (Scanner.whitelist_paths self) P ->
    Scanner._classify_file h self w P age_seconds size_threshold_bytes
    = (Ok (Some "skipped"), w).
Proof.
  intros h self w P age thr Hnorm Hstat Hwl.
  destruct (os.stat h (fs w) P) as [st | e] eqn:E; [| discriminate].
  apply classify_whitelisted with (st := st); [exact E |].
  apply is_under_whitelist_spec; rewrite Hnorm; exact Hwl.
Qed.

(** C4. A file whose metadata cannot be read is classified without an
    exception, but as ["skip"], which is none of the five categories: the
    dangling link [/tmp/gone] ends in a sixth list of the report, not in
    ["skipped"]. *)
Theorem C4_unreadable_metadata_is_skip :
  is_ok (os.stat Sample.host (fs Sample.w0) "/tmp/gone") = false
  /\ Scanner._classify_file Sample.host Sample.scanner Sample.w0 "/tmp/gone"
       (Some 86400) (Some 1024)
     = (Ok (Some "skip"), Sample.w0)
  /\ ~ In "skip" categories
  /\ (let report :=
        fst (fst (Scanner.scan_all Sample.host Sample.scanner Sample.w0
                    (Some 86400) (Some 1024) false true [] None true)) in
      dict.get (Scanner.lists report) "skip" = Some ["/tmp/gone"]
      /\ dict.get (Scanner.lists report) "skipped" = Some []
      /\ dict.get (Scanner.counts report) "skip" = Some 1).
Proof.
  split; [vm_compute; reflexivity |].
  split; [vm_compute; reflexivity |].
  split; [intros H; simpl in H; repeat (destruct H as [H | H]; [discriminate |]); exact H |].
  vm_compute; repeat split; reflexivity.
Qed.

(** Unreadable metadata never makes the classifier raise. *)
Lemma classify_unreadable_never_raises :
  forall (h : Host) (self : Scanner.obj) (w : world) (p : string)
         (age_seconds size_threshold_bytes : option Z),
    is_ok (os.stat h (fs w) p) = false ->
    Scanner._classify_file h self w p age_seconds size_threshold_bytes
    = (Ok (Some "skip"), w).
Proof.
  intros h self w p age thr Hstat.
  destruct (os.stat h (fs w) p) as [st | e] eqn:E; [discriminate |].
  apply classify_unreadable with (e := e); exact E.
Qed.

(** The dangerous set that [__init__] installs. *)
Lemma init_dangerous_extensions :
  forall (h : Host) (root : node) (extra : list string),
    Scanner.potentially_dangerous_extensions (Scanner.__init__ h root extra)
    = [".exe"; ".msi"; ".bat"; ".cmd"; ".ps1"; ".vbs"; ".scr"; ".jar"; ".apk";
       ".dmg"; ".pkg"].
Proof. reflexivity. Qed.

(** Dangerous-extension rule, where the location test is defined: for a
    file that is not whitelisted, has readable metadata, is not younger than
    the age threshold and whose lower-cased extension is in the dangerous
    set, if its path and the download and temp directories are of one kind
    (all absolute, as the default directories are, or all relative),
    [_classify_file] returns ["harmful"] inside a download or temp directory
    and ["skipped"] elsewhere. *)
Lemma dangerous_extension_rule :
  forall (h : Host) (self : Scanner.obj) (w : world) (p : string)
         (age_seconds size_threshold_bytes : option Z) (st : stat_result),
    os.stat h (fs w) p = Ok st ->
    Scanner._is_under_whitelist h self p = false ->
    old_enough h w st age_seconds ->
    str.mem (str.lower (pathlib.suffix p))
      (Scanner.potentially_dangerous_extensions self) = true ->
    (forall d, In d (Scanner.download_dirs self ++ Scanner.temp_dirs self) ->
               posixpath.isabs d = posixpath.isabs p) ->
    fst (Scanner._classify_file h self w p age_seconds size_threshold_bytes)
    = Ok (Some (if inside_any p (Scanner.download_dirs self ++ Scanner.temp_dirs self)
                then "harmful" else "skipped")).
Proof.
  intros h self w p age thr st Hstat Hwl Hold Hext Hkind.
  rewrite (classify_old_enough h self w p age thr st Hstat Hwl Hold).
  unfold by_rules; rewrite Hext.
  rewrite (any_commonpath_same_kind p _ Hkind); cbn [bind].
  destruct (inside_any p _); reflexivity.
Qed.

Ltac same_kind :=
  let d := fresh "d" in
  let H := fresh "H" in
  intros d H; vm_compute in H;
  repeat (destruct H as [H | H]; [subst d; reflexivity |]);
  contradiction.

(** The scenario of the specification: [~/Downloads/setup.exe], ten days old,
    is ["harmful"]; the same file at [/opt/tools/setup.exe] is ["skipped"]. *)
Lemma dangerous_extension_scenario :
  fst (Scanner._classify_file Sample.host Sample.scanner Sample.w0
         "/home/user/Downloads/setup.exe" (Some 86400) (Some 1024))
  = Ok (Some "harmful")
  /\ fst (Scanner._classify_file Sample.host Sample.scanner Sample.w0
            "/opt/tools/setup.exe" (Some 86400) (Some 1024))
     = Ok (Some "skipped").
Proof.
  split.
  - refine (dangerous_extension_rule Sample.host Sample.scanner Sample.w0
              "/home/user/Downloads/setup.exe" (Some 86400) (Some 1024)
              {| st_mtime := Sample.t0 - 10 * 86400; st_size := 5 * Sample.MiB |}
              _ _ _ _ _).
    + vm_compute; reflexivity.
    + vm_compute; reflexivity.
    + vm_compute; discriminate.
    + vm_compute; reflexivity.
    + same_kind.
  - refine (dangerous_extension_rule Sample.host Sample.scanner Sample.w0
              "/opt/tools/setup.exe" (Some 86400) (Some 1024)
              {| st_mtime := Sample.t0 - 10 * 86400; st_size := 5 * Sample.MiB |}
              _ _ _ _ _).
    + vm_compute; reflexivity.
    + vm_compute; reflexivity.
    + vm_compute; discriminate.
    + vm_compute; reflexivity.
    + same_kind.
Qed.

(** C8. The dangerous-extension rule says ["harmful"] for an old,
    non-whitelisted file with a dangerous extension inside a download or temp
    directory. The code misses the case of a scanner directory given as a
    relative path: [rel/setup.exe] is such a file, inside the temp directory
    [rel], but the comparison with the absolute download directory raises
    [ValueError], [_classify_file] returns nothing, and the walker files the
    path under ["skipped"]; the ["harmful"] list stays empty. *)
Theorem C8_relative_directory_raises :
  is_ok (os.stat Sample.host (fs Sample.w0) "rel/setup.exe") = true
  /\ Scanner._is_under_whitelist Sample.host Sample.scanner_rel "rel/setup.exe" = false
  /\ old_enough Sample.host Sample.w0
       {| st_mtime := Sample.t0 - 10 * 86400; st_size := 5 * Sample.MiB |} (Some 86400)
  /\ str.mem (str.lower (pathlib.suffix "rel/setup.exe"))
       (Scanner.potentially_dangerous_extensions Sample.scanner_rel) = true
  /\ In "rel" (Scanner.temp_dirs Sample.scanner_rel)
  /\ inside "rel/setup.exe" "rel" = true
  /\ fst (Scanner._classify_file Sample.host Sample.scanner_rel Sample.w0
            "rel/setup.exe" (Some 86400) (Some 1024))
     = Raise (ValueError "Can't mix absolute and relative paths")
  /\ (let report :=
        fst (fst (Scanner.scan_all Sample.host Sample.scanner_rel Sample.w0
                    (Some 86400) (Some 1024) false true [] None true)) in
      dict.get (Scanner.lists report) "harmful" = Some []
      /\ dict.get (Scanner.lists report) "skipped"
         = Some ["rel/setup.exe"; "rel/big.iso"]).
Proof.
  split; [vm_compute; reflexivity |].
  split; [vm_compute; reflexivity |].
  split; [vm_compute; discriminate |].
  split; [vm_compute; reflexivity |].
  split; [in_list |].
  split; [vm_compute; reflexivity |].
  split; [vm_compute; reflexivity |].
  vm_compute; split; reflexivity.
Qed.

(** ** Plain paths and the location test *)

Lemma append_assoc :
  forall a b c : string, ((a ++ b) ++ c = a ++ (b ++ c))%string.
Proof.
  induction a as [|x a IH]; intros b c; cbn; [reflexivity | rewrite IH; reflexivity].
Qed.

Lemma append_nil_r : forall a : string, (a ++ "")%string = a.
Proof.
  induction a as [|x a IH]; cbn; [reflexivity | rewrite IH; reflexivity].
Qed.

Lemma prefix_app : forall a b : string, String.prefix a (a ++ b) = true.
Proof.
  induction a as [|x a IH]; intros b; cbn.
  - destruct b; reflexivity.
  - destruct (Ascii.ascii_dec x x); [apply IH | congruence].
Qed.

Lemma prefix_inv :
  forall a b : string, String.prefix a b = true -> exists r, b = (a ++ r)%string.
Proof.
  induction a as [|x a IH]; intros b H.
  - exists b; reflexivity.
  - destruct b as [|y b]; cbn in H; [discriminate |].
    destruct (Ascii.ascii_dec x y) as [<- | _]; [| discriminate].
    destruct (IH b H) as [r ->]; exists r; reflexivity.
Qed.

Lemma split_cons_sep :
  forall s, str.split posixpath.sep_char (String "/" s)
            = "" :: str.split posixpath.sep_char s.
Proof. intros s; reflexivity. Qed.

Lemma split_not_nil : forall c s, str.split c s <> [].
Proof.
  intros c s; induction s as [|x s IH]; cbn [str.split]; [discriminate |].
  destruct (Ascii.eqb x c); [discriminate |].
  destruct (str.split c s); discriminate.
Qed.

Lemma split_app_sep :
  forall c a b,
    str.split c (a ++ String c b) = str.split c a ++ str.split c b.
Proof.
  intros c a b; induction a as [|x a IH]; cbn [String.append str.split].
  - rewrite Ascii.eqb_refl; reflexivity.
  - rewrite IH. destruct (Ascii.eqb x c); [reflexivity |].
    destruct (str.split c a) as [|y l] eqn:E; [exfalso; exact (split_not_nil c a E) |].
    reflexivity.
Qed.

Lemma split_app_sep' :
  forall a b,
    str.split posixpath.sep_char (a ++ posixpath.sep ++ b)
    = str.split posixpath.sep_char a ++ str.split posixpath.sep_char b.
Proof. exact (split_app_sep "/"). Qed.

(** Every component that [split] yields is free of the separator. *)
Lemma split_components :
  forall c s x, In x (str.split c s) -> str.split c x = [x].
Proof.
  intros c s; induction s as [|a s IH]; intros x; cbn [str.split].
  - intros [<- | []]; reflexivity.
  - destruct (Ascii.eqb a c) eqn:E.
    + intros [<- | Hin]; [reflexivity | apply IH; exact Hin].
    + destruct (str.split c s) as [|y l] eqn:S; [exfalso; exact (split_not_nil c s S) |].
      intros [<- | Hin].
      * cbn [str.split]; rewrite E, (IH y (or_introl eq_refl)); reflexivity.
      * apply IH; right; exact Hin.
Qed.

Lemma join_split :
  forall s, str.join posixpath.sep (str.split posixpath.sep_char s) = s.
Proof.
  unfold str.join, posixpath.sep, posixpath.sep_char.
  induction s as [|a s IH]; cbn [str.split]; [reflexivity |].
  destruct (Ascii.eqb a "/") eqn:E.
  - apply Ascii.eqb_eq in E; subst a.
    destruct (str.split "/" s) as [|y l] eqn:S; [exfalso; exact (split_not_nil _ s S) |].
    cbn [String.concat] in *. rewrite IH; reflexivity.
  - destruct (str.split "/" s) as [|y l] eqn:S; [exfalso; exact (split_not_nil _ s S) |].
    destruct l as [|z l]; cbn [String.concat String.append] in *; rewrite IH; reflexivity.
Qed.

Lemma join_cons :
  forall x y l,
    str.join posixpath.sep (x :: y :: l)
    = (x ++ String "/" (str.join posixpath.sep (y :: l)))%string.
Proof. intros; reflexivity. Qed.

Lemma split_join :
  forall l,
    l <> [] ->
    (forall x, In x l -> str.split posixpath.sep_char x = [x]) ->
    str.split posixpath.sep_char (str.join posixpath.sep l) = l.
Proof.
  unfold posixpath.sep_char.
  induction l as [|x l IH]; intros Hne Hx; [contradiction |].
  destruct l as [|y l].
  - cbn. apply Hx; left; reflexivity.
  - rewrite join_cons, split_app_sep, (Hx x (or_introl eq_refl)), IH;
      [reflexivity | discriminate | intros z Hz; apply Hx; right; exact Hz].
Qed.

Lemma join_app :
  forall a b,
    a <> [] -> b <> [] ->
    str.join posixpath.sep (a ++ b)
    = (str.join posixpath.sep a ++ String "/" (str.join posixpath.sep b))%string.
Proof.
  induction a as [|x a IH]; intros b Ha Hb; [contradiction |].
  destruct a as [|y a].
  - destruct b as [|z b]; [contradiction | reflexivity].
  - change ((x :: y :: a) ++ b) with (x :: (y :: a) ++ b).
    cbn [app]. rewrite !join_cons. cbn [app] in IH.
    rewrite (IH b); [| discriminate | exact Hb].
    rewrite append_assoc; reflexivity.
Qed.

Lemma is_name_keep : forall c, is_name c = true -> posixpath.keep_comp c = true.
Proof.
  intros c; unfold is_name, posixpath.keep_comp.
  destruct (String.eqb c ""), (String.eqb c "."); cbn; congruence.
Qed.

Lemma filter_names :
  forall l, forallb is_name l = true -> filter posixpath.keep_comp l = l.
Proof.
  induction l as [|x l IH]; cbn [forallb filter]; [reflexivity |].
  intros H; apply andb_prop in H as [Hx Hl].
  rewrite (is_name_keep x Hx), (IH Hl); reflexivity.
Qed.

Lemma isabs_split :
  forall s,
    posixpath.isabs s
    = match str.split posixpath.sep_char s with
      | EmptyString :: _ :: _ => true
      | _ => false
      end.
Proof.
  intros [|a s]; [reflexivity |].
  unfold posixpath.isabs, str.startswith, posixpath.sep, posixpath.sep_char.
  cbn [String.prefix str.split].
  destruct (Ascii.ascii_dec "/" a) as [<- | Hne].
  - cbn. destruct (str.split "/" s) as [|y l] eqn:S;
      [exfalso; exact (split_not_nil _ s S) |]. destruct s; reflexivity.
  - destruct (Ascii.eqb a "/") eqn:E;
      [apply Ascii.eqb_eq in E; congruence |].
    destruct (str.split "/" s) as [|y l]; reflexivity.
Qed.

(** What [plain] says of a path: it is its names, joined, after the leading
    separator of an absolute path; a relative path has a name. *)
Lemma plain_spec :
  forall s,
    plain s = true ->
    forallb is_name (names_of s) = true
    /\ s = (lead s ++ str.join posixpath.sep (names_of s))%string
    /\ (forall x, In x (names_of s) -> str.split posixpath.sep_char x = [x])
    /\ (posixpath.isabs s = false -> names_of s <> []).
Proof.
  intros s Hp.
  assert (Hcomp : forall x, In x (names_of s) -> str.split posixpath.sep_char x = [x]).
  { intros x Hin; apply filter_In in Hin as [Hin _].
    exact (split_components _ s x Hin). }
  pose proof (join_split s) as Hjoin.
  pose proof (isabs_split s) as Habs.
  unfold plain, names_of, lead in *.
  destruct (str.split posixpath.sep_char s) as [|c rest] eqn:S;
    [exfalso; exact (split_not_nil _ s S) |].
  destruct c as [|a c].
  - apply orb_prop in Hp as [Hroot | Hp].
    + apply String.eqb_eq in Hroot; subst s.
      injection S as <-. cbn.
      split; [reflexivity | split; [reflexivity | split; [intros x [] | intros; discriminate]]].
    + apply andb_prop in Hp as [Hn Hlen].
      destruct rest as [|y rest]; [discriminate |].
      assert (Hf : filter posixpath.keep_comp ("" :: y :: rest) = y :: rest)
        by (change (filter posixpath.keep_comp ("" :: y :: rest))
              with (filter posixpath.keep_comp (y :: rest));
            apply filter_names; exact Hn).
      rewrite Habs, Hf. rewrite Hf in Hcomp.
      split; [exact Hn | split; [| split; [exact Hcomp | intros; discriminate]]].
      rewrite <- Hjoin at 1; reflexivity.
  - rewrite Habs. rewrite (filter_names _ Hp). rewrite (filter_names _ Hp) in Hcomp.
    split; [exact Hp | split; [| split; [exact Hcomp | intros _; discriminate]]].
    cbn [String.append]. symmetry; exact Hjoin.
Qed.

Lemma list_compare_eq :
  forall a b, posixpath.list_compare a b = Eq -> a = b.
Proof.
  induction a as [|x a IH]; intros [|y b]; cbn [posixpath.list_compare]; try discriminate.
  - reflexivity.
  - destruct (String.compare x y) eqn:C; try discriminate.
    apply String.compare_eq_iff in C; subst y.
    intros H; rewrite (IH b H); reflexivity.
Qed.

Lemma common_prefix_sym :
  forall a b, posixpath.common_prefix a b = posixpath.common_prefix b a.
Proof.
  induction a as [|x a IH]; intros [|y b]; cbn [posixpath.common_prefix]; try reflexivity.
  rewrite (String.eqb_sym x y).
  destruct (String.eqb y x) eqn:E; [| reflexivity].
  apply String.eqb_eq in E; subst y; rewrite IH; reflexivity.
Qed.

Lemma common_prefix_min_max :
  forall a b,
    posixpath.common_prefix (posixpath.list_min a b) (posixpath.list_max a b)
    = posixpath.common_prefix a b.
Proof.
  intros a b; unfold posixpath.list_min, posixpath.list_max.
  destruct (posixpath.list_compare b a) eqn:C.
  - apply list_compare_eq in C; subst b; reflexivity.
  - apply common_prefix_sym.
  - reflexivity.
Qed.

Lemma list_min_same : forall a, posixpath.list_min a a = a.
Proof. intros a; unfold posixpath.list_min; destruct (posixpath.list_compare a a); reflexivity. Qed.

Lemma list_max_same : forall a, posixpath.list_max a a = a.
Proof. intros a; unfold posixpath.list_max; destruct (posixpath.list_compare a a); reflexivity. Qed.

(** [commonpath] of two paths of one kind: the common leading names. *)
Lemma commonpath_pair :
  forall p d,
    posixpath.isabs d = posixpath.isabs p ->
    posixpath.commonpath [p; d]
    = Ok (lead p ++ str.join posixpath.sep
                      (posixpath.common_prefix (names_of p) (names_of d)))%string.
Proof.
  intros p d Hk; unfold posixpath.commonpath, lead, names_of.
  cbn [forallb map fold_left]; rewrite Hk, Bool.eqb_reflx; cbn [andb].
  rewrite list_min_same, list_max_same, common_prefix_min_max; reflexivity.
Qed.

Lemma common_prefix_is_prefix :
  forall a b, posixpath.common_prefix a b = b <-> exists r, a = b ++ r.
Proof.
  induction a as [|x a IH]; intros [|y b]; cbn [posixpath.common_prefix].
  - split; [exists []; reflexivity | reflexivity].
  - split; [discriminate | intros [r Hr]; discriminate].
  - split; [intros _; exists (x :: a); reflexivity | reflexivity].
  - destruct (String.eqb x y) eqn:E.
    + apply String.eqb_eq in E; subst y. split.
      * intros H; injection H as H. apply IH in H as [r ->]. exists r; reflexivity.
      * intros [r Hr]; injection Hr as Hr. f_equal. apply IH; exists r; exact Hr.
    + split; [discriminate |].
      intros [r Hr]; injection Hr as -> _. rewrite String.eqb_refl in E; discriminate.
Qed.

Lemma common_prefix_names :
  forall a b x, In x (posixpath.common_prefix a b) -> In x b.
Proof.
  induction a as [|y a IH]; intros [|z b] x; cbn [posixpath.common_prefix]; try contradiction.
  destruct (String.eqb y z) eqn:E; [| contradiction].
  apply String.eqb_eq in E; subst z.
  intros [<- | Hin]; [left; reflexivity | right; exact (IH b x Hin)].
Qed.

Lemma join_names_inj :
  forall a b,
    (forall x, In x a -> str.split posixpath.sep_char x = [x] /\ x <> "") ->
    (forall x, In x b -> str.split posixpath.sep_char x = [x] /\ x <> "") ->
    str.join posixpath.sep a = str.join posixpath.sep b -> a = b.
Proof.
  assert (Hnil : forall l,
             (forall x, In x l -> str.split posixpath.sep_char x = [x] /\ x <> "") ->
             str.join posixpath.sep l = "" -> l = []).
  { intros [|x l] Hl H; [reflexivity | exfalso].
    destruct (Hl x (or_introl eq_refl)) as [_ Hx].
    destruct l as [|y l]; cbn in H; [contradiction |].
    destruct x; [contradiction | discriminate]. }
  intros a b Ha Hb H.
  destruct a as [|x a].
  - symmetry; apply Hnil; [exact Hb | symmetry; exact H].
  - destruct b as [|y b].
    + apply Hnil; [exact Ha | exact H].
    + rewrite <- (split_join (x :: a)), <- (split_join (y :: b)), H;
        [reflexivity | discriminate | intros z Hz; apply Hb; exact Hz
        | discriminate | intros z Hz; apply Ha; exact Hz].
Qed.

Lemma name_not_empty : forall c, is_name c = true -> c <> "".
Proof. intros c H ->; discriminate. Qed.

Lemma forallb_In :
  forall (A : Type) (f : A -> bool) l x, forallb f l = true -> In x l -> f x = true.
Proof. intros A f l x H Hin; rewrite forallb_forall in H; exact (H x Hin). Qed.

Lemma append_cancel_l :
  forall a x y : string, (a ++ x = a ++ y)%string -> x = y.
Proof.
  induction a as [|c a IH]; intros x y H; [exact H |].
  injection H as H; exact (IH x y H).
Qed.

(** The textual test on two paths given by their names. *)
Lemma lies_in_names :
  forall pre np nd,
    name_list np -> name_list nd ->
    pre = "/" \/ (pre = "" /\ nd <> []) ->
    lies_in (pre ++ str.join posixpath.sep np) (pre ++ str.join posixpath.sep nd) = true
    <-> exists r, np = nd ++ r.
Proof.
  intros pre np nd Hnp Hnd Hpre.
  assert (Hsplit : forall l, name_list l -> l <> [] ->
                     str.split posixpath.sep_char (str.join posixpath.sep l) = l).
  { intros l Hl Hne; apply split_join; [exact Hne | intros x Hx; apply Hl; exact Hx]. }
  assert (Hroot : String.eqb (pre ++ str.join posixpath.sep nd) "/" = true
                  <-> pre = "/" /\ nd = []).
  { rewrite String.eqb_eq. split.
    - destruct Hpre as [-> | [-> Hne]].
      + intros H; injection H as H. split; [reflexivity |].
        destruct nd as [|y nd]; [reflexivity | exfalso].
        destruct (Hnd y (or_introl eq_refl)) as [_ Hy].
        destruct nd as [|z nd]; cbn in H; destruct y; try discriminate; contradiction.
      + cbn [String.append]. intros H; exfalso.
        pose proof (Hsplit nd Hnd Hne) as Hs. rewrite H in Hs.
        destruct (Hnd "" ) as [_ Hbad]; [rewrite <- Hs; left; reflexivity | contradiction].
    - intros [-> ->]; reflexivity. }
  unfold lies_in. rewrite orb_true_iff, String.eqb_eq. split.
  - intros [Heq | Hstart].
    + apply append_cancel_l, join_names_inj in Heq; [| exact Hnp | exact Hnd].
      exists []; rewrite app_nil_r; exact Heq.
    + destruct (String.eqb (pre ++ str.join posixpath.sep nd) "/") eqn:R.
      * destruct (proj1 Hroot eq_refl) as [_ ->]. exists np; reflexivity.
      * destruct nd as [|y nd].
        { exfalso. destruct Hpre as [-> | [_ Hne]]; [discriminate | contradiction]. }
        apply prefix_inv in Hstart as [rest Hrest].
        rewrite !append_assoc in Hrest. apply append_cancel_l in Hrest.
        assert (Hne : np <> []).
        { intros ->. cbn in Hrest. destruct nd; cbn in Hrest; destruct y; discriminate. }
        exists (str.split posixpath.sep_char rest).
        rewrite <- (Hsplit np Hnp Hne), Hrest, split_app_sep'.
        rewrite (Hsplit (y :: nd) Hnd); [reflexivity | discriminate].
  - intros [r ->]. destruct r as [|z r].
    + left; rewrite app_nil_r; reflexivity.
    + right. destruct (String.eqb (pre ++ str.join posixpath.sep nd) "/") eqn:R.
      * destruct (proj1 Hroot eq_refl) as [-> ->]. exact (prefix_app "/" _).
      * destruct nd as [|y nd].
        { exfalso. destruct Hpre as [-> | [_ Hne]]; [discriminate | contradiction]. }
        rewrite join_app by discriminate.
        unfold str.startswith, posixpath.sep.
        set (J := str.join "/" (y :: nd)). set (X := str.join "/" (z :: r)).
        replace (pre ++ J ++ String "/" X)%string with (((pre ++ J) ++ "/") ++ X)%string
          by (rewrite !append_assoc; reflexivity).
        apply prefix_app.
Qed.

(** On plain paths of one kind the test of the source,
    [os.path.commonpath([P, D]) == D], says that [P] is [D] or is written
    below it. *)
Lemma inside_plain :
  forall p d,
    plain p = true -> plain d = true ->
    posixpath.isabs d = posixpath.isabs p ->
    inside p d = lies_in p d.
Proof.
  intros p d Hp Hd Hk.
  destruct (plain_spec p Hp) as (Hnp & Ep & Sp & Rp).
  destruct (plain_spec d Hd) as (Hnd & Ed & Sd & Rd).
  assert (Hlead : lead d = lead p) by (unfold lead; rewrite Hk; reflexivity).
  rewrite Hlead in Ed.
  assert (Lp : name_list (names_of p)).
  { intros x Hin; split; [apply Sp; auto |].
    apply name_not_empty, (forallb_In _ _ _ x Hnp); auto. }
  assert (Ld : name_list (names_of d)).
  { intros x Hin; split; [apply Sd; auto |].
    apply name_not_empty, (forallb_In _ _ _ x Hnd); auto. }
  assert (Hpre : lead p = "/" \/ (lead p = "" /\ names_of d <> [])).
  { unfold lead. destruct (posixpath.isabs p) eqn:Ap; [left; reflexivity | right].
    split; [reflexivity | apply Rd; rewrite Hk; reflexivity]. }
  pose proof (commonpath_pair p d Hk) as Hc.
  assert (Hin : inside p d = true <-> exists r, names_of p = names_of d ++ r).
  { unfold inside; rewrite Hc.
    rewrite <- common_prefix_is_prefix, String.eqb_eq.
    set (cp := posixpath.common_prefix (names_of p) (names_of d)).
    split.
    - intros H. rewrite Ed in H.
      apply append_cancel_l, join_names_inj in H; [exact H | | exact Ld].
      intros x Hx; apply Ld; exact (common_prefix_names _ _ x Hx).
    - intros ->. symmetry; exact Ed. }
  assert (Hlies : lies_in p d = true <-> exists r, names_of p = names_of d ++ r).
  { rewrite <- (lies_in_names (lead p) (names_of p) (names_of d) Lp Ld Hpre).
    rewrite <- Ep, <- Ed; reflexivity. }
  apply Bool.eq_true_iff_eq; rewrite Hin, Hlies; reflexivity.
Qed.

Lemma inside_any_plain :
  forall p dirs,
    plain p = true ->
    (forall d, In d dirs -> plain d = true /\ posixpath.isabs d = posixpath.isabs p) ->
    inside_any p dirs = lies_in_any p dirs.
Proof.
  intros p dirs Hp; induction dirs as [|d dirs IH]; intros Hd; [reflexivity |].
  cbn [inside_any lies_in_any existsb].
  destruct (Hd d (or_introl eq_refl)) as [Hpd Hk].
  rewrite (inside_plain p d Hp Hpd Hk). f_equal.
  apply IH; intros d' Hin; apply Hd; right; exact Hin.
Qed.

(** C9, as stated, fails. A threshold of [0] is an integer the interface
    accepts, yet the source reads it as "not set": the 30 MiB [/tmp/big.iso]
    gets no category, while a threshold of [1] makes it ["large"]. (With a
    relative directory the location test raises, as for the dangerous
    extensions.) *)
Lemma C9_zero_threshold_is_unset :
  is_ok (os.stat Sample.host (fs Sample.w0) "/tmp/big.iso") = true
  /\ Scanner._is_under_whitelist Sample.host Sample.scanner "/tmp/big.iso" = false
  /\ os.path_getsize Sample.host (fs Sample.w0) "/tmp/big.iso" = Ok (30 * 1024 * 1024)
  /\ Z.max 0 (20 * 1024 * 1024) <= 30 * 1024 * 1024
  /\ inside_any "/tmp/big.iso"
       (Scanner.download_dirs Sample.scanner ++ Scanner.temp_dirs Sample.scanner) = true
  /\ fst (Scanner._classify_file Sample.host Sample.scanner Sample.w0
            "/tmp/big.iso" (Some 86400) (Some 0))
     = Ok None
  /\ fst (Scanner._classify_file Sample.host Sample.scanner Sample.w0
            "/tmp/big.iso" (Some 86400) (Some 1))
     = Ok (Some "large")
  /\ inside "rel/big.iso" "rel" = true
  /\ fst (Scanner._classify_file Sample.host Sample.scanner_rel Sample.w0
            "rel/big.iso" (Some 86400) (Some 1024))
     = Raise (ValueError "Can't mix absolute and relative paths").
Proof.
  repeat split; try (vm_compute; reflexivity).
  vm_compute; discriminate.
Qed.

(** The location test is textual. [commonpath] answers a path without a
    trailing separator, so a directory configured as [/data/] holds none of
    its files for this test; and it does not read [..], so a path through
    [/tmp/..] counts as written below [/tmp]. *)
Lemma location_test_is_textual :
  inside "/data/big.iso" "/data" = true
  /\ inside "/data/big.iso" "/data/" = false
  /\ inside "/tmp/../data/big.iso" "/tmp" = true.
Proof. repeat split; vm_compute; reflexivity. Qed.

(** C9, amended. Large-file fallback, on a host other than Windows: for
    every file that is not whitelisted, is old enough and whose extension is
    ASCII and in none of the three sets, with the path and the configured
    directories written in plain form (names separated by single
    separators, no ["."], [".."] or empty name, no trailing separator) and
    all absolute or all relative: when [size_threshold_bytes] is a non-zero
    integer and the size is at least [max(size_threshold_bytes, 20 MiB)],
    [_classify_file] returns ["large"] when the path is a download or temp
    directory or starts with one followed by the separator, else ["junk"]
    when it is or starts so with a browser-cache directory, else no
    category; when [size_threshold_bytes] is [None] or [0] it returns no
    category. *)
Theorem C9_large_file_fallback :
  forall (h : Host) (self : Scanner.obj) (w : world) (p : string)
         (age_seconds size_threshold_bytes : option Z) (st : stat_result),
    platform_system h <> "Windows" ->
    os.stat h (fs w) p = Ok st ->
    Scanner._is_under_whitelist h self p = false ->
    old_enough h w st age_seconds ->
    str.isascii (pathlib.suffix p) = true ->
    str.mem (str.lower (pathlib.suffix p))
      (Scanner.potentially_dangerous_extensions self) = false ->
    str.mem (str.lower (pathlib.suffix p))
      (Scanner.suspicious_script_extensions self) = false ->
    str.mem (str.lower (pathlib.suffix p)) (Scanner.junk_extensions self) = false ->
    plain p = true ->
    (forall d, In d (Scanner.download_dirs self ++ Scanner.temp_dirs self
                     ++ Scanner.browser_cache_dirs self) ->
               plain d = true /\ posixpath.isabs d = posixpath.isabs p) ->
    (forall t, size_threshold_bytes = Some t -> t <> 0 ->
               Z.max t (20 * 1024 * 1024) <= st_size st ->
               fst (Scanner._classify_file h self w p age_seconds size_threshold_bytes)
               = Ok (if lies_in_any p (Scanner.download_dirs self ++ Scanner.temp_dirs self)
                     then Some "large"
                     else if lies_in_any p (Scanner.browser_cache_dirs self)
                          then Some "junk" else None))
    /\ (size_threshold_bytes = None \/ size_threshold_bytes = Some 0 ->
        fst (Scanner._classify_file h self w p age_seconds size_threshold_bytes) = Ok None).
Proof.
  intros h self w p age thr st _ Hstat Hwl Hold _ Hd Hs Hj Hplain Hdirs.
  rewrite (classify_old_enough h self w p age thr st Hstat Hwl Hold).
  unfold by_rules; rewrite Hd, Hs, Hj.
  assert (Hplaces : forall d, In d (Scanner.download_dirs self ++ Scanner.temp_dirs self) ->
                              plain d = true /\ posixpath.isabs d = posixpath.isabs p)
    by (intros d Hin; apply Hdirs; rewrite app_assoc; apply in_or_app; left; exact Hin).
  assert (Hcache : forall d, In d (Scanner.browser_cache_dirs self) ->
                             plain d = true /\ posixpath.isabs d = posixpath.isabs p)
    by (intros d Hin; apply Hdirs; rewrite app_assoc; apply in_or_app; right; exact Hin).
  split.
  - intros t -> Ht Hsize.
    assert (Htruthy : truthy (Some t) = true)
      by (unfold truthy; destruct (Z.eqb_spec t 0); [contradiction | reflexivity]).
    rewrite Htruthy; cbn [andb int_of].
    destruct (Z.geb_spec (st_size st) (Z.max t (20 * 1024 * 1024))) as [_ | Hlt]; [| lia].
    rewrite any_commonpath_same_kind by (intros d Hin; apply Hplaces; exact Hin).
    rewrite (inside_any_plain p _ Hplain Hplaces).
    cbn [bind].
    destruct (lies_in_any p (Scanner.download_dirs self ++ Scanner.temp_dirs self));
      [reflexivity |].
    rewrite any_commonpath_same_kind by (intros d Hin; apply Hcache; exact Hin).
    rewrite (inside_any_plain p _ Hplain Hcache).
    cbn [bind].
    destruct (lies_in_any p (Scanner.browser_cache_dirs self)); reflexivity.
  - intros [-> | ->]; reflexivity.
Qed.

Ltac plain_dirs :=
  let d := fresh "d" in
  let H := fresh "H" in
  intros d H; vm_compute in H;
  repeat (destruct H as [H | H]; [subst d; split; reflexivity |]);
  contradiction.

Lemma C9_large_file_fallback_witness :
  fst (Scanner._classify_file Sample.host Sample.scanner Sample.w0
         "/tmp/big.iso" (Some 86400) (Some 1024))
  = Ok (Some "large")
  /\ fst (Scanner._classify_file Sample.host Sample.scanner Sample.w0
            "/tmp/big.iso" (Some 86400) None)
     = Ok None.
Proof.
  split.
  - refine (proj1 (C9_large_file_fallback Sample.host Sample.scanner Sample.w0
                     "/tmp/big.iso" (Some 86400) (Some 1024)
                     {| st_mtime := Sample.t0 - 9 * 86400;
                        st_size := 30 * Sample.MiB |}
                     _ _ _ _ _ _ _ _ _ _) 1024 eq_refl _ _).
    + vm_compute; discriminate.
    + vm_compute; reflexivity.
    + vm_compute; reflexivity.
    + vm_compute; discriminate.
    + vm_compute; reflexivity.
    + vm_compute; reflexivity.
    + vm_compute; reflexivity.
    + vm_compute; reflexivity.
    + vm_compute; reflexivity.
    + plain_dirs.
    + discriminate.
    + vm_compute; discriminate.
  - refine (proj2 (C9_large_file_fallback Sample.host Sample.scanner Sample.w0
                     "/tmp/big.iso" (Some 86400) None
                     {| st_mtime := Sample.t0 - 9 * 86400;
                        st_size := 30 * Sample.MiB |}
                     _ _ _ _ _ _ _ _ _ _) (or_introl eq_refl)).
    + vm_compute; discriminate.
    + vm_compute; reflexivity.
    + vm_compute; reflexivity.
    + vm_compute; discriminate.
    + vm_compute; reflexivity.
    + vm_compute; reflexivity.
    + vm_compute; reflexivity.
    + vm_compute; reflexivity.
    + vm_compute; reflexivity.
    + plain_dirs.
Defined.

(* ------------------------------------------------------------------ *)
(** ** The whitelists *)

Lemma dedupe_from_incl :
  forall l seen x, In x (str.dedupe_from seen l) -> In x l.
Proof.
  induction l as [|y l IH]; intros seen x H; simpl in *.
  - exact H.
  - destruct (str.mem y seen).
    + right; eapply IH; exact H.
    + destruct H as [H | H]; [left; exact H | right; eapply IH; exact H].
Qed.

(** The optimizer keeps a configured path only if it exists. *)
Lemma optimizer_whitelist_exists :
  forall (h : Host) (s : string) (root : node) (p : string),
    In p (Optimizer._get_whitelist_paths h s root) ->
    exists q, In q (Scanner.whitelist_candidates h s)
              /\ os.path_exists h root q = true
              /\ p = os.path_abspath h q.
Proof.
  intros h s root p H; unfold Optimizer._get_whitelist_paths in H.
  apply dedupe_from_incl in H.
  apply in_map_iff in H as (q & Hq & Hin).
  apply filter_In in Hin as [Hin Hex].
  apply dedupe_from_incl in Hin.
  exists q; auto.
Qed.

(** C5. The scanner builds its whitelist without the existence test that the
    optimizer applies: on a host without [/lib64] the scanner's set holds
    [/lib64], the optimizer's does not. *)
Theorem C5_scanner_whitelist_keeps_missing_path :
  os.path_exists Sample.host Sample.disk "/lib64" = false
  /\ In "/lib64" (Scanner.whitelist_paths (Scanner.__init__ Sample.host Sample.disk []))
  /\ ~ In "/lib64" (Optimizer.whitelist_paths (Optimizer.__init__ Sample.host Sample.disk)).
Proof.
  split; [vm_compute; reflexivity |].
  split; [in_list |].
  intros H; vm_compute in H.
  repeat (destruct H as [H | H]; [discriminate |]); exact H.
Qed.

(* ------------------------------------------------------------------ *)
(** ** The walker *)


Lemma dict_get_set_same :
  forall (V : Type) (d : dict.t V) (k : string) (v : V),
    dict.get (dict.set d k v) k = Some v.
Proof.
  intros V d k v; induction d as [|[k' v'] d IH]; simpl.
  - rewrite String.eqb_refl; reflexivity.
  - destruct (String.eqb k' k) eqn:E; simpl; rewrite E; [reflexivity | exact IH].
Qed.

Lemma dict_get_set_other :
  forall (V : Type) (d : dict.t V) (k k' : string) (v : V),
    k' <> k -> dict.get (dict.set d k v) k' = dict.get d k'.
Proof.
  intros V d k k' v Hne; induction d as [|[k0 v0] d IH]; simpl.
  - destruct (String.eqb_spec k k'); [congruence | reflexivity].
  - destruct (String.eqb_spec k0 k) as [-> | Hk0]; simpl.
    + destruct (String.eqb_spec k k'); [congruence | reflexivity].
    + destruct (String.eqb_spec k0 k'); [reflexivity | exact IH].
Qed.

Section WalkerFacts.

Variable h : Host.
Variable self : Scanner.obj.
Variables age_seconds size_threshold_bytes : option Z.
Variable category_limits : dict.t Z.

Abbreviation collect :=
  (Scanner.collect_file h self age_seconds size_threshold_bytes category_limits).


(** One iteration either leaves the stored lists as they are or appends the
    path to the list of its category; the second happens exactly when there
    is a category and its cap, if any, is not reached. *)
Lemma collect_file_spec :
  forall fnd w p,
    let fnd' := fst (collect (fnd, w) p) in
    match category_of h self age_seconds size_threshold_bytes w p with
    | Some c =>
        if orb (String.eqb c "")
               (andb (truthy (dict.get category_limits c))
                     (Z.of_nat (List.length (stored fnd c))
                      >=? int_of (dict.get category_limits c)))
        then forall k, stored fnd' k = stored fnd k
        else (forall k, k <> c -> stored fnd' k = stored fnd k)
             /\ stored fnd' c = stored fnd c ++ [p]
    | None => forall k, stored fnd' k = stored fnd k
    end.
Proof.
  intros fnd w p; unfold Scanner.collect_file, category_of.
  destruct (Scanner._classify_file h self w p age_seconds size_threshold_bytes)
    as [r w'] eqn:E; cbn [fst snd].
  destruct (match r with Ok c => c | Raise _ => Some "skipped" end) as [c|];
    [| intros k; reflexivity].
  destruct (String.eqb c ""); cbn [orb]; [intros k; reflexivity |].
  set (fnd1 := if dict.contains fnd c then fnd else dict.set fnd c []).
  assert (Hall : forall k, stored fnd1 k = stored fnd k).
  { intros k; unfold fnd1, dict.contains, stored.
    destruct (dict.get fnd c) eqn:G; [reflexivity |].
    destruct (String.eqb_spec k c) as [-> | Hk].
    - rewrite dict_get_set_same, G; reflexivity.
    - rewrite dict_get_set_other by exact Hk; reflexivity. }
  change (match dict.get fnd1 c with Some l => l | None => [] end) with (stored fnd1 c).
  rewrite (Hall c).
  destruct (andb _ _); cbn [fst].
  - exact Hall.
  - split.
    + intros k Hk; unfold stored at 1.
      rewrite dict_get_set_other by exact Hk. apply Hall.
    + unfold stored at 1; rewrite dict_get_set_same; reflexivity.
Qed.

Lemma collect_file_fs :
  forall st p, fs (snd (collect st p)) = fs (snd st).
Proof.
  intros [fnd w] p; unfold Scanner.collect_file.
  pose proof (classify_keeps_fs h self w p age_seconds size_threshold_bytes) as Hfs.
  destruct (Scanner._classify_file h self w p age_seconds size_threshold_bytes)
    as [r w']; cbn [fst snd] in *.
  destruct (match r with Ok c => c | Raise _ => Some "skipped" end) as [c|];
    [| exact Hfs].
  destruct (String.eqb c ""); [exact Hfs |].
  destruct (andb _ _); exact Hfs.
Qed.

Lemma collect_file_mono :
  forall st p k q,
    In q (stored (fst st) k) -> In q (stored (fst (collect st p)) k).
Proof.
  intros [fnd w] p k q Hin; cbn [fst] in Hin.
  pose proof (collect_file_spec fnd w p) as H; cbv zeta in H.
  destruct (category_of h self age_seconds size_threshold_bytes w p) as [c|];
    [| rewrite H; exact Hin].
  destruct (orb _ _); [rewrite H; exact Hin |].
  destruct H as [Hother Hc].
  destruct (String.eqb_spec k c) as [-> | Hk].
  - rewrite Hc; apply in_or_app; left; exact Hin.
  - rewrite Hother by exact Hk; exact Hin.
Qed.

Lemma collect_file_adds :
  forall st p c,
    category_of h self age_seconds size_threshold_bytes (snd st) p = Some c ->
    c <> "" ->
    truthy (dict.get category_limits c) = false ->
    In p (stored (fst (collect st p)) c).
Proof.
  intros [fnd w] p c Hcat Hne Hcap; cbn [snd] in Hcat.
  pose proof (collect_file_spec fnd w p) as H; cbv zeta in H.
  rewrite Hcat, Hcap in H.
  destruct (String.eqb_spec c ""); [contradiction |].
  cbn [orb andb] in H. destruct H as [_ Hc].
  rewrite Hc; apply in_or_app; right; left; reflexivity.
Qed.

(** A path under the whitelist has category ["skipped"], or ["skip"] when
    its metadata cannot be read. *)
Lemma category_of_whitelisted :
  forall w p,
    Scanner._is_under_whitelist h self p = true ->
    category_of h self age_seconds size_threshold_bytes w p
    = Some (if is_ok (os.stat h (fs w) p) then "skipped" else "skip").
Proof.
  intros w p Hwl; unfold category_of.
  destruct (os.stat h (fs w) p) as [st | e] eqn:E; cbn [is_ok].
  - rewrite (classify_whitelisted h self w p age_seconds size_threshold_bytes st E Hwl).
    reflexivity.
  - rewrite (classify_unreadable h self w p age_seconds size_threshold_bytes e E).
    reflexivity.
Qed.


Lemma collect_file_safe :
  forall st p, whitelist_safe h self (fst st) -> whitelist_safe h self (fst (collect st p)).
Proof.
  intros [fnd w] p Hsafe k q Hin Hwl; cbn [fst] in *.
  pose proof (collect_file_spec fnd w p) as H; cbv zeta in H.
  destruct (category_of h self age_seconds size_threshold_bytes w p) as [c|] eqn:Hcat;
    [| rewrite H in Hin; eapply Hsafe; eauto].
  destruct (orb _ _); [rewrite H in Hin; eapply Hsafe; eauto |].
  destruct H as [Hother Hc].
  destruct (String.eqb_spec k c) as [-> | Hk].
  - rewrite Hc in Hin; apply in_app_or in Hin as [Hin | [<- | []]].
    + eapply Hsafe; eauto.
    + rewrite (category_of_whitelisted w p Hwl) in Hcat.
      injection Hcat as <-.
      destruct (is_ok _); [left | right]; reflexivity.
  - rewrite Hother in Hin by exact Hk; eapply Hsafe; eauto.
Qed.

(** The same facts for a run of the loop over a list of paths. *)
Lemma fold_collect_fs :
  forall ps st, fs (snd (fold_left collect ps st)) = fs (snd st).
Proof.
  induction ps as [|p ps IH]; intros st; cbn [fold_left].
  - reflexivity.
  - rewrite IH; apply collect_file_fs.
Qed.

Lemma fold_collect_mono :
  forall ps st k q,
    In q (stored (fst st) k) -> In q (stored (fst (fold_left collect ps st)) k).
Proof.
  induction ps as [|p ps IH]; intros st k q Hin; cbn [fold_left].
  - exact Hin.
  - apply IH; apply collect_file_mono; exact Hin.
Qed.

Lemma fold_collect_safe :
  forall ps st,
    whitelist_safe h self (fst st) ->
    whitelist_safe h self (fst (fold_left collect ps st)).
Proof.
  induction ps as [|p ps IH]; intros st Hsafe; cbn [fold_left].
  - exact Hsafe.
  - apply IH; apply collect_file_safe; exact Hsafe.
Qed.

Lemma fold_collect_adds_skipped :
  forall ps st p,
    In p ps ->
    Scanner._is_under_whitelist h self p = true ->
    is_ok (os.stat h (fs (snd st)) p) = true ->
    truthy (dict.get category_limits "skipped") = false ->
    In p (stored (fst (fold_left collect ps st)) "skipped").
Proof.
  induction ps as [|p0 ps IH]; intros st p Hin Hwl Hstat Hcap; cbn [fold_left].
  - destruct Hin.
  - destruct Hin as [-> | Hin].
    + apply fold_collect_mono; apply collect_file_adds.
      * rewrite (category_of_whitelisted (snd st) p Hwl), Hstat; reflexivity.
      * discriminate.
      * exact Hcap.
    + apply IH; auto.
      rewrite collect_file_fs; exact Hstat.
Qed.

Lemma collect_dir_as_fold :
  forall entry st,
    Scanner.collect_dir h self age_seconds size_threshold_bytes category_limits st entry
    = fold_left collect
        (let '(r, _, files) := entry in map (posixpath.join r) files) st.
Proof.
  intros [[r dirs] files] st; unfold Scanner.collect_dir.
  revert st; induction files as [|f files IH]; intros st; cbn [fold_left map].
  - reflexivity.
  - apply IH.
Qed.

Lemma collect_dirs_as_fold :
  forall entries st,
    fold_left
      (Scanner.collect_dir h self age_seconds size_threshold_bytes category_limits)
      entries st
    = fold_left collect
        (flat_map (fun entry : string * list string * list string =>
                     let '(r, _, files) := entry in map (posixpath.join r) files)
           entries) st.
Proof.
  induction entries as [|e entries IH]; intros st; cbn [fold_left flat_map].
  - reflexivity.
  - rewrite fold_left_app, IH, collect_dir_as_fold; reflexivity.
Qed.

(** The three nested loops are one loop over the visited files. *)
Lemma walk_loop_as_fold :
  forall folders st,
    fold_left
      (fun st folder =>
         if negb (os.path_exists h (fs (snd st)) folder) then st
         else
           fold_left
             (Scanner.collect_dir h self age_seconds size_threshold_bytes category_limits)
             (os.walk h (fs (snd st)) folder true) st)
      folders st
    = fold_left collect (visited_files h (fs (snd st)) folders) st.
Proof.
  induction folders as [|folder folders IH]; intros st;
    cbn [fold_left visited_files flat_map].
  - reflexivity.
  - rewrite fold_left_app.
    destruct (os.path_exists h (fs (snd st)) folder); cbn [negb fold_left].
    + rewrite IH, collect_dirs_as_fold, fold_collect_fs; reflexivity.
    + apply IH.
Qed.

End WalkerFacts.


Lemma walk_and_collect_as_fold :
  forall h self age thr limits folders st,
    Scanner._walk_and_collect h self st folders age thr limits
    = fold_left (Scanner.collect_file h self age thr (limits_of limits))
        (visited_files h (fs (snd st)) folders) st.
Proof.
  intros h self age thr limits folders st.
  unfold Scanner._walk_and_collect; cbv zeta.
  apply (walk_loop_as_fold h self age thr (limits_of limits)).
Qed.


Lemma empty_found_safe :
  forall h self, whitelist_safe h self Scanner.empty_found.
Proof.
  intros h self k q Hin _; exfalso.
  unfold stored, Scanner.empty_found in Hin; cbn [dict.get] in Hin.
  repeat match type of Hin with
         | context [if ?b then _ else _] => destruct b
         end; exact Hin.
Qed.

(** C2, as stated, fails: [os.walk] is not pruned. A scan that is given
    [/usr], itself a whitelist entry, walks on into [/usr/bin], another
    entry, hands [/usr/bin/env] to the classifier and stores it under
    ["skipped"]. *)
Lemma C2_walk_enters_whitelisted_subtree :
  Scanner._is_under_whitelist Sample.host Sample.scanner "/usr" = true
  /\ Scanner._is_under_whitelist Sample.host Sample.scanner "/usr/bin" = true
  /\ os.walk Sample.host Sample.disk "/usr" true
     = [("/usr", ["bin"; "sbin"], []); ("/usr/bin", [], ["env"]); ("/usr/sbin", [], [])]
  /\ (let report :=
        fst (fst (Scanner.scan_all Sample.host Sample.scanner Sample.w0
                    (Some 86400) (Some 1024) false false ["/usr"] None true)) in
      In "/usr" (Scanner.scanned_folders report)
      /\ In "/usr/bin/env"
           (visited_files Sample.host Sample.disk (Scanner.scanned_folders report))
      /\ dict.get (Scanner.lists report) "skipped" = Some ["/usr/bin/env"]).
Proof.
  split; [vm_compute; reflexivity |].
  split; [vm_compute; reflexivity |].
  split; [vm_compute; reflexivity |].
  split; [in_list |].
  split; [in_list | vm_compute; reflexivity].
Qed.

(** C2, amended. The walker does descend into whitelisted subtrees; what it
    guarantees is per file. In the report of [scan_all], every visited file
    that lies under a whitelist entry and has readable metadata is stored
    under ["skipped"] (when no cap is set for that category), and no
    whitelisted path is stored under ["junk"], ["large"], ["suspicious"] or
    ["harmful"]: only ["skipped"], or ["skip"] for unreadable metadata, can
    hold one. *)
Theorem C2_whitelisted_files_are_visited_and_skipped :
  forall (h : Host) (self : Scanner.obj) (w : world)
         (age_seconds size_threshold_bytes : option Z)
         (include_downloads include_browser_cache : bool)
         (extra_scan_dirs : list string) (category_limits : option (dict.t Z))
         (dry : bool),
    truthy (dict.get (limits_of category_limits) "skipped") = false ->
    let report :=
      fst (fst (Scanner.scan_all h self w age_seconds size_threshold_bytes
                  include_downloads include_browser_cache extra_scan_dirs
                  category_limits dry)) in
    (forall p,
        In p (visited_files h (fs w) (Scanner.scanned_folders report)) ->
        Scanner._is_under_whitelist h self p = true ->
        is_ok (os.stat h (fs w) p) = true ->
        In p (stored (Scanner.lists report) "skipped"))
    /\ (forall k p,
           In p (stored (Scanner.lists report) k) ->
           Scanner._is_under_whitelist h self p = true ->
           k = "skipped" \/ k = "skip").
Proof.
  intros h self w age thr incl_d incl_c extra limits dry Hcap.
  unfold Scanner.scan_all; cbv zeta.
  rewrite walk_and_collect_as_fold; cbn [snd].
  set (folders := filter (os.path_exists h (fs w)) _).
  destruct (fold_left _ (visited_files h (fs w) folders) (Scanner.empty_found, w))
    as [fnd w'] eqn:E.
  cbn [fst Scanner.lists Scanner.scanned_folders].
  assert (Efnd : fnd = fst (fold_left
                              (Scanner.collect_file h self age thr (limits_of limits))
                              (visited_files h (fs w) folders) (Scanner.empty_found, w)))
    by (rewrite E; reflexivity).
  split.
  - intros p Hin Hwl Hstat; rewrite Efnd.
    apply fold_collect_adds_skipped; assumption.
  - rewrite Efnd.
    apply (fold_collect_safe h self age thr (limits_of limits)).
    apply empty_found_safe.
Qed.

Lemma C2_whitelisted_files_are_visited_and_skipped_witness :
  In "/usr/bin/env"
    (stored (Scanner.lists
               (fst (fst (Scanner.scan_all Sample.host Sample.scanner Sample.w0
                            (Some 86400) (Some 1024) false false ["/usr"] None true))))
       "skipped").
Proof.
  refine (proj1 (C2_whitelisted_files_are_visited_and_skipped
                   Sample.host Sample.scanner Sample.w0 (Some 86400) (Some 1024)
                   false false ["/usr"] None true eq_refl)
            "/usr/bin/env" _ _ _).
  - in_list.
  - vm_compute; reflexivity.
  - vm_compute; reflexivity.
Defined.

(* ------------------------------------------------------------------ *)
(** ** Deleting entries from the file system *)


Lemma delete_at_dir :
  forall cs n n',
    os.delete_at cs n = Some n' ->
    exists st es es', n = Dir st es /\ n' = Dir st es'.
Proof.
  intros [|c cs] n n' H; simpl in H; [discriminate |].
  destruct n as [st | | st es]; try discriminate.
  destruct cs as [|c2 cs].
  - injection H as <-; eauto.
  - destruct (os.get_entry c es) as [ch|]; [| discriminate].
    destruct (os.delete_at (c2 :: cs) ch) as [ch'|]; [| discriminate].
    injection H as <-; eauto.
Qed.

Lemma get_entry_del :
  forall c d es ch,
    os.get_entry d (os.del_entry c es) = Some ch -> os.get_entry d es = Some ch.
Proof.
  intros c d es ch; unfold os.get_entry, os.del_entry.
  induction es as [|[k v] es IH]; simpl; [auto |].
  destruct (String.eqb_spec k c) as [-> | Hk]; simpl.
  - intros H. destruct (String.eqb_spec c d) as [-> | Hd]; simpl.
    + exfalso. clear IH.
      induction es as [|[k' v'] es IH']; simpl in H; [discriminate |].
      destruct (String.eqb_spec k' d) as [-> | Hk']; simpl in H.
      * exact (IH' H).
      * destruct (String.eqb_spec k' d); [contradiction | exact (IH' H)].
    + exact (IH H).
  - destruct (String.eqb k d); simpl; [auto | exact IH].
Qed.

Lemma get_entry_set :
  forall c d v es,
    os.get_entry d (os.set_entry c v es)
    = if String.eqb d c
      then match os.get_entry c es with Some _ => Some v | None => None end
      else os.get_entry d es.
Proof.
  intros c d v es; unfold os.get_entry, os.set_entry.
  induction es as [|[k x] es IH]; simpl.
  - destruct (String.eqb d c); reflexivity.
  - destruct (String.eqb_spec k c) as [-> | Hk]; simpl.
    + destruct (String.eqb_spec c d) as [-> | Hd]; simpl.
      * rewrite String.eqb_refl; reflexivity.
      * destruct (String.eqb_spec d c); [congruence | exact IH].
    + destruct (String.eqb_spec k d) as [-> | Hd]; simpl.
      * destruct (String.eqb_spec d c); [congruence | reflexivity].
      * exact IH.
Qed.

Lemma get_entry_in :
  forall c es ch, os.get_entry c es = Some ch -> In (c, ch) es.
Proof.
  intros c es ch; unfold os.get_entry.
  induction es as [|[k x] es IH]; simpl; [discriminate |].
  destruct (String.eqb_spec k c) as [-> | Hk]; simpl.
  - intros H; injection H as <-; left; reflexivity.
  - intros H; right; exact (IH H).
Qed.

(** What is found after a deletion was there before, possibly with more
    entries below it. *)
Lemma lookup_delete_at :
  forall ds n n' cs m',
    os.delete_at ds n = Some n' ->
    os.lookup n' cs = Some m' ->
    exists m, os.lookup n cs = Some m
              /\ (m' = m \/ exists ds', os.delete_at ds' m = Some m').
Proof.
  induction ds as [|c ds IH]; intros n n' cs m' Hdel Hlook; [discriminate |].
  destruct cs as [|d cs].
  - simpl in Hlook; injection Hlook as <-.
    exists n; split; [reflexivity | right; exists (c :: ds); exact Hdel].
  - simpl in Hdel.
    destruct n as [st | | st es]; try discriminate.
    destruct ds as [|c2 ds].
    + injection Hdel as <-. simpl in Hlook |- *.
      destruct (os.get_entry d (os.del_entry c es)) as [ch|] eqn:G; [| discriminate].
      rewrite (get_entry_del c d es ch G).
      exists m'; split; [exact Hlook | left; reflexivity].
    + destruct (os.get_entry c es) as [ch|] eqn:G; [| discriminate].
      destruct (os.delete_at (c2 :: ds) ch) as [ch'|] eqn:D; [| discriminate].
      injection Hdel as <-. simpl in Hlook |- *.
      rewrite get_entry_set in Hlook.
      destruct (String.eqb_spec d c) as [-> | Hd].
      * rewrite G in Hlook |- *.
        exact (IH ch ch' cs m' D Hlook).
      * destruct (os.get_entry d es) as [x|]; [| discriminate].
        exists m'; split; [exact Hlook | left; reflexivity].
Qed.

Lemma shrunk_trans_step :
  forall n m m', shrunk n m ->
                 (m' = m \/ exists ds, os.delete_at ds m = Some m') -> shrunk n m'.
Proof.
  intros n m m' H [-> | [ds D]]; [exact H | eapply shrunk_step; eauto].
Qed.

Lemma shrunk_lookup :
  forall n n' cs m',
    shrunk n n' ->
    os.lookup n' cs = Some m' ->
    exists m, os.lookup n cs = Some m /\ shrunk m m'.
Proof.
  intros n n' cs m' H; revert cs m'.
  induction H as [n | n mid n' ds Hs IH Hdel]; intros cs m' Hlook.
  - exists m'; split; [exact Hlook | apply shrunk_refl].
  - destruct (lookup_delete_at ds mid n' cs m' Hdel Hlook) as (m1 & Hm1 & Hrel).
    destruct (IH cs m1 Hm1) as (m & Hm & Hsh).
    exists m; split; [exact Hm | eapply shrunk_trans_step; eauto].
Qed.

(** Deletions keep the kind of what remains, and the metadata of a file;
    for a directory the tree keeps the metadata it had (see the
    conventions). *)
Lemma shrunk_kind :
  forall m m',
    shrunk m m' ->
    match m' with
    | File st => m = File st
    | Dangling => m = Dangling
    | Dir st _ => exists es, m = Dir st es
    end.
Proof.
  intros m m' H; induction H as [n | n mid n' ds Hs IH Hdel].
  - destruct n; eauto.
  - destruct (delete_at_dir ds mid n' Hdel) as (st & es & es' & -> & ->).
    exact IH.
Qed.

Lemma canon_shrunk :
  forall root root' cs acc r,
    shrunk root root' ->
    os.canon root' acc cs = Some r ->
    os.canon root acc cs = Some r.
Proof.
  intros root root' cs; induction cs as [|c cs IH]; intros acc r Hs H; simpl in *.
  - exact H.
  - destruct (os.lookup root' acc) as [[st | | st es']|] eqn:L; try discriminate.
    destruct (shrunk_lookup root root' acc _ Hs L) as (m & Hm & Hsh).
    apply shrunk_kind in Hsh as [es ->]. rewrite Hm.
    destruct (orb _ _); [apply IH; assumption |].
    destruct (String.eqb c ".."); apply IH; assumption.
Qed.

Section FileSystemFacts.

Variable h : Host.

Lemma locate_shrunk :
  forall root root' p cs,
    shrunk root root' -> os.locate h root' p = Some cs -> os.locate h root p = Some cs.
Proof.
  intros root root' p cs Hs; unfold os.locate.
  destruct (String.eqb p ""); [discriminate |].
  apply canon_shrunk; exact Hs.
Qed.

Lemma resolve_shrunk :
  forall root root' p n',
    shrunk root root' ->
    os.resolve h root' p = Some n' ->
    exists n, os.resolve h root p = Some n /\ shrunk n n'.
Proof.
  intros root root' p n' Hs; unfold os.resolve.
  destruct (os.locate h root' p) as [cs|] eqn:L; [| discriminate].
  rewrite (locate_shrunk root root' p cs Hs L).
  apply shrunk_lookup; exact Hs.
Qed.

(** Metadata read after deletions is the metadata of the start. *)
Lemma stat_shrunk :
  forall root root' p st,
    shrunk root root' -> os.stat h root' p = Ok st -> os.stat h root p = Ok st.
Proof.
  intros root root' p st Hs; unfold os.stat.
  destruct (os.resolve h root' p) as [n'|] eqn:R; [| discriminate].
  destruct (resolve_shrunk root root' p n' Hs R) as (n & -> & Hsh).
  apply shrunk_kind in Hsh.
  destruct n' as [st' | | st' es']; try discriminate.
  - rewrite Hsh; auto.
  - destruct Hsh as [es ->]; auto.
Qed.

Lemma remove_shrunk :
  forall root p root', os.remove h root p = Ok root' -> shrunk root root'.
Proof.
  intros root p root'; unfold os.remove.
  destruct (os.locate h root p) as [cs|]; [| discriminate].
  destruct (os.lookup root cs) as [[st | | st es]|]; try discriminate;
    (destruct (denied h cs); [discriminate |]);
    (destruct (os.delete_at cs root) as [r|] eqn:D; [| discriminate]);
    intros H; injection H as <-;
    (eapply shrunk_step; [apply shrunk_refl | exact D]).
Qed.

End FileSystemFacts.

(** ** [os.walk] after deletions *)


Lemma in_walk_dir :
  forall topdown top st es t,
    In t (os.walk_node topdown top (Dir st es))
    <-> t = (top, os.dir_names es, os.nondir_names es) \/ In t (below_of topdown top es).
Proof.
  intros topdown top st es t.
  assert (Hbelow :
            (fix go (l : list (string * node)) : list (string * list string * list string) :=
               match l with
               | [] => []
               | (nm, ch) :: l' =>
                   match ch with
                   | Dir _ _ => os.walk_node topdown (posixpath.join top nm) ch
                   | _ => []
                   end ++ go l'
               end) es
            = below_of topdown top es).
  { induction es as [|[nm ch] es IH]; [reflexivity |].
    unfold below_of; cbn [flat_map fst snd]; fold (below_of topdown top es).
    rewrite <- IH. destruct ch; reflexivity. }
  cbn [os.walk_node]. rewrite Hbelow.
  destruct topdown; cbn [In].
  - split; intros [H | H]; auto.
  - rewrite in_app_iff; cbn [In]. split.
    + intros [H | [H | []]]; auto.
    + intros [H | H]; auto.
Qed.

Lemma in_nondir_names :
  forall es x,
    In x (os.nondir_names es)
    <-> exists e, In e es /\ fst e = x /\ os.is_dir_node (snd e) = false.
Proof.
  intros es x; unfold os.nondir_names. rewrite in_map_iff. split.
  - intros (e & Hx & Hin). apply filter_In in Hin as [Hin Hk].
    exists e; repeat split; auto. apply negb_true_iff; exact Hk.
  - intros (e & Hin & Hx & Hk). exists e; split; [exact Hx |].
    apply filter_In; split; [exact Hin | apply negb_true_iff; exact Hk].
Qed.

Lemma nondir_names_del :
  forall c es, incl (os.nondir_names (os.del_entry c es)) (os.nondir_names es).
Proof.
  intros c es x Hx. apply in_nondir_names in Hx as (e & Hin & Hf & Hk).
  apply in_nondir_names. exists e; repeat split; auto.
  unfold os.del_entry in Hin; apply filter_In in Hin; tauto.
Qed.

Lemma nondir_names_set :
  forall c v es,
    os.is_dir_node v = true ->
    incl (os.nondir_names (os.set_entry c v es)) (os.nondir_names es).
Proof.
  intros c v es Hv x Hx. apply in_nondir_names in Hx as (e' & Hin & Hf & Hk).
  unfold os.set_entry in Hin. apply in_map_iff in Hin as (e & He & Hin).
  destruct (String.eqb (fst e) c).
  - subst e'; cbn [snd] in Hk; congruence.
  - subst e'. apply in_nondir_names. exists e; auto.
Qed.

(** A directory listed after a deletion was listed before it, with at least
    the same files. *)
Lemma walk_node_delete :
  forall ds n n' topdown top t,
    os.delete_at ds n = Some n' ->
    In t (os.walk_node topdown top n') ->
    exists t0, In t0 (os.walk_node topdown top n)
               /\ fst (fst t0) = fst (fst t)
               /\ incl (snd t) (snd t0).
Proof.
  induction ds as [|c ds IH]; intros n n' topdown top t Hdel Hin; [discriminate |].
  simpl in Hdel.
  destruct n as [st | | st es]; try discriminate.
  destruct ds as [|c2 ds].
  - injection Hdel as <-.
    apply in_walk_dir in Hin as [-> | Hin].
    + exists (top, os.dir_names es, os.nondir_names es); split; [| split].
      * apply in_walk_dir; left; reflexivity.
      * reflexivity.
      * apply nondir_names_del.
    + exists t; split; [| split; [reflexivity | apply incl_refl]].
      apply in_walk_dir; right.
      unfold below_of in *. apply in_flat_map in Hin as (e & He & Ht).
      apply in_flat_map; exists e; split; [| exact Ht].
      unfold os.del_entry in He; apply filter_In in He; tauto.
  - destruct (os.get_entry c es) as [ch|] eqn:G; [| discriminate].
    destruct (os.delete_at (c2 :: ds) ch) as [ch'|] eqn:D; [| discriminate].
    injection Hdel as <-.
    apply in_walk_dir in Hin as [-> | Hin].
    + exists (top, os.dir_names es, os.nondir_names es); split; [| split].
      * apply in_walk_dir; left; reflexivity.
      * reflexivity.
      * apply nondir_names_set.
        destruct (delete_at_dir (c2 :: ds) ch ch' D) as (s1 & e1 & e2 & _ & ->).
        reflexivity.
    + unfold below_of in Hin. apply in_flat_map in Hin as (e' & He' & Ht).
      unfold os.set_entry in He'. apply in_map_iff in He' as (e & He & Hein).
      destruct (String.eqb_spec (fst e) c) as [Hc | Hc].
      * subst e'; cbn [fst snd] in Ht.
        destruct (IH ch ch' topdown (posixpath.join top c) t D Ht) as (t0 & Ht0 & Hr & Hf).
        exists t0; split; [| split; assumption].
        apply in_walk_dir; right. unfold below_of.
        apply in_flat_map; exists (c, ch); split; [apply get_entry_in; exact G | exact Ht0].
      * subst e'. exists t; split; [| split; [reflexivity | apply incl_refl]].
        apply in_walk_dir; right. unfold below_of.
        apply in_flat_map; exists e; split; assumption.
Qed.

Lemma walk_node_shrunk :
  forall n n' topdown top t,
    shrunk n n' ->
    In t (os.walk_node topdown top n') ->
    exists t0, In t0 (os.walk_node topdown top n)
               /\ fst (fst t0) = fst (fst t)
               /\ incl (snd t) (snd t0).
Proof.
  intros n n' topdown top t H; revert t.
  induction H as [n | n mid n' ds Hs IH Hdel]; intros t Hin.
  - exists t; split; [exact Hin | split; [reflexivity | apply incl_refl]].
  - destruct (walk_node_delete ds mid n' topdown top t Hdel Hin) as (t1 & H1 & Hr1 & Hf1).
    destruct (IH t1 H1) as (t0 & H0 & Hr0 & Hf0).
    exists t0; split; [exact H0 | split].
    + congruence.
    + eapply incl_tran; eauto.
Qed.

Lemma walk_shrunk :
  forall h root root' top topdown t,
    shrunk root root' ->
    In t (os.walk h root' top topdown) ->
    exists t0, In t0 (os.walk h root top topdown)
               /\ fst (fst t0) = fst (fst t)
               /\ incl (snd t) (snd t0).
Proof.
  intros h root root' top topdown t Hs; unfold os.walk.
  destruct (os.resolve h root' top) as [n'|] eqn:R; [| intros []].
  destruct (resolve_shrunk h root root' top n' Hs R) as (n & -> & Hsh).
  apply walk_node_shrunk; exact Hsh.
Qed.

(* ------------------------------------------------------------------ *)
(** ** The optimizer *)


Section OptimizerFacts.

Variable h : Host.
Variable self : Optimizer.obj.
Variable w0 : world.
Variable age_seconds : Z.
Variable delete_small_files : bool.

Lemma is_safe_path_spec :
  forall p,
    Optimizer._is_safe_path h self p = true
    <-> ~ under_whitelist (Optimizer.whitelist_paths self) (os.path_abspath h p).
Proof.
  intros p; unfold Optimizer._is_safe_path, under_whitelist.
  rewrite negb_true_iff, <- not_true_iff_false, existsb_exists.
  split; intros Hn (W & HW & Hc); apply Hn; exists W; split; auto.
  - apply orb_true_iff; destruct Hc as [Hc | Hc]; [left; apply String.eqb_eq | right]; exact Hc.
  - apply orb_true_iff in Hc as [Hc | Hc]; [left; apply String.eqb_eq | right]; exact Hc.
Qed.

Lemma remove_delete_at :
  forall root p root',
    os.remove h root p = Ok root' -> exists cs, os.delete_at cs root = Some root'.
Proof.
  intros root p root'; unfold os.remove.
  destruct (os.locate h root p) as [cs|]; [| discriminate].
  destruct (os.lookup root cs) as [[st | | st es]|]; try discriminate;
    (destruct (denied h cs); [discriminate |]);
    destruct (os.delete_at cs root) as [r|] eqn:D; try discriminate;
    intros H; injection H as <-; exists cs; exact D.
Qed.

Lemma getmtime_shrunk :
  forall root root' p m,
    shrunk root root' ->
    os.path_getmtime h root' p = Ok m -> os.path_getmtime h root p = Ok m.
Proof.
  intros root root' p m Hs; unfold os.path_getmtime.
  destruct (os.stat h root' p) as [st | e] eqn:E; [| discriminate].
  rewrite (stat_shrunk h root root' p st Hs E); auto.
Qed.

Lemma optimize_file_invariant :
  forall st fpath,
    listed h (fs w0) (Optimizer.temp_dirs self) fpath ->
    optimizer_invariant h self w0 age_seconds st ->
    optimizer_invariant h self w0 age_seconds
      (Optimizer.optimize_file h self age_seconds delete_small_files st fpath).
Proof.
  intros [removed w] fpath Hlisted (Hs & Ht & Hrem & Hfs); cbn [fst snd] in *.
  assert (Hkeep : forall n, (ticks w <= n)%nat ->
                    optimizer_invariant h self w0 age_seconds
                      (removed, {| fs := fs w; ticks := n |})).
  { intros n Hn; split; [| split; [| split]]; cbn [fst snd fs ticks]; auto; lia. }
  assert (Hsame : optimizer_invariant h self w0 age_seconds (removed, w)).
  { split; [| split; [| split]]; auto. }
  unfold Optimizer.optimize_file.
  destruct (Optimizer._is_safe_path h self fpath) eqn:Hsafe; cbn [negb]; [| exact Hsame].
  unfold os.time; cbn [fs ticks].
  destruct (os.path_getmtime h (fs w) fpath) as [mtime | e] eqn:Hm;
    [| apply Hkeep; lia].
  destruct (Z.ltb_spec (clock h (ticks w) - mtime) age_seconds) as [Hlt | Hge];
    [apply Hkeep; lia |].
  destruct (if delete_small_files then Ok false
            else size <- os.path_getsize h (fs w) fpath ;; Ok (size <? 1024))
    as [[|] | e]; try (apply Hkeep; lia).
  destruct (os.remove h (fs w) fpath) as [root' | e] eqn:Hr; [| apply Hkeep; lia].
  destruct (remove_delete_at (fs w) fpath root' Hr) as [cs Hdel].
  split; [| split; [| split]]; cbn [fst snd fs ticks].
  - eapply shrunk_step; eauto.
  - lia.
  - intros p Hin. apply in_app_or in Hin as [Hin | [<- | []]]; [auto |].
    split; [apply is_safe_path_spec; exact Hsafe |].
    split; [exact Hlisted |].
    exists (ticks w), mtime. split; [exact Ht | split; [| exact Hge]].
    apply getmtime_shrunk with (root' := fs w); assumption.
  - unfold remove_all in *. rewrite fold_left_app; cbn [fold_left].
    rewrite <- Hfs, Hr; reflexivity.
Qed.

Lemma optimize_dir_invariant :
  forall st r dirs files,
    (forall f, In f files ->
               listed h (fs w0) (Optimizer.temp_dirs self) (posixpath.join r f)) ->
    optimizer_invariant h self w0 age_seconds st ->
    optimizer_invariant h self w0 age_seconds
      (Optimizer.optimize_dir h self age_seconds delete_small_files st (r, dirs, files)).
Proof.
  intros st r dirs files Hl Hinv; unfold Optimizer.optimize_dir.
  apply fold_left_invariant; [exact Hinv |].
  intros st' f Hf Hinv'. apply optimize_file_invariant; auto.
Qed.

Lemma optimize_folders_invariant :
  forall folders st,
    incl folders (Optimizer.temp_dirs self) ->
    optimizer_invariant h self w0 age_seconds st ->
    optimizer_invariant h self w0 age_seconds
      (fold_left
         (fun st folder =>
            fold_left (Optimizer.optimize_dir h self age_seconds delete_small_files)
              (os.walk h (fs (snd st)) folder true) st)
         folders st).
Proof.
  intros folders st Hincl Hinv.
  apply fold_left_invariant; [exact Hinv |].
  intros st' folder Hfolder Hinv'.
  pose proof Hinv' as (Hs & _).
  apply fold_left_invariant; [exact Hinv' |].
  intros st'' [[r dirs] files] Hentry Hinv''.
  apply optimize_dir_invariant; [| exact Hinv''].
  intros f Hf.
  destruct (walk_shrunk h (fs w0) (fs (snd st')) folder true (r, dirs, files) Hs Hentry)
    as ([[r0 dirs0] files0] & H0 & Hr & Hfiles).
  cbn [fst snd] in Hr, Hfiles; subst r0.
  exists folder, r, dirs0, files0, f.
  split; [apply Hincl; exact Hfolder |].
  split; [exact H0 |].
  split; [apply Hfiles; exact Hf | reflexivity].
Qed.

End OptimizerFacts.

(** C3. [optimize_disk] keeps off the whitelist and removes old temp files
    only. Every path it returns is not equal to and not under a whitelist
    entry (on its absolute form, as [_is_safe_path] tests it), is a file
    that [os.walk] lists below a temp directory, and has, on a clock reading
    of the call, an age of at least [max_age_days * 86400] seconds; and the
    returned paths are all it removes: the file system after the call is the
    one before it with these paths removed. *)
Theorem C3_optimize_disk_removes_only_old_unprotected_temp_files :
  forall (h : Host) (self : Optimizer.obj) (w : world) (max_age_days : Z)
         (delete_small_files : bool),
    let '(removed_paths, w') :=
      Optimizer.optimize_disk h self w max_age_days delete_small_files in
    (forall p,
        In p removed_paths ->
        ~ under_whitelist (Optimizer.whitelist_paths self) (os.path_abspath h p)
        /\ listed h (fs w) (Optimizer.temp_dirs self) p
        /\ exists k mtime,
            (ticks w <= k)%nat
            /\ os.path_getmtime h (fs w) p = Ok mtime
            /\ max_age_days * 86400 <= clock h k - mtime)
    /\ fs w' = remove_all h (fs w) removed_paths.
Proof.
  intros h self w max_age_days delete_small_files.
  unfold Optimizer.optimize_disk; cbv zeta.
  pose proof (optimize_folders_invariant h self w (max_age_days * 86400)
                delete_small_files (Optimizer.temp_dirs self) ([], w)
                (incl_refl _)) as Hinv.
  destruct (fold_left _ (Optimizer.temp_dirs self) ([], w)) as [removed_paths w'].
  destruct Hinv as (_ & _ & Hrem & Hfs).
  - split; [| split; [| split]]; cbn [fst snd]; auto using shrunk_refl.
    intros p [].
  - cbn [fst snd] in *. split; [exact Hrem | exact Hfs].
Qed.

(** On the sample host a week is the limit for [/tmp/big.iso] alone, and a
    day for four files; the dangling link and the fresh file stay. *)
Example optimize_disk_sample :
  fst (Optimizer.optimize_disk Sample.host Sample.optimizer Sample.w0 7 true)
  = ["/tmp/big.iso"]
  /\ fst (Optimizer.optimize_disk Sample.host Sample.optimizer Sample.w0 1 true)
     = ["/tmp/app.tmp"; "/tmp/big.iso"; "/tmp/sub/run.sh";
        "/home/user/.cache/mozilla/blob"]
  /\ fst (Optimizer.optimize_disk Sample.host Sample.optimizer Sample.w0 1 false)
     = ["/tmp/app.tmp"; "/tmp/big.iso"; "/home/user/.cache/mozilla/blob"].
Proof. vm_compute; repeat split; reflexivity. Qed.

(* ================================================================== *)
(** * Further properties *)

(** ** The classifier, rule by rule *)

(** The answer of [_classify_file], in one equation. *)
Lemma classify_answer :
  forall (h : Host) (self : Scanner.obj) (w : world) (p : string)
         (age_seconds size_threshold_bytes : option Z),
    fst (Scanner._classify_file h self w p age_seconds size_threshold_bytes)
    = match os.stat h (fs w) p with
      | Raise _ => Ok (Some "skip")
      | Ok st =>
          if Scanner._is_under_whitelist h self p then Ok (Some "skipped")
          else if too_recent h w st age_seconds then Ok None
               else by_rules self p (st_size st) size_threshold_bytes
      end.
Proof.
  intros h self w p age thr.
  destruct (os.stat h (fs w) p) as [st | e] eqn:E.
  - destruct (Scanner._is_under_whitelist h self p) eqn:Hwl.
    + rewrite (classify_whitelisted h self w p age thr st E Hwl); reflexivity.
    + destruct (too_recent h w st age) eqn:Hr.
      * destruct age as [a|]; [| discriminate]. simpl in Hr.
        apply Z.ltb_lt in Hr.
        apply (classify_recent h self w p a thr st E Hwl Hr).
      * apply (classify_old_enough h self w p age thr st E Hwl).
        destruct age as [a|]; simpl in *; [| exact I].
        apply Z.ltb_ge in Hr; exact Hr.
  - rewrite (classify_unreadable h self w p age thr e E); reflexivity.
Qed.

Lemma any_commonpath_raises_value_error :
  forall p dirs e,
    Scanner.any_commonpath p dirs = Raise e -> exists m, e = ValueError m.
Proof.
  intros p dirs e; induction dirs as [|d dirs IH]; cbn [Scanner.any_commonpath].
  - discriminate.
  - destruct (posixpath.commonpath [p; d]) as [c | e'] eqn:C; cbn [bind].
    + destruct (String.eqb c d); [discriminate | exact IH].
    + intros H; injection H as <-.
      unfold posixpath.commonpath in C.
      destruct (forallb _ _); [discriminate |].
      injection C as <-; eauto.
Qed.

(** What the rules can answer. *)
Lemma by_rules_range :
  forall self p size thr,
    match by_rules self p size thr with
    | Ok (Some c) => In c categories
    | Ok None => True
    | Raise e => exists m, e = ValueError m
    end.
Proof.
  intros self p size thr; unfold by_rules, categories.
  repeat match goal with
         | |- context [if ?b then _ else _] => destruct b
         | |- context [bind (Scanner.any_commonpath ?q ?l) _] =>
             let E := fresh "E" in
             destruct (Scanner.any_commonpath q l) as [[|] | ?e] eqn:E; cbn [bind];
             [| | exact (any_commonpath_raises_value_error q l _ E)]
         end; cbn [In]; auto 10.
Qed.

(** X1. [_classify_file] answers one of six strings or [None]; the only exception
    it lets through is the [ValueError] of [os.path.commonpath]. *)
Theorem classify_range :
  forall (h : Host) (self : Scanner.obj) (w : world) (p : string)
         (age_seconds size_threshold_bytes : option Z),
    match fst (Scanner._classify_file h self w p age_seconds size_threshold_bytes) with
    | Ok (Some c) => In c (categories ++ ["skip"])
    | Ok None => True
    | Raise e => exists m, e = ValueError m
    end.
Proof.
  intros h self w p age thr; rewrite classify_answer.
  destruct (os.stat h (fs w) p) as [st | e].
  - destruct (Scanner._is_under_whitelist h self p); [in_list |].
    destruct (too_recent h w st age); [exact I |].
    pose proof (by_rules_range self p (st_size st) thr) as H.
    destruct (by_rules self p (st_size st) thr) as [[c|] | e]; auto.
    apply in_or_app; left; exact H.
  - in_list.
Qed.

(** X2. Age gate: a file that is not whitelisted, has readable metadata and is
    younger than [age_seconds] gets no category, whatever its extension,
    size and place. *)
Theorem age_gate_gives_no_category :
  forall (h : Host) (self : Scanner.obj) (w : world) (p : string)
         (age : Z) (size_threshold_bytes : option Z) (st : stat_result),
    os.stat h (fs w) p = Ok st ->
    Scanner._is_under_whitelist h self p = false ->
    clock h (ticks w) - st_mtime st < age ->
    fst (Scanner._classify_file h self w p (Some age) size_threshold_bytes) = Ok None.
Proof.
  intros h self w p age thr st E Hwl Hlt.
  rewrite classify_answer, E, Hwl; cbn [too_recent].
  apply Z.ltb_lt in Hlt; rewrite Hlt; reflexivity.
Qed.

Lemma age_gate_gives_no_category_witness :
  fst (Scanner._classify_file Sample.host Sample.scanner Sample.w0 "/tmp/fresh.tmp"
         (Some 86400) (Some 1024))
  = Ok None.
Proof.
  refine (age_gate_gives_no_category Sample.host Sample.scanner Sample.w0
            "/tmp/fresh.tmp" 86400 (Some 1024)
            {| st_mtime := Sample.t0 - 0 * 86400; st_size := 2048 |} _ _ _).
  - vm_compute; reflexivity.
  - vm_compute; reflexivity.
  - vm_compute; reflexivity.
Defined.

(** X3. Junk rule: an old enough, non-whitelisted file whose extension is in the
    junk set (and in neither of the two sets tested before it) is ["junk"],
    unless a non-zero size threshold is set and the file is smaller than it:
    then it gets no category. The place of the file plays no part. *)
Theorem junk_extension_rule :
  forall (h : Host) (self : Scanner.obj) (w : world) (p : string)
         (age_seconds size_threshold_bytes : option Z) (st : stat_result),
    os.stat h (fs w) p = Ok st ->
    Scanner._is_under_whitelist h self p = false ->
    old_enough h w st age_seconds ->
    str.mem (str.lower (pathlib.suffix p))
      (Scanner.potentially_dangerous_extensions self) = false ->
    str.mem (str.lower (pathlib.suffix p))
      (Scanner.suspicious_script_extensions self) = false ->
    str.mem (str.lower (pathlib.suffix p)) (Scanner.junk_extensions self) = true ->
    fst (Scanner._classify_file h self w p age_seconds size_threshold_bytes)
    = Ok (match size_threshold_bytes with
          | Some t => if andb (negb (t =? 0)) (st_size st <? t) then None else Some "junk"
          | None => Some "junk"
          end).
Proof.
  intros h self w p age thr st E Hwl Hold Hd Hs Hj.
  rewrite (classify_old_enough h self w p age thr st E Hwl Hold).
  unfold by_rules; rewrite Hd, Hs, Hj.
  destruct thr as [t|]; cbn [truthy int_of andb]; [| reflexivity].
  destruct (andb _ _); reflexivity.
Qed.

(** The scenario [/tmp/app.tmp]: two days old, 2048 bytes, threshold 1024. *)
Lemma junk_extension_rule_witness :
  fst (Scanner._classify_file Sample.host Sample.scanner Sample.w0 "/tmp/app.tmp"
         (Some 86400) (Some 1024))
  = Ok (Some "junk")
  /\ fst (Scanner._classify_file Sample.host Sample.scanner Sample.w0 "/tmp/app.tmp"
            (Some 86400) (Some 4096))
     = Ok None.
Proof.
  split.
  - refine (junk_extension_rule Sample.host Sample.scanner Sample.w0 "/tmp/app.tmp"
              (Some 86400) (Some 1024)
              {| st_mtime := Sample.t0 - 2 * 86400; st_size := 2048 |} _ _ _ _ _ _);
      try (vm_compute; reflexivity).
    vm_compute; discriminate.
  - refine (junk_extension_rule Sample.host Sample.scanner Sample.w0 "/tmp/app.tmp"
              (Some 86400) (Some 4096)
              {| st_mtime := Sample.t0 - 2 * 86400; st_size := 2048 |} _ _ _ _ _ _);
      try (vm_compute; reflexivity).
    vm_compute; discriminate.
Defined.



(** A category that the cleaner may delete is only given to a file with
    readable metadata, outside the whitelist, that passed the age gate. *)
Lemma classify_deletable_inversion :
  forall (h : Host) (self : Scanner.obj) (w : world) (p : string)
         (age_seconds size_threshold_bytes : option Z) (c : string),
    fst (Scanner._classify_file h self w p age_seconds size_threshold_bytes)
    = Ok (Some c) ->
    In c deletable_categories ->
    exists st,
      os.stat h (fs w) p = Ok st
      /\ Scanner._is_under_whitelist h self p = false
      /\ old_enough h w st age_seconds.
Proof.
  intros h self w p age thr c Hc Hin.
  rewrite classify_answer in Hc.
  assert (Hne : c <> "skip" /\ c <> "skipped").
  { split; intros ->; cbn [deletable_categories In] in Hin;
      repeat (destruct Hin as [Hin | Hin]; [discriminate |]); exact Hin. }
  destruct Hne as [Hskip Hskipped].
  destruct (os.stat h (fs w) p) as [st | e]; [| congruence].
  destruct (Scanner._is_under_whitelist h self p); [congruence |].
  destruct (too_recent h w st age) eqn:Hr; [discriminate |].
  exists st; repeat split.
  destruct age as [a|]; simpl in *; [| exact I].
  apply Z.ltb_ge in Hr; exact Hr.
Qed.

(** X5. On a host other than Windows, where [os.path] is [posixpath]: with
    the path and every configured directory of one kind (all absolute or all
    relative), [_classify_file] returns: it raises nothing. *)
Theorem classify_returns_on_paths_of_one_kind :
  forall (h : Host) (self : Scanner.obj) (w : world) (p : string)
         (age_seconds size_threshold_bytes : option Z),
    platform_system h <> "Windows" ->
    (forall d, In d (Scanner.download_dirs self ++ Scanner.temp_dirs self
                     ++ Scanner.browser_cache_dirs self) ->
               posixpath.isabs d = posixpath.isabs p) ->
    is_ok (fst (Scanner._classify_file h self w p age_seconds size_threshold_bytes))
    = true.
Proof.
  intros h self w p age thr _ Hkind.
  assert (H1 : Scanner.any_commonpath p (Scanner.download_dirs self ++ Scanner.temp_dirs self)
               = Ok (inside_any p (Scanner.download_dirs self ++ Scanner.temp_dirs self))).
  { apply any_commonpath_same_kind; intros d Hin; apply Hkind.
    rewrite app_assoc; apply in_or_app; left; exact Hin. }
  assert (H2 : Scanner.any_commonpath p (Scanner.browser_cache_dirs self)
               = Ok (inside_any p (Scanner.browser_cache_dirs self))).
  { apply any_commonpath_same_kind; intros d Hin; apply Hkind.
    rewrite app_assoc; apply in_or_app; right; exact Hin. }
  rewrite classify_answer.
  destruct (os.stat h (fs w) p) as [st | e]; [| reflexivity].
  destruct (Scanner._is_under_whitelist h self p); [reflexivity |].
  destruct (too_recent h w st age); [reflexivity |].
  unfold by_rules; rewrite H1, H2; cbn [bind].
  repeat match goal with
         | |- context [if ?b then _ else _] => destruct b
         end; reflexivity.
Qed.

Lemma classify_returns_on_paths_of_one_kind_witness :
  is_ok (fst (Scanner._classify_file Sample.host Sample.scanner Sample.w0
                "/opt/tools/setup.exe" (Some 86400) (Some 1024)))
  = true.
Proof.
  refine (classify_returns_on_paths_of_one_kind Sample.host Sample.scanner Sample.w0
            "/opt/tools/setup.exe" (Some 86400) (Some 1024) _ _).
  - vm_compute; discriminate.
  - same_kind.
Defined.

(** ** The whitelist of a Unix host *)

Lemma mem_true_iff :
  forall x l, str.mem x l = true <-> In x l.
Proof.
  intros x l; unfold str.mem; rewrite existsb_exists; split.
  - intros (y & Hy & E); apply String.eqb_eq in E; subst; exact Hy.
  - intros H; exists x; split; [exact H | apply String.eqb_refl].
Qed.

Lemma dedupe_from_complete :
  forall l seen x,
    In x l -> In x seen \/ In x (str.dedupe_from seen l).
Proof.
  induction l as [|y l IH]; intros seen x Hin; [destruct Hin |].
  cbn [str.dedupe_from].
  destruct (str.mem y seen) eqn:M.
  - destruct Hin as [<- | Hin]; [left; apply mem_true_iff; exact M | apply IH; exact Hin].
  - destruct Hin as [<- | Hin]; [right; left; reflexivity |].
    destruct (IH (y :: seen) x Hin) as [[<- | H] | H].
    + right; left; reflexivity.
    + left; exact H.
    + right; right; exact H.
Qed.

Lemma dedupe_complete :
  forall l x, In x l -> In x (str.dedupe l).
Proof.
  intros l x Hin; destruct (dedupe_from_complete l [] x Hin) as [[] | H]; exact H.
Qed.

Lemma unix_dirs_in_scanner_whitelist :
  forall (h : Host) (s W : string),
    s <> "Windows" ->
    In W unix_system_dirs ->
    In W (Scanner._get_whitelist_paths h s).
Proof.
  intros h s W Hs HW; unfold Scanner._get_whitelist_paths.
  apply dedupe_complete.
  assert (Habs : os.path_abspath h W = W).
  { cbn [unix_system_dirs In] in HW.
    repeat (destruct HW as [<- | HW]; [reflexivity |]); destruct HW. }
  rewrite <- Habs at 1. apply in_map. apply filter_In; split.
  - apply dedupe_complete. unfold Scanner.whitelist_candidates.
    destruct (String.eqb_spec s "Windows"); [contradiction |].
    apply in_or_app; left; exact HW.
  - cbn [unix_system_dirs In] in HW.
    repeat (destruct HW as [<- | HW]; [reflexivity |]); destruct HW.
Qed.

(** X6. On every host that is not Windows, whatever its environment, its file
    system and the extra directories, a scanner built by [__init__]
    classifies as ["skipped"] every readable path whose absolute form is one
    of the ten system directories or lies below one. *)
Theorem unix_system_files_are_skipped :
  forall (h : Host) (root : node) (extra : list string) (w : world) (P W : string)
         (age_seconds size_threshold_bytes : option Z),
    platform_system h <> "Windows" ->
    In W unix_system_dirs ->
    os.path_abspath h P = W
    \/ str.startswith (os.path_abspath h P) (W ++ posixpath.sep)%string = true ->
    is_ok (os.stat h (fs w) P) = true ->
    Scanner._classify_file h (Scanner.__init__ h root extra) w P
      age_seconds size_threshold_bytes
    = (Ok (Some "skipped"), w).
Proof.
  intros h root extra w P W age thr Hs HW Hunder Hstat.
  destruct (os.stat h (fs w) P) as [st | e] eqn:E; [| discriminate].
  apply classify_whitelisted with (st := st); [exact E |].
  apply is_under_whitelist_spec. exists W; split; [| exact Hunder].
  cbn [Scanner.__init__ Scanner.whitelist_paths].
  apply unix_dirs_in_scanner_whitelist; assumption.
Qed.

(** [/etc/hosts], of any age, size and extension. *)
Lemma unix_system_files_are_skipped_witness :
  Scanner._classify_file Sample.host (Scanner.__init__ Sample.host Sample.disk [])
    Sample.w0 "/etc/hosts" None (Some 0)
  = (Ok (Some "skipped"), Sample.w0).
Proof.
  refine (unix_system_files_are_skipped Sample.host Sample.disk [] Sample.w0
            "/etc/hosts" "/etc" None (Some 0) _ _ _ _).
  - vm_compute; discriminate.
  - in_list.
  - right; vm_compute; reflexivity.
  - vm_compute; reflexivity.
Defined.

(** ** The report of a scan *)

Lemma classify_ticks :
  forall h self w p age thr,
    (ticks w <= ticks (snd (Scanner._classify_file h self w p age thr)))%nat.
Proof.
  intros h self w p age thr; unfold Scanner._classify_file.
  destruct (os.stat h (fs w) p) as [st | e]; [| cbn [snd]; lia].
  destruct (Scanner._is_under_whitelist h self p); [cbn [snd]; lia |].
  destruct age as [age|]; unfold os.time; cbn [fst snd];
    repeat match goal with
           | |- context [if ?b then _ else _] => destruct b
           end; cbn [snd ticks]; lia.
Qed.

Lemma collect_file_ticks :
  forall h self age thr limits st p,
    (ticks (snd st)
     <= ticks (snd (Scanner.collect_file h self age thr limits st p)))%nat.
Proof.
  intros h self age thr limits [fnd w] p; unfold Scanner.collect_file.
  pose proof (classify_ticks h self w p age thr) as Ht.
  destruct (Scanner._classify_file h self w p age thr) as [r w']; cbn [fst snd] in *.
  destruct (match r with Ok c => c | Raise _ => Some "skipped" end) as [c|];
    [| exact Ht].
  destruct (String.eqb c ""); [exact Ht |].
  destruct (andb _ _); exact Ht.
Qed.

(** The lists and the folders of the report, as the loop builds them. *)
Lemma scan_all_lists :
  forall h self w age thr incl_d incl_c extra limits dry,
    let report :=
      fst (fst (Scanner.scan_all h self w age thr incl_d incl_c extra limits dry)) in
    Scanner.scanned_folders report
    = filter (os.path_exists h (fs w))
        (str.dedupe (requested_folders self incl_d incl_c extra))
    /\ Scanner.lists report
       = fst (fold_left (Scanner.collect_file h self age thr (limits_of limits))
                (visited_files h (fs w) (Scanner.scanned_folders report))
                (Scanner.empty_found, w)).
Proof.
  intros h self w age thr incl_d incl_c extra limits dry.
  unfold Scanner.scan_all, requested_folders; cbv zeta.
  rewrite walk_and_collect_as_fold; cbn [snd].
  destruct (fold_left _ _ (Scanner.empty_found, w)) as [fnd w'] eqn:E.
  cbn [fst Scanner.lists Scanner.scanned_folders].
  split; [reflexivity | rewrite E; reflexivity].
Qed.

Lemma stored_empty_found :
  forall k, stored Scanner.empty_found k = [].
Proof.
  intros k; unfold stored, Scanner.empty_found; cbn [dict.get].
  repeat match goal with
         | |- context [if ?b then _ else _] => destruct b
         end; reflexivity.
Qed.

(** Whatever holds of a path and its category when the walker classifies
    the path holds of every stored path and the list it is in. *)
Lemma stored_paths_invariant :
  forall h self age thr limits w0 (Q : string -> string -> Prop) ps,
    (forall w p c,
        fs w = fs w0 -> (ticks w0 <= ticks w)%nat -> In p ps ->
        category_of h self age thr w p = Some c -> Q c p) ->
    forall c p,
      In p (stored (fst (fold_left (Scanner.collect_file h self age thr limits) ps
                           (Scanner.empty_found, w0))) c) ->
      Q c p.
Proof.
  intros h self age thr limits w0 Q ps HQ.
  assert (Hinv :
            let st := fold_left (Scanner.collect_file h self age thr limits) ps
                        (Scanner.empty_found, w0) in
            fs (snd st) = fs w0
            /\ (ticks w0 <= ticks (snd st))%nat
            /\ forall c p, In p (stored (fst st) c) -> Q c p).
  { apply fold_left_invariant.
    - split; [reflexivity | split; [cbn [snd]; lia |]].
      intros c p Hin; cbn [fst] in Hin; rewrite stored_empty_found in Hin; destruct Hin.
    - intros [fnd w] b Hb (Hfs & Ht & Hall); cbn [fst snd] in *.
      split; [rewrite collect_file_fs; exact Hfs |].
      split; [pose proof (collect_file_ticks h self age thr limits (fnd, w) b) as H;
              cbn [snd] in H; lia |].
      intros c p Hin.
      pose proof (collect_file_spec h self age thr limits fnd w b) as Hspec;
        cbv zeta in Hspec.
      destruct (category_of h self age thr w b) as [cb|] eqn:Hcat;
        [| rewrite Hspec in Hin; auto].
      destruct (orb _ _); [rewrite Hspec in Hin; auto |].
      destruct Hspec as [Hother Hc].
      destruct (String.eqb_spec c cb) as [-> | Hne].
      + rewrite Hc in Hin. apply in_app_or in Hin as [Hin | [<- | []]]; [auto |].
        eapply HQ; eauto.
      + rewrite Hother in Hin by exact Hne; auto. }
  cbv zeta in Hinv. destruct Hinv as (_ & _ & Hall); exact Hall.
Qed.

(** X7. Every path in the report was handed to the classifier by the walk of a
    scanned folder; the report holds nothing else. *)
Theorem stored_paths_were_visited :
  forall (h : Host) (self : Scanner.obj) (w : world)
         (age_seconds size_threshold_bytes : option Z)
         (include_downloads include_browser_cache : bool)
         (extra_scan_dirs : list string) (category_limits : option (dict.t Z))
         (dry : bool) (c : string) (l : list string) (p : string),
    let report :=
      fst (fst (Scanner.scan_all h self w age_seconds size_threshold_bytes
                  include_downloads include_browser_cache extra_scan_dirs
                  category_limits dry)) in
    dict.get (Scanner.lists report) c = Some l ->
    In p l ->
    In p (visited_files h (fs w) (Scanner.scanned_folders report)).
Proof.
  intros h self w age thr incl_d incl_c extra limits dry c l p report Hget Hin.
  destruct (scan_all_lists h self w age thr incl_d incl_c extra limits dry)
    as [_ Hlists].
  fold report in Hlists.
  apply (stored_paths_invariant h self age thr (limits_of limits) w
           (fun _ q => In q (visited_files h (fs w) (Scanner.scanned_folders report)))
           (visited_files h (fs w) (Scanner.scanned_folders report)))
    with (c := c).
  - intros w' q c' _ _ Hq _; exact Hq.
  - rewrite <- Hlists. unfold stored; rewrite Hget; exact Hin.
Qed.

Lemma stored_paths_were_visited_witness :
  In "/tmp/app.tmp"
    (visited_files Sample.host (fs Sample.w0)
       (Scanner.scanned_folders
          (fst (fst (Scanner.scan_all Sample.host Sample.scanner Sample.w0
                       (Some 86400) (Some 1024) false false [] None true))))).
Proof.
  refine (stored_paths_were_visited Sample.host Sample.scanner Sample.w0
            (Some 86400) (Some 1024) false false [] None true
            "junk" ["/tmp/app.tmp"] "/tmp/app.tmp" _ _).
  - vm_compute; reflexivity.
  - left; reflexivity.
Defined.

(** X8. Every path the report lists as junk, large, suspicious or harmful had
    readable metadata, lies outside the whitelist, and, when an age threshold
    is set, was at least that old on a clock reading of the scan. *)
Theorem deletable_lists_are_sound :
  forall (h : Host) (self : Scanner.obj) (w : world)
         (age_seconds size_threshold_bytes : option Z)
         (include_downloads include_browser_cache : bool)
         (extra_scan_dirs : list string) (category_limits : option (dict.t Z))
         (dry : bool) (c : string) (l : list string) (p : string),
    let report :=
      fst (fst (Scanner.scan_all h self w age_seconds size_threshold_bytes
                  include_downloads include_browser_cache extra_scan_dirs
                  category_limits dry)) in
    In c deletable_categories ->
    dict.get (Scanner.lists report) c = Some l ->
    In p l ->
    exists st,
      os.stat h (fs w) p = Ok st
      /\ Scanner._is_under_whitelist h self p = false
      /\ match age_seconds with
         | None => True
         | Some age =>
             exists k, (ticks w <= k)%nat /\ age <= clock h k - st_mtime st
         end.
Proof.
  intros h self w age thr incl_d incl_c extra limits dry c l p report Hc Hget Hin.
  destruct (scan_all_lists h self w age thr incl_d incl_c extra limits dry)
    as [_ Hlists].
  fold report in Hlists.
  apply (stored_paths_invariant h self age thr (limits_of limits) w
           (fun c q =>
              In c deletable_categories ->
              exists st,
                os.stat h (fs w) q = Ok st
                /\ Scanner._is_under_whitelist h self q = false
                /\ match age with
                   | None => True
                   | Some a => exists k, (ticks w <= k)%nat /\ a <= clock h k - st_mtime st
                   end)
           (visited_files h (fs w) (Scanner.scanned_folders report)))
    with (c := c); [| | exact Hc].
  - intros w' q c' Hfs Ht _ Hcat Hc'.
    unfold category_of in Hcat.
    destruct (fst (Scanner._classify_file h self w' q age thr)) as [r | e] eqn:E.
    + subst r.
      destruct (classify_deletable_inversion h self w' q age thr c' E Hc')
        as (st & Hst & Hwl & Hold).
      exists st; rewrite <- Hfs; split; [exact Hst | split; [exact Hwl |]].
      destruct age as [a|]; [| exact I].
      exists (ticks w'); split; [exact Ht | exact Hold].
    + injection Hcat as <-. cbn [deletable_categories In] in Hc'.
      repeat (destruct Hc' as [Hc' | Hc']; [discriminate |]); destruct Hc'.
  - rewrite <- Hlists. unfold stored; rewrite Hget; exact Hin.
Qed.

Lemma deletable_lists_are_sound_witness :
  exists st,
    os.stat Sample.host (fs Sample.w0) "/tmp/app.tmp" = Ok st
    /\ Scanner._is_under_whitelist Sample.host Sample.scanner "/tmp/app.tmp" = false
    /\ exists k, (ticks Sample.w0 <= k)%nat
                 /\ 86400 <= clock Sample.host k - st_mtime st.
Proof.
  refine (deletable_lists_are_sound Sample.host Sample.scanner Sample.w0
            (Some 86400) (Some 1024) false false [] None true
            "junk" ["/tmp/app.tmp"] "/tmp/app.tmp" _ _ _).
  - in_list.
  - vm_compute; reflexivity.
  - left; reflexivity.
Defined.

(** X9. A cap that is set (not [0]) bounds the stored list of its category: the
    list never grows beyond the cap, and stays empty under a negative one. *)
Theorem category_cap_is_respected :
  forall (h : Host) (self : Scanner.obj) (w : world)
         (age_seconds size_threshold_bytes : option Z)
         (include_downloads include_browser_cache : bool)
         (extra_scan_dirs : list string) (category_limits : dict.t Z)
         (dry : bool) (c : string) (n : Z),
    let report :=
      fst (fst (Scanner.scan_all h self w age_seconds size_threshold_bytes
                  include_downloads include_browser_cache extra_scan_dirs
                  (Some category_limits) dry)) in
    dict.get category_limits c = Some n ->
    n <> 0 ->
    Z.of_nat (List.length (stored (Scanner.lists report) c)) <= Z.max n 0.
Proof.
  intros h self w age thr incl_d incl_c extra limits dry c n report Hn Hn0.
  destruct (scan_all_lists h self w age thr incl_d incl_c extra (Some limits) dry)
    as [_ Hlists].
  fold report in Hlists; rewrite Hlists; cbn [limits_of].
  apply (fold_left_invariant _ _
           (fun st : Scanner.found * world =>
              Z.of_nat (List.length (stored (fst st) c)) <= Z.max n 0)).
  - cbn [fst]; rewrite stored_empty_found; cbn [List.length]; lia.
  - intros [fnd w'] b _ Hlen; cbn [fst] in *.
    pose proof (collect_file_spec h self age thr limits fnd w' b) as Hspec;
      cbv zeta in Hspec.
    destruct (category_of h self age thr w' b) as [cb|];
      [| rewrite Hspec; exact Hlen].
    destruct (orb _ _) eqn:Hcap; [rewrite Hspec; exact Hlen |].
    destruct Hspec as [Hother Hc].
    destruct (String.eqb_spec c cb) as [<- | Hne];
      [| rewrite Hother by exact Hne; exact Hlen].
    rewrite Hc, length_app; cbn [List.length].
    apply orb_false_iff in Hcap as [_ Hcap].
    rewrite Hn in Hcap; cbn [truthy int_of] in Hcap.
    destruct (Z.eqb_spec n 0); [contradiction |]. cbn [negb andb] in Hcap.
    destruct (Z.geb_spec (Z.of_nat (List.length (stored fnd c))) n); [discriminate |].
    lia.
Qed.

Lemma category_cap_is_respected_witness :
  Z.of_nat
    (List.length
       (stored
          (Scanner.lists
             (fst (fst (Scanner.scan_all Sample.host Sample.scanner Sample.w0
                          (Some 86400) (Some 1024) false true [] (Some [("large", 2)])
                          true))))
          "large"))
  <= Z.max 2 0.
Proof.
  refine (category_cap_is_respected Sample.host Sample.scanner Sample.w0
            (Some 86400) (Some 1024) false true [] [("large", 2)] true "large" 2 _ _).
  - reflexivity.
  - discriminate.
Defined.

Lemma sum_Z_cons :
  forall x l, sum_Z (x :: l) = x + sum_Z l.
Proof. reflexivity. Qed.

Lemma count_and_size_from :
  forall h root files c0 s0,
    fold_left
      (fun acc p =>
         let '(count, size) := acc in
         match os.path_getsize h root p with
         | Ok n => (count + 1, size + n)
         | Raise _ => (count + 1, size)
         end)
      files (c0, s0)
    = (c0 + Z.of_nat (List.length files),
       s0 + sum_Z (map (size_or_zero h root) files)).
Proof.
  intros h root files; induction files as [|p files IH]; intros c0 s0.
  - cbn; f_equal; lia.
  - cbn [fold_left map List.length].
    rewrite sum_Z_cons; unfold size_or_zero at 1.
    destruct (os.path_getsize h root p) as [n | e]; rewrite IH; f_equal; lia.
Qed.

Lemma dict_get_map :
  forall (V U : Type) (f : V -> U) (d : dict.t V) (k : string),
    dict.get (map (fun kv => (fst kv, f (snd kv))) d) k = option_map f (dict.get d k).
Proof.
  intros V U f d k; induction d as [|[k' v] d IH]; cbn [map dict.get fst snd].
  - reflexivity.
  - destruct (String.eqb k' k); [reflexivity | exact IH].
Qed.

Lemma sum_values_map :
  forall (V : Type) (f : V -> Z) (d : dict.t V),
    Scanner.sum_values (map (fun kv => (fst kv, f (snd kv))) d)
    = sum_Z (map (fun kv => f (snd kv)) d).
Proof.
  intros V f d; unfold Scanner.sum_values.
  assert (H : forall a,
             fold_left (fun acc (kv : string * Z) => acc + snd kv)
               (map (fun kv => (fst kv, f (snd kv))) d) a
             = a + sum_Z (map (fun kv => f (snd kv)) d)).
  { induction d as [|[k v] d IH]; intros a; cbn [map fold_left fst snd].
    - cbn; lia.
    - rewrite IH, sum_Z_cons; lia. }
  rewrite H; lia.
Qed.

(** X10. The numbers of the report are read off its lists. The count of a
    category is the length of its stored list, also for paths whose size
    cannot be read; [total_files] is the sum of the counts. The size of a
    category is the display string [_human] makes of the sum of the sizes
    that can be read, and [total_size] the string it makes of the sum over
    all categories, for sums below [2^53] bytes. The scan leaves the file
    system as it was. *)
Theorem report_counts_and_sizes :
  forall (h : Host) (self : Scanner.obj) (w : world)
         (age_seconds size_threshold_bytes : option Z)
         (include_downloads include_browser_cache : bool)
         (extra_scan_dirs : list string) (category_limits : option (dict.t Z))
         (dry : bool),
    let result :=
      Scanner.scan_all h self w age_seconds size_threshold_bytes
        include_downloads include_browser_cache extra_scan_dirs category_limits dry in
    let report := fst (fst result) in
    let root := fs (snd result) in
    let bytes := fun l : list string => sum_Z (map (size_or_zero h root) l) in
    let total_bytes := sum_Z (map (fun kv => bytes (snd kv)) (Scanner.lists report)) in
    (forall c,
        dict.get (Scanner.counts report) c
        = option_map (fun l => Z.of_nat (List.length l)) (dict.get (Scanner.lists report) c))
    /\ Scanner.total_files report
       = sum_Z (map (fun kv => Z.of_nat (List.length (snd kv))) (Scanner.lists report))
    /\ (forall c l,
           dict.get (Scanner.lists report) c = Some l ->
           bytes l < 2 ^ 53 ->
           dict.get (Scanner.sizes report) c = Some (Scanner._human (bytes l)))
    /\ (forall c,
           dict.get (Scanner.lists report) c = None ->
           dict.get (Scanner.sizes report) c = None)
    /\ (total_bytes < 2 ^ 53 -> Scanner.total_size report = Scanner._human total_bytes)
    /\ root = fs w.
Proof.
  intros h self w age thr incl_d incl_c extra limits dry.
  unfold Scanner.scan_all; cbv zeta.
  rewrite walk_and_collect_as_fold; cbn [snd].
  pose proof (fold_collect_fs h self age thr (limits_of limits)
                (visited_files h (fs w)
                   (filter (os.path_exists h (fs w))
                      (str.dedupe
                         (Scanner.temp_dirs self
                          ++ (if incl_c then Scanner.browser_cache_dirs self else [])
                          ++ (if incl_d then Scanner.download_dirs self else [])
                          ++ extra))))
                (Scanner.empty_found, w)) as Hfs.
  destruct (fold_left _ _ (Scanner.empty_found, w)) as [fnd w'].
  cbn [fst snd Scanner.counts Scanner.sizes Scanner.lists Scanner.total_files
         Scanner.total_size] in *.
  assert (Hcs : forall l,
             Scanner.count_and_size h (fs w') l
             = (Z.of_nat (List.length l), sum_Z (map (size_or_zero h (fs w')) l))).
  { intros l; unfold Scanner.count_and_size; rewrite count_and_size_from; reflexivity. }
  assert (Hsizes : forall c,
             dict.get
               (map (fun kv : string * Z => (fst kv, Scanner._human (snd kv)))
                  (map (fun kv : string * list string =>
                          (fst kv, snd (Scanner.count_and_size h (fs w') (snd kv)))) fnd)) c
             = option_map
                 (fun l => Scanner._human (sum_Z (map (size_or_zero h (fs w')) l)))
                 (dict.get fnd c)).
  { intros c; rewrite map_map; cbn [fst snd].
    rewrite (dict_get_map _ _
               (fun l => Scanner._human (snd (Scanner.count_and_size h (fs w') l)))).
    destruct (dict.get fnd c); [| reflexivity]. cbn [option_map]; rewrite Hcs; reflexivity. }
  split; [| split; [| split; [| split; [| split]]]].
  - intros c.
    rewrite (dict_get_map _ _ (fun l => fst (Scanner.count_and_size h (fs w') l))).
    destruct (dict.get fnd c); [| reflexivity]. cbn [option_map]; rewrite Hcs; reflexivity.
  - rewrite (sum_values_map _ (fun l => fst (Scanner.count_and_size h (fs w') l))).
    f_equal; apply map_ext; intros kv; rewrite Hcs; reflexivity.
  - intros c l Hl _; rewrite Hsizes, Hl; reflexivity.
  - intros c Hl; rewrite Hsizes, Hl; reflexivity.
  - intros _.
    rewrite (sum_values_map _ (fun l => snd (Scanner.count_and_size h (fs w') l))).
    f_equal; f_equal; apply map_ext; intros kv; rewrite Hcs; reflexivity.
  - exact Hfs.
Qed.

(** The scan of the sample host with downloads included. The 25 MiB
    [blob] is met twice, below the temp directory [~/.cache] and below the
    browser cache inside it, and counted twice. *)
Lemma report_counts_and_sizes_witness :
  let report :=
    fst (fst (Scanner.scan_all Sample.host Sample.scanner Sample.w0
                (Some 86400) (Some 1024) true true [] None true)) in
  dict.get (Scanner.sizes report) "large" = Some "80.0 MB"
  /\ dict.get (Scanner.sizes report) "junk" = Some "2.0 KB"
  /\ dict.get (Scanner.sizes report) "suspicious" = Some "100 B"
  /\ Scanner.total_size report = "85.0 MB".
Proof.
  pose proof (report_counts_and_sizes Sample.host Sample.scanner Sample.w0
                (Some 86400) (Some 1024) true true [] None true) as H.
  cbv zeta in *. destruct H as (_ & _ & Hsizes & _ & Htotal & _).
  split; [| split; [| split]].
  - rewrite (Hsizes "large" ["/tmp/big.iso"; "/home/user/.cache/mozilla/blob";
                             "/home/user/.cache/mozilla/blob"]);
      vm_compute; reflexivity.
  - rewrite (Hsizes "junk" ["/tmp/app.tmp"]); vm_compute; reflexivity.
  - rewrite (Hsizes "suspicious" ["/tmp/sub/run.sh"]); vm_compute; reflexivity.
  - rewrite Htotal; vm_compute; reflexivity.
Defined.

Lemma dict_keys_set :
  forall (V : Type) (d : dict.t V) (k : string) (v : V),
    map fst (dict.set d k v)
    = if dict.contains d k then map fst d else map fst d ++ [k].
Proof.
  intros V d k v; unfold dict.contains; induction d as [|[k' v'] d IH];
    cbn [dict.set dict.get map fst app].
  - reflexivity.
  - destruct (String.eqb k' k); cbn [map fst].
    + reflexivity.
    + rewrite IH. destruct (dict.get d k); reflexivity.
Qed.

Lemma dict_contains_keys :
  forall (V : Type) (d : dict.t V) (k : string),
    dict.contains d k = true <-> In k (map fst d).
Proof.
  intros V d k; unfold dict.contains; induction d as [|[k' v'] d IH];
    cbn [dict.get map fst In].
  - split; [discriminate | intros []].
  - destruct (String.eqb_spec k' k) as [-> | Hne].
    + split; auto.
    + rewrite IH; split; [auto | intros [H | H]; [contradiction | exact H]].
Qed.

Lemma collect_file_keys :
  forall h self age thr limits fnd w p,
    let fnd' := fst (Scanner.collect_file h self age thr limits (fnd, w) p) in
    map fst fnd' = map fst fnd
    \/ exists c, category_of h self age thr w p = Some c
                 /\ dict.contains fnd c = false
                 /\ map fst fnd' = map fst fnd ++ [c].
Proof.
  intros h self age thr limits fnd w p; unfold Scanner.collect_file, category_of.
  destruct (Scanner._classify_file h self w p age thr) as [r w'] eqn:E; cbn [fst snd].
  destruct (match r with Ok c => c | Raise _ => Some "skipped" end) as [c|];
    [| left; reflexivity].
  destruct (String.eqb c ""); [left; reflexivity |].
  assert (Hset : forall (l : list string) (fnd1 : Scanner.found),
             dict.contains fnd1 c = true ->
             map fst (dict.set fnd1 c l) = map fst fnd1).
  { intros l fnd1 Hc; rewrite dict_keys_set, Hc; reflexivity. }
  destruct (dict.contains fnd c) eqn:C.
  - left. destruct (andb _ _); cbn [fst]; [reflexivity | apply Hset; exact C].
  - right; exists c; split; [reflexivity | split; [exact C |]].
    assert (Hk : map fst (dict.set fnd c []) = map fst fnd ++ [c])
      by (rewrite dict_keys_set, C; reflexivity).
    destruct (andb _ _); cbn [fst]; [exact Hk |].
    rewrite Hset; [exact Hk |].
    apply dict_contains_keys; rewrite Hk; apply in_or_app; right; left; reflexivity.
Qed.

(** The list a visited file is filed under, when it is filed at all. *)
Lemma category_of_range :
  forall h self age thr w p c,
    category_of h self age thr w p = Some c -> In c (categories ++ ["skip"]).
Proof.
  intros h self age thr w p c; unfold category_of; rewrite classify_answer.
  destruct (os.stat h (fs w) p) as [st | e].
  - destruct (Scanner._is_under_whitelist h self p);
      [intros H; injection H as <-; in_list |].
    destruct (too_recent h w st age); [discriminate |].
    pose proof (by_rules_range self p (st_size st) thr) as H.
    destruct (by_rules self p (st_size st) thr) as [[c'|] | e].
    + intros Hc; injection Hc as <-; apply in_or_app; left; exact H.
    + discriminate.
    + intros Hc; injection Hc as <-; in_list.
  - intros H; injection H as <-; in_list.
Qed.

(** X11. The report always has the five categories, in their fixed order; the
    only key that can join them is ["skip"], at the end. Counts and sizes
    have the keys of the lists. *)
Theorem report_keys :
  forall (h : Host) (self : Scanner.obj) (w : world)
         (age_seconds size_threshold_bytes : option Z)
         (include_downloads include_browser_cache : bool)
         (extra_scan_dirs : list string) (category_limits : option (dict.t Z))
         (dry : bool),
    let report :=
      fst (fst (Scanner.scan_all h self w age_seconds size_threshold_bytes
                  include_downloads include_browser_cache extra_scan_dirs
                  category_limits dry)) in
    (map fst (Scanner.lists report) = categories
     \/ map fst (Scanner.lists report) = categories ++ ["skip"])
    /\ map fst (Scanner.counts report) = map fst (Scanner.lists report)
    /\ map fst (Scanner.sizes report) = map fst (Scanner.lists report).
Proof.
  intros h self w age thr incl_d incl_c extra limits dry report.
  split.
  - destruct (scan_all_lists h self w age thr incl_d incl_c extra limits dry)
      as [_ Hlists].
    fold report in Hlists; rewrite Hlists.
    apply (fold_left_invariant _ _
             (fun st : Scanner.found * world =>
                map fst (fst st) = categories \/ map fst (fst st) = categories ++ ["skip"])).
    + left; reflexivity.
    + intros [fnd w'] b _ Hkeys; cbn [fst] in *.
      destruct (collect_file_keys h self age thr (limits_of limits) fnd w' b)
        as [-> | (c & Hcat & Hnew & ->)]; [exact Hkeys |].
      assert (Hrange : In c (categories ++ ["skip"]))
        by exact (category_of_range h self age thr w' b c Hcat).
      assert (Hnot : ~ In c (map fst fnd)).
      { intros Hin; apply dict_contains_keys in Hin; congruence. }
      destruct Hkeys as [Hk | Hk]; rewrite Hk in *.
      * right. apply in_app_or in Hrange as [Hin | [<- | []]];
          [contradiction | reflexivity].
      * contradiction.
  - subst report; unfold Scanner.scan_all; cbv zeta.
    destruct (Scanner._walk_and_collect _ _ _ _ _ _ _) as [fnd w'].
    cbn [fst Scanner.counts Scanner.sizes Scanner.lists].
    rewrite !map_map; cbn [fst]; split; reflexivity.
Qed.

Lemma dedupe_from_NoDup :
  forall l seen,
    NoDup (str.dedupe_from seen l)
    /\ forall x, In x (str.dedupe_from seen l) -> ~ In x seen.
Proof.
  induction l as [|y l IH]; intros seen; cbn [str.dedupe_from].
  - split; [constructor | intros x []].
  - destruct (str.mem y seen) eqn:M; [apply IH |].
    destruct (IH (y :: seen)) as [Hnd Hout]. split.
    + constructor; [| exact Hnd].
      intros Hin; apply (Hout y Hin); left; reflexivity.
    + intros x [<- | Hin].
      * intros Hin; apply mem_true_iff in Hin; congruence.
      * intros Hs; apply (Hout x Hin); right; exact Hs.
Qed.

(** X12. The folders a scan walks are the requested folders that exist, each
    once: temp folders, browser caches and download folders as asked for,
    and the extra folders of the call. *)
Theorem scanned_folders_exist_once :
  forall (h : Host) (self : Scanner.obj) (w : world)
         (age_seconds size_threshold_bytes : option Z)
         (include_downloads include_browser_cache : bool)
         (extra_scan_dirs : list string) (category_limits : option (dict.t Z))
         (dry : bool),
    let report :=
      fst (fst (Scanner.scan_all h self w age_seconds size_threshold_bytes
                  include_downloads include_browser_cache extra_scan_dirs
                  category_limits dry)) in
    NoDup (Scanner.scanned_folders report)
    /\ forall f,
        In f (Scanner.scanned_folders report)
        <-> In f (requested_folders self include_downloads include_browser_cache
                    extra_scan_dirs)
            /\ os.path_exists h (fs w) f = true.
Proof.
  intros h self w age thr incl_d incl_c extra limits dry report.
  destruct (scan_all_lists h self w age thr incl_d incl_c extra limits dry)
    as [Hfolders _].
  fold report in Hfolders; rewrite Hfolders. split.
  - apply NoDup_filter. apply (dedupe_from_NoDup _ []).
  - intros f; rewrite filter_In. split; intros [Hin Hex]; split; auto.
    + apply dedupe_from_incl in Hin; exact Hin.
    + apply dedupe_complete; exact Hin.
Qed.

(** X13. When none of the requested folders exists the scan still returns:
    no folder scanned, the five lists empty, every count [0] and every size
    ["0 B"], [total_files] [0] and [total_size] ["0 B"], nothing read from
    the clock. *)
Theorem scan_of_nothing_is_empty :
  forall (h : Host) (self : Scanner.obj) (w : world)
         (age_seconds size_threshold_bytes : option Z)
         (include_downloads include_browser_cache : bool)
         (extra_scan_dirs : list string) (category_limits : option (dict.t Z))
         (dry : bool),
    (forall f, In f (requested_folders self include_downloads include_browser_cache
                       extra_scan_dirs) ->
               os.path_exists h (fs w) f = false) ->
    let result :=
      Scanner.scan_all h self w age_seconds size_threshold_bytes
        include_downloads include_browser_cache extra_scan_dirs category_limits dry in
    Scanner.scanned_folders (fst (fst result)) = []
    /\ Scanner.lists (fst (fst result)) = Scanner.empty_found
    /\ Scanner.counts (fst (fst result)) = map (fun c => (c, 0)) categories
    /\ Scanner.sizes (fst (fst result)) = map (fun c => (c, "0 B")) categories
    /\ Scanner.total_files (fst (fst result)) = 0
    /\ Scanner.total_size (fst (fst result)) = "0 B"
    /\ snd result = w.
Proof.
  intros h self w age thr incl_d incl_c extra limits dry Hnone.
  assert (Hempty : filter (os.path_exists h (fs w))
                     (str.dedupe (requested_folders self incl_d incl_c extra)) = []).
  { destruct (filter _ _) as [|f l] eqn:F; [reflexivity |].
    assert (Hin : In f (f :: l)) by (left; reflexivity).
    rewrite <- F in Hin. apply filter_In in Hin as [Hin Hex].
    apply dedupe_from_incl in Hin. rewrite (Hnone f Hin) in Hex; discriminate. }
  unfold requested_folders in Hempty.
  unfold Scanner.scan_all; cbv zeta; rewrite Hempty.
  repeat split; reflexivity.
Qed.

(** A host whose disk is empty, asked to scan [/data]. *)
Lemma scan_of_nothing_is_empty_witness :
  let bare := {| fs := Sample.dir []; ticks := 0 |} in
  let result :=
    Scanner.scan_all Sample.host (Scanner.__init__ Sample.host (Sample.dir []) [])
      bare (Some 86400) (Some 1024) true true ["/data"] None true in
  Scanner.scanned_folders (fst (fst result)) = []
  /\ Scanner.lists (fst (fst result)) = Scanner.empty_found
  /\ Scanner.counts (fst (fst result)) = map (fun c => (c, 0)) categories
  /\ Scanner.sizes (fst (fst result)) = map (fun c => (c, "0 B")) categories
  /\ Scanner.total_files (fst (fst result)) = 0
  /\ Scanner.total_size (fst (fst result)) = "0 B"
  /\ snd result = bare.
Proof.
  refine (scan_of_nothing_is_empty Sample.host
            (Scanner.__init__ Sample.host (Sample.dir []) [])
            {| fs := Sample.dir []; ticks := 0 |}
            (Some 86400) (Some 1024) true true ["/data"] None true _).
  intros f Hin; vm_compute in Hin.
  repeat (destruct Hin as [Hin | Hin]; [subst f; vm_compute; reflexivity |]).
  destruct Hin.
Defined.

(** The display strings: an [int] below 1024 is printed as it is, a float
    with two decimals at most and one at least; [1152 / 1024 = 1.125] is a
    tie and goes to the even digit. *)
Example human_sample :
  Scanner._human 0 = "0 B"
  /\ Scanner._human 1023 = "1023 B"
  /\ Scanner._human 1024 = "1.0 KB"
  /\ Scanner._human 1152 = "1.12 KB"
  /\ Scanner._human (30 * Sample.MiB) = "30.0 MB"
  /\ Scanner._human (1024 * 1024 - 1) = "1024.0 KB"
  /\ Scanner._human (2 ^ 53 - 1) = "8.0 PB".
Proof. repeat split; vm_compute; reflexivity. Qed.

(** ** Removing a file *)

Lemma get_entry_del_same :
  forall c es, os.get_entry c (os.del_entry c es) = None.
Proof.
  intros c es; unfold os.get_entry, os.del_entry.
  induction es as [|[k v] es IH]; cbn [filter find fst]; [reflexivity |].
  destruct (String.eqb_spec k c) as [-> | Hk]; cbn [negb]; [exact IH |].
  cbn [find fst]. destruct (String.eqb_spec k c); [contradiction | exact IH].
Qed.

Lemma get_entry_del_other :
  forall c d es, d <> c -> os.get_entry d (os.del_entry c es) = os.get_entry d es.
Proof.
  intros c d es Hd; unfold os.get_entry, os.del_entry.
  induction es as [|[k v] es IH]; cbn [filter find fst]; [reflexivity |].
  destruct (String.eqb_spec k c) as [-> | Hk]; cbn [negb].
  - destruct (String.eqb_spec c d); [congruence | exact IH].
  - cbn [find fst]. destruct (String.eqb k d); [reflexivity | exact IH].
Qed.

Lemma delete_at_succeeds :
  forall cs root t,
    cs <> [] -> os.lookup root cs = Some t ->
    exists root', os.delete_at cs root = Some root'.
Proof.
  induction cs as [|c cs IH]; intros root t Hne Hl; [contradiction |].
  cbn [os.lookup os.delete_at] in *.
  destruct root as [st | | st es]; try discriminate.
  destruct (os.get_entry c es) as [ch|]; [| discriminate].
  destruct cs as [|c2 cs]; [eauto |].
  destruct (IH ch t) as [ch' ->]; [discriminate | exact Hl | eauto].
Qed.

(** After a deletion nothing is found at the deleted place. *)
Lemma delete_at_gone :
  forall cs root root',
    os.delete_at cs root = Some root' -> os.lookup root' cs = None.
Proof.
  induction cs as [|c cs IH]; intros root root' Hdel; [discriminate |].
  cbn [os.delete_at] in Hdel.
  destruct root as [st | | st es]; try discriminate.
  destruct cs as [|c2 cs].
  - injection Hdel as <-. cbn [os.lookup]. rewrite get_entry_del_same; reflexivity.
  - destruct (os.get_entry c es) as [ch|] eqn:G; [| discriminate].
    destruct (os.delete_at (c2 :: cs) ch) as [ch'|] eqn:D; [| discriminate].
    injection Hdel as <-. cbn [os.lookup].
    rewrite get_entry_set, String.eqb_refl, G.
    exact (IH ch ch' D).
Qed.

(** A deletion leaves every other place as it was: what is found there has
    the same kind and metadata, and a file is the same file. *)
Lemma lookup_delete_at_elsewhere :
  forall cs root root' ds m,
    os.delete_at cs root = Some root' ->
    os.lookup root ds = Some m ->
    (forall r, ds <> cs ++ r) ->
    exists m', os.lookup root' ds = Some m'
               /\ match m with
                  | Dir st _ => exists es', m' = Dir st es'
                  | _ => m' = m
                  end.
Proof.
  induction cs as [|c cs IH]; intros root root' ds m Hdel Hl Hnp; [discriminate |].
  cbn [os.delete_at] in Hdel.
  destruct root as [st | | st es]; try discriminate.
  destruct ds as [|d ds].
  - cbn [os.lookup] in Hl; injection Hl as <-.
    destruct (delete_at_dir (c :: cs) (Dir st es) root' Hdel) as (st' & es0 & es' & E & ->).
    injection E as <- <-. exists (Dir st es'); split; [reflexivity | eauto].
  - cbn [os.lookup] in Hl.
    destruct (os.get_entry d es) as [chd|] eqn:Gd; [| discriminate].
    destruct cs as [|c2 cs].
    + injection Hdel as <-. cbn [os.lookup].
      assert (Hd : d <> c).
      { intros ->; apply (Hnp ds); reflexivity. }
      rewrite (get_entry_del_other c d es Hd), Gd.
      exists m; split; [exact Hl | destruct m; eauto].
    + destruct (os.get_entry c es) as [ch|] eqn:G; [| discriminate].
      destruct (os.delete_at (c2 :: cs) ch) as [ch'|] eqn:D; [| discriminate].
      injection Hdel as <-. cbn [os.lookup].
      rewrite get_entry_set.
      destruct (String.eqb_spec d c) as [-> | Hd].
      * rewrite G. rewrite G in Gd; injection Gd as <-.
        apply (IH ch ch' ds m D Hl).
        intros r E; apply (Hnp r); cbn [app]; rewrite E; reflexivity.
      * rewrite Gd. exists m; split; [exact Hl | destruct m; eauto].
Qed.

Lemma lookup_through_file :
  forall cs root t r,
    os.lookup root cs = Some t -> os.is_dir_node t = false -> r <> [] ->
    os.lookup root (cs ++ r) = None.
Proof.
  induction cs as [|c cs IH]; intros root t r Hl Ht Hr; cbn [os.lookup app] in *.
  - injection Hl as <-. destruct r as [|x r]; [contradiction |].
    cbn [os.lookup]. destruct root; [reflexivity | reflexivity | discriminate].
  - destruct root as [st | | st es]; try discriminate.
    destruct (os.get_entry c es) as [ch|]; [| discriminate].
    eapply IH; eauto.
Qed.

(** Deleting something that is not a directory changes no path resolution. *)
Lemma canon_delete_file :
  forall cs root root' t comps acc,
    os.delete_at cs root = Some root' ->
    os.lookup root cs = Some t ->
    os.is_dir_node t = false ->
    os.canon root' acc comps = os.canon root acc comps.
Proof.
  intros cs root root' t comps; induction comps as [|c comps IH];
    intros acc Hdel Hl Ht; cbn [os.canon]; [reflexivity |].
  assert (Hdir : match os.lookup root acc with
                 | Some (Dir _ _) => match os.lookup root' acc with
                                     | Some (Dir _ _) => True
                                     | _ => False
                                     end
                 | _ => match os.lookup root' acc with
                        | Some (Dir _ _) => False
                        | _ => True
                        end
                 end).
  { destruct (os.lookup root acc) as [m|] eqn:L.
    - destruct m as [st | | st es].
      + destruct (os.lookup root' acc) as [[| |st' es']|] eqn:L'; auto.
        destruct (shrunk_lookup root root' acc (Dir st' es')
                    (shrunk_step root root root' cs (shrunk_refl root) Hdel) L')
          as (m0 & Hm0 & Hsh).
        apply shrunk_kind in Hsh as [es0 ->]. congruence.
      + destruct (os.lookup root' acc) as [[| |st' es']|] eqn:L'; auto.
        destruct (shrunk_lookup root root' acc (Dir st' es')
                    (shrunk_step root root root' cs (shrunk_refl root) Hdel) L')
          as (m0 & Hm0 & Hsh).
        apply shrunk_kind in Hsh as [es0 ->]. congruence.
      + destruct (lookup_delete_at_elsewhere cs root root' acc (Dir st es) Hdel L)
          as (m' & -> & (es' & ->)); [| exact I].
        intros r ->.
        destruct r as [|x r].
        * rewrite app_nil_r in L. rewrite L in Hl; injection Hl as <-. discriminate.
        * rewrite (lookup_through_file cs root t (x :: r) Hl Ht) in L by discriminate.
          discriminate.
    - destruct (os.lookup root' acc) as [[| |st' es']|] eqn:L'; auto.
      destruct (shrunk_lookup root root' acc (Dir st' es')
                  (shrunk_step root root root' cs (shrunk_refl root) Hdel) L')
        as (m0 & Hm0 & Hsh). congruence. }
  destruct (os.lookup root acc) as [[st | | st es]|];
    destruct (os.lookup root' acc) as [[st' | | st' es']|]; try contradiction;
    try reflexivity.
  destruct (orb _ _); [apply IH; assumption |].
  destruct (String.eqb c ".."); apply IH; assumption.
Qed.

Section RemoveFacts.

Variable h : Host.

Lemma remove_inversion :
  forall root p root',
    os.remove h root p = Ok root' ->
    exists cs t,
      os.locate h root p = Some cs
      /\ os.lookup root cs = Some t
      /\ os.is_dir_node t = false
      /\ os.delete_at cs root = Some root'.
Proof.
  intros root p root'; unfold os.remove.
  destruct (os.locate h root p) as [cs|]; [| discriminate].
  destruct (os.lookup root cs) as [[st | | st es]|] eqn:L; try discriminate;
    (destruct (denied h cs); [discriminate |]);
    destruct (os.delete_at cs root) as [r|] eqn:D; try discriminate;
    intros H; injection H as <-; eauto 10.
Qed.

(** [os.remove] succeeds on an entry that is not a directory, at a place
    where the system permits it. *)
Lemma remove_file_succeeds :
  forall root p cs t,
    os.is_dir_node root = true ->
    os.locate h root p = Some cs ->
    os.lookup root cs = Some t ->
    os.is_dir_node t = false ->
    denied h cs = false ->
    exists root', os.remove h root p = Ok root'.
Proof.
  intros root p cs t Hroot Hloc Hres Ht Hperm; unfold os.remove.
  rewrite Hloc, Hres, Hperm.
  assert (Hcs : cs <> []).
  { intros ->; cbn [os.lookup] in Hres; injection Hres as <-; congruence. }
  destruct (delete_at_succeeds cs root t Hcs Hres) as [root' ->].
  destruct t; [eauto | eauto | discriminate].
Qed.

(** Where the system refuses, [os.remove] raises and nothing changes. *)
Lemma remove_file_denied :
  forall root p cs t,
    os.locate h root p = Some cs ->
    os.lookup root cs = Some t ->
    os.is_dir_node t = false ->
    denied h cs = true ->
    os.remove h root p = Raise (os.os_error "[Errno 13] Permission denied" p).
Proof.
  intros root p cs t Hloc Hres Ht Hden; unfold os.remove.
  rewrite Hloc, Hres, Hden. destruct t; [reflexivity | reflexivity | discriminate].
Qed.

Lemma locate_after_remove :
  forall root p root' q,
    os.remove h root p = Ok root' -> os.locate h root' q = os.locate h root q.
Proof.
  intros root p root' q Hr.
  destruct (remove_inversion root p root' Hr) as (cs & t & _ & Hl & Ht & Hdel).
  unfold os.locate. destruct (String.eqb q ""); [reflexivity |].
  apply (canon_delete_file cs root root' t); assumption.
Qed.

Lemma gone_after_remove :
  forall root p root',
    os.remove h root p = Ok root' -> os.path_exists h root' p = false.
Proof.
  intros root p root' Hr.
  pose proof (locate_after_remove root p root' p Hr) as Hloc.
  destruct (remove_inversion root p root' Hr) as (cs & t & Hcs & _ & _ & Hdel).
  unfold os.path_exists, os.stat, os.resolve.
  rewrite Hloc, Hcs, (delete_at_gone cs root root' Hdel); reflexivity.
Qed.

Lemma stat_after_remove_elsewhere :
  forall root p root' q stq,
    os.remove h root p = Ok root' ->
    os.locate h root p <> os.locate h root q ->
    os.stat h root q = Ok stq ->
    os.stat h root' q = Ok stq.
Proof.
  intros root p root' q stq Hr Hne Hst.
  pose proof (locate_after_remove root p root' q Hr) as Hloc.
  destruct (remove_inversion root p root' Hr) as (cs & t & Hcs & Hl & Ht & Hdel).
  unfold os.stat, os.resolve in *. rewrite Hloc.
  destruct (os.locate h root q) as [ds|]; [| discriminate].
  destruct (os.lookup root ds) as [m|] eqn:Lq; [| discriminate].
  destruct (lookup_delete_at_elsewhere cs root root' ds m Hdel Lq) as (m' & -> & Hm).
  - intros r ->. destruct r as [|x r].
    + rewrite app_nil_r in Hne; congruence.
    + rewrite (lookup_through_file cs root t (x :: r) Hl Ht) in Lq by discriminate.
      discriminate.
  - destruct m as [st | | st es]; [subst m'; exact Hst | discriminate |].
    destruct Hm as [es' ->]; exact Hst.
Qed.

Lemma exists_shrunk :
  forall root root' p,
    shrunk root root' -> os.path_exists h root p = false ->
    os.path_exists h root' p = false.
Proof.
  intros root root' p Hs Hno; unfold os.path_exists in *.
  destruct (os.stat h root' p) as [st | e] eqn:E; [| reflexivity].
  rewrite (stat_shrunk h root root' p st Hs E) in Hno; discriminate.
Qed.

(** A path that named a regular file and still names something after
    deletions names that file. *)
Lemma file_kept :
  forall root root' q stq,
    shrunk root root' ->
    os.resolve h root q = Some (File stq) ->
    os.path_exists h root' q = true ->
    os.resolve h root' q = Some (File stq).
Proof.
  intros root root' q stq Hs Hq; unfold os.path_exists, os.stat.
  destruct (os.resolve h root' q) as [n'|] eqn:R; [| discriminate].
  destruct (resolve_shrunk h root root' q n' Hs R) as (n & Hn & Hsh).
  rewrite Hq in Hn; injection Hn as <-.
  apply shrunk_kind in Hsh.
  destruct n' as [st' | | st' es'].
  - intros _; rewrite Hsh; reflexivity.
  - discriminate.
  - destruct Hsh as [es Hes]; discriminate.
Qed.

(** Deletions create no file: a regular file found afterwards was there. *)
Lemma file_was_there :
  forall root root' q stq,
    shrunk root root' ->
    os.resolve h root' q = Some (File stq) ->
    os.resolve h root q = Some (File stq).
Proof.
  intros root root' q stq Hs R.
  destruct (resolve_shrunk h root root' q (File stq) Hs R) as (n & Hn & Hsh).
  apply shrunk_kind in Hsh; subst n; exact Hn.
Qed.

End RemoveFacts.

(** ** The cleaner, branch by branch *)

(** X14. Paths that do not exist are reported ["NotFound"] and nothing else
    happens, whatever the flags and whether or not there is a trash. *)
Theorem missing_paths_are_not_found :
  forall (h : Host) (send2trash : option Cleaner.trash_fn) (self : Cleaner.obj)
         (root : node) (paths : list string) (dry_run force : bool),
    (forall p, In p paths -> os.path_exists h root p = false) ->
    Cleaner.clean_paths h send2trash self root paths dry_run force
    = ([], map (fun p => (p, "NotFound")) paths, root).
Proof.
  intros h s2t self root paths dry force Hno; unfold Cleaner.clean_paths.
  assert (H : forall results errors,
             fold_left (Cleaner.clean_path h s2t self dry force) paths
               (results, errors, root)
             = (results, errors ++ map (fun p => (p, "NotFound")) paths, root)).
  { induction paths as [|p paths IH]; intros results errors; cbn [fold_left map].
    - rewrite app_nil_r; reflexivity.
    - unfold Cleaner.clean_path at 2.
      rewrite (Hno p (or_introl eq_refl)); cbn [negb].
      rewrite IH by (intros q Hq; apply Hno; right; exact Hq).
      rewrite <- app_assoc; reflexivity. }
  apply H.
Qed.

(** A dangling link is such a path: [os.path.exists] follows the link. *)
Lemma missing_paths_are_not_found_witness :
  Cleaner.clean_paths Sample.host None (Cleaner.__init__ None) Sample.disk
    ["/tmp/gone"; "/nope"] false true
  = ([], [("/tmp/gone", "NotFound"); ("/nope", "NotFound")], Sample.disk).
Proof.
  refine (missing_paths_are_not_found Sample.host None (Cleaner.__init__ None)
            Sample.disk ["/tmp/gone"; "/nope"] false true _).
  intros p [<- | [<- | []]]; vm_compute; reflexivity.
Defined.

Lemma clean_path_action :
  forall h s2t self dry force results errors root p,
    let '(results', _, _) :=
      Cleaner.clean_path h s2t self dry force (results, errors, root) p in
    results' = results
    \/ (results'
        = results ++ [(p, if Cleaner.use_trash self then "trashed"
                          else if force then "deleted"
                               else "would_delete_but_no_trash")]
        /\ (dry = false -> Cleaner.use_trash self = true \/ force = true)).
Proof.
  intros h s2t self dry force results errors root p; unfold Cleaner.clean_path.
  destruct (os.path_exists h root p); cbn [negb]; [| left; reflexivity].
  destruct dry.
  { right; split; [reflexivity | discriminate]. }
  destruct (Cleaner.use_trash self).
  { destruct s2t as [f|]; [| left; reflexivity].
    destruct (f root p) as [[e|] root']; [left; reflexivity |].
    right; split; [reflexivity | auto]. }
  destruct force; [| left; reflexivity].
  destruct (Cleaner.permanent_delete h root p) as [[e|] root']; [left; reflexivity |].
  right; split; [reflexivity | auto].
Qed.

(** X15. The action of a result is fixed by the flags: ["trashed"] when a trash
    is in use, else ["deleted"] under [force], else
    ["would_delete_but_no_trash"], and this last one only in a dry run.
    Every result is about an input path. *)
Theorem result_actions_follow_the_flags :
  forall (h : Host) (send2trash : option Cleaner.trash_fn) (self : Cleaner.obj)
         (root : node) (paths : list string) (dry_run force : bool)
         (p a : string),
    In (p, a)
       (fst (fst (Cleaner.clean_paths h send2trash self root paths dry_run force))) ->
    In p paths
    /\ a = (if Cleaner.use_trash self then "trashed"
            else if force then "deleted" else "would_delete_but_no_trash")
    /\ (a = "would_delete_but_no_trash" -> dry_run = true).
Proof.
  intros h s2t self root paths dry force p a; unfold Cleaner.clean_paths.
  assert (Hinv :
            forall q b,
              In (q, b)
                 (fst (fst (fold_left (Cleaner.clean_path h s2t self dry force) paths
                              ([], [], root)))) ->
              In q paths
              /\ b = (if Cleaner.use_trash self then "trashed"
                      else if force then "deleted" else "would_delete_but_no_trash")
              /\ (dry = false -> Cleaner.use_trash self = true \/ force = true)).
  { apply (fold_left_invariant _ _
             (fun acc : Cleaner.outcome =>
                forall q b,
                  In (q, b) (fst (fst acc)) ->
                  In q paths
                  /\ b = (if Cleaner.use_trash self then "trashed"
                          else if force then "deleted" else "would_delete_but_no_trash")
                  /\ (dry = false -> Cleaner.use_trash self = true \/ force = true))).
    - intros q b [].
    - intros [[results errors] root0] x Hx Hall q b; cbn [fst] in *.
      pose proof (clean_path_action h s2t self dry force results errors root0 x) as Hstep.
      destruct (Cleaner.clean_path h s2t self dry force (results, errors, root0) x)
        as [[results' errors'] root1]; cbn [fst].
      destruct Hstep as [-> | [-> Hflags]]; [apply Hall |].
      intros Hin; apply in_app_or in Hin as [Hin | [E | []]]; [apply Hall; exact Hin |].
      injection E as <- <-; auto. }
  intros Hin; destruct (Hinv p a Hin) as (Hp & Ha & Hflags).
  split; [exact Hp | split; [exact Ha |]].
  intros Hwould; destruct dry; [reflexivity |].
  destruct (Hflags eq_refl) as [Ht | Hf]; rewrite Ha in Hwould.
  - rewrite Ht in Hwould; discriminate.
  - rewrite Hf in Hwould. destruct (Cleaner.use_trash self); discriminate.
Qed.

Lemma result_actions_follow_the_flags_witness :
  In "/tmp/app.tmp" ["/tmp/app.tmp"; "/nope"]
  /\ "deleted" = "deleted"
  /\ ("deleted" = "would_delete_but_no_trash" -> false = true).
Proof.
  refine (result_actions_follow_the_flags Sample.host None (Cleaner.__init__ None)
            Sample.disk ["/tmp/app.tmp"; "/nope"] false true "/tmp/app.tmp" "deleted" _).
  vm_compute; left; reflexivity.
Defined.

(** X16. With a trash in use, [force] changes nothing: the call returns the same
    results, the same errors and the same file system for both values. *)
Theorem force_is_ignored_with_a_trash :
  forall (h : Host) (send2trash : option Cleaner.trash_fn) (self : Cleaner.obj)
         (root : node) (paths : list string) (dry_run force : bool),
    Cleaner.use_trash self = true ->
    Cleaner.clean_paths h send2trash self root paths dry_run force
    = Cleaner.clean_paths h send2trash self root paths dry_run (negb force).
Proof.
  intros h s2t self root paths dry force Ht; unfold Cleaner.clean_paths.
  generalize (@nil (string * string), @nil (string * string), root).
  induction paths as [|p paths IH]; intros acc; cbn [fold_left]; [reflexivity |].
  assert (Hstep : Cleaner.clean_path h s2t self dry force acc p
                  = Cleaner.clean_path h s2t self dry (negb force) acc p).
  { unfold Cleaner.clean_path; destruct acc as [[results errors] root0].
    rewrite Ht; reflexivity. }
  rewrite Hstep; apply IH.
Qed.

Lemma force_is_ignored_with_a_trash_witness :
  Cleaner.clean_paths Sample.host (Some sample_trash)
    (Cleaner.__init__ (Some sample_trash)) Sample.disk ["/tmp/app.tmp"; "/nope"]
    false true
  = Cleaner.clean_paths Sample.host (Some sample_trash)
      (Cleaner.__init__ (Some sample_trash)) Sample.disk ["/tmp/app.tmp"; "/nope"]
      false false.
Proof.
  exact (force_is_ignored_with_a_trash Sample.host (Some sample_trash)
           (Cleaner.__init__ (Some sample_trash)) Sample.disk
           ["/tmp/app.tmp"; "/nope"] false true eq_refl).
Defined.

(** X17. Permanent deletion of a regular file. Without a trash and with
    [force], on a path that names a regular file: where the system permits
    the removal the path is reported ["deleted"] and does not exist
    afterwards, and every path that names a regular file at another place
    names it as before; where the system refuses, the path is reported as an
    error and nothing changes. The cleaner consults no whitelist: this holds
    wherever the file lies. *)
Theorem force_deletes_a_regular_file :
  forall (h : Host) (send2trash : option Cleaner.trash_fn) (self : Cleaner.obj)
         (root : node) (p : string) (cs : list string) (st : stat_result),
    Cleaner.use_trash self = false ->
    os.is_dir_node root = true ->
    os.locate h root p = Some cs ->
    os.lookup root cs = Some (File st) ->
    let '(results, errors, root') :=
      Cleaner.clean_paths h send2trash self root [p] false true in
    if denied h cs then
      results = [] /\ (exists msg, errors = [(p, msg)]) /\ root' = root
    else
      results = [(p, "deleted")]
      /\ errors = []
      /\ os.path_exists h root' p = false
      /\ forall q stq,
          os.locate h root q <> Some cs ->
          os.resolve h root q = Some (File stq) ->
          os.resolve h root' q = Some (File stq).
Proof.
  intros h s2t self root p cs st Hno Hroot Hloc Hlook.
  assert (Hres : os.resolve h root p = Some (File st))
    by (unfold os.resolve; rewrite Hloc; exact Hlook).
  unfold Cleaner.clean_paths; cbn [fold_left]; unfold Cleaner.clean_path.
  assert (Hex : os.path_exists h root p = true)
    by (unfold os.path_exists, os.stat; rewrite Hres; reflexivity).
  rewrite Hex, Hno; cbn [negb].
  unfold Cleaner.permanent_delete.
  assert (Hdir : os.path_isdir h root p = false)
    by (unfold os.path_isdir; rewrite Hres; reflexivity).
  rewrite Hdir.
  destruct (denied h cs) eqn:Hden.
  - rewrite (remove_file_denied h root p cs (File st) Hloc Hlook eq_refl Hden).
    split; [reflexivity | split; [eexists; reflexivity | reflexivity]].
  - destruct (remove_file_succeeds h root p cs (File st) Hroot Hloc Hlook eq_refl Hden)
      as [root' Hr].
    rewrite Hr. split; [reflexivity | split; [reflexivity | split]].
    + exact (gone_after_remove h root p root' Hr).
    + intros q stq Hne Hq.
      apply (file_kept h root root' q stq (remove_shrunk h root p root' Hr) Hq).
      unfold os.path_exists.
      rewrite (stat_after_remove_elsewhere h root p root' q stq Hr); [reflexivity | |].
      * rewrite Hloc; intros E; apply Hne; symmetry; exact E.
      * unfold os.stat; rewrite Hq; reflexivity.
Qed.

(** [/etc/hosts], a file under a whitelisted directory, is deleted when the
    cleaner is given its path; [/etc/old.log] beside it stays. *)
Lemma force_deletes_a_regular_file_witness :
  let '(results, errors, root') :=
    Cleaner.clean_paths Sample.host None (Cleaner.__init__ None) Sample.disk
      ["/etc/hosts"] false true in
  results = [("/etc/hosts", "deleted")]
  /\ errors = []
  /\ os.path_exists Sample.host root' "/etc/hosts" = false
  /\ forall q stq,
      os.locate Sample.host Sample.disk q <> Some ["etc"; "hosts"] ->
      os.resolve Sample.host Sample.disk q = Some (File stq) ->
      os.resolve Sample.host root' q = Some (File stq).
Proof.
  exact (force_deletes_a_regular_file Sample.host None (Cleaner.__init__ None)
           Sample.disk "/etc/hosts" ["etc"; "hosts"]
           {| st_mtime := Sample.t0 - 30 * 86400; st_size := 200 |}
           eq_refl eq_refl eq_refl eq_refl).
Defined.

(** ** What the optimizer leaves behind *)

Lemma NoDup_snoc :
  forall (A : Type) (l : list A) (x : A),
    NoDup l -> ~ In x l -> NoDup (l ++ [x]).
Proof.
  intros A l x Hnd Hx; induction Hnd as [|y l Hy Hnd IH]; cbn [app].
  - constructor; [intros [] | constructor].
  - constructor.
    + intros Hin; apply in_app_or in Hin as [Hin | [<- | []]]; [contradiction |].
      apply Hx; left; reflexivity.
    + apply IH; intros Hin; apply Hx; right; exact Hin.
Qed.

Lemma getsize_shrunk :
  forall h root root' p n,
    shrunk root root' ->
    os.path_getsize h root' p = Ok n -> os.path_getsize h root p = Ok n.
Proof.
  intros h root root' p n Hs; unfold os.path_getsize.
  destruct (os.stat h root' p) as [st | e] eqn:E; [| discriminate].
  rewrite (stat_shrunk h root root' p st Hs E); auto.
Qed.

(** A property that every iteration keeps is kept by the whole call. *)
Lemma optimize_disk_preserves :
  forall h self (P : list string * world -> Prop) w max_age_days small,
    (forall st fpath,
        P st -> P (Optimizer.optimize_file h self (max_age_days * 86400) small st fpath)) ->
    P ([], w) ->
    P (Optimizer.optimize_disk h self w max_age_days small).
Proof.
  intros h self P w max_age_days small Hstep Hinit.
  unfold Optimizer.optimize_disk; cbv zeta.
  apply fold_left_invariant; [exact Hinit |].
  intros st folder _ Hst.
  apply fold_left_invariant; [exact Hst |].
  intros st' [[r dirs] files] _ Hst'. unfold Optimizer.optimize_dir.
  apply fold_left_invariant; [exact Hst' |].
  intros st'' f _ Hst''. apply Hstep; exact Hst''.
Qed.

Lemma optimize_file_frame :
  forall h self w0 age small st fpath,
    optimizer_frame h w0 small st ->
    optimizer_frame h w0 small (Optimizer.optimize_file h self age small st fpath).
Proof.
  intros h self w0 age small [removed w] fpath Hinv.
  assert (Hkeep : forall n,
             optimizer_frame h w0 small (removed, {| fs := fs w; ticks := n |}))
    by (intros n; exact Hinv).
  destruct Hinv as (Hnd & Hwas & Hgone & Hsize & Hs & Hloc & Hframe); cbn [fst snd] in *.
  unfold Optimizer.optimize_file.
  destruct (Optimizer._is_safe_path h self fpath); cbn [negb];
    [| destruct w; apply (Hkeep ticks0)].
  unfold os.time; cbn [fs ticks].
  destruct (os.path_getmtime h (fs w) fpath) as [mtime | e] eqn:Hm; [| apply Hkeep].
  destruct (clock h (ticks w) - mtime <? age); [apply Hkeep |].
  destruct (if small then Ok false
            else size <- os.path_getsize h (fs w) fpath ;; Ok (size <? 1024))
    as [[|] | e] eqn:Hsmall; try apply Hkeep.
  destruct (os.remove h (fs w) fpath) as [root' | e] eqn:Hr; [| apply Hkeep].
  assert (Hex : os.path_exists h (fs w) fpath = true).
  { unfold os.path_exists, os.path_getmtime in *.
    destruct (os.stat h (fs w) fpath); [reflexivity | discriminate]. }
  assert (Hs' : shrunk (fs w) root') by exact (remove_shrunk h (fs w) fpath root' Hr).
  split; [| split; [| split; [| split; [| split; [| split]]]]]; cbn [fst snd fs].
  - apply NoDup_snoc; [exact Hnd |].
    intros Hin; rewrite (Hgone fpath Hin) in Hex; discriminate.
  - intros p Hin; apply in_app_or in Hin as [Hin | [<- | []]]; [auto |].
    unfold os.path_exists in *.
    destruct (os.stat h (fs w) fpath) as [st | e] eqn:E; [| discriminate].
    rewrite (stat_shrunk h (fs w0) (fs w) fpath st Hs E); reflexivity.
  - intros p Hin; apply in_app_or in Hin as [Hin | [<- | []]].
    + apply (exists_shrunk h (fs w) root' p Hs'); auto.
    + exact (gone_after_remove h (fs w) fpath root' Hr).
  - intros Hsm p Hin; apply in_app_or in Hin as [Hin | [<- | []]]; [auto |].
    subst small. cbn [bind] in Hsmall.
    destruct (os.path_getsize h (fs w) fpath) as [size | e] eqn:Hsz; [| discriminate].
    cbn [bind] in Hsmall; injection Hsmall as Hlt.
    exists size; split; [exact (getsize_shrunk h (fs w0) (fs w) fpath size Hs Hsz) |].
    apply Z.ltb_ge; exact Hlt.
  - destruct (remove_delete_at h (fs w) fpath root' Hr) as [cs Hdel].
    eapply shrunk_step; eauto.
  - intros q; rewrite (locate_after_remove h (fs w) fpath root' q Hr); apply Hloc.
  - intros q stq Hst Hother.
    apply (stat_after_remove_elsewhere h (fs w) fpath root' q stq Hr).
    + rewrite !Hloc. apply Hother; apply in_or_app; right; left; reflexivity.
    + apply Hframe; [exact Hst |].
      intros p Hin; apply Hother; apply in_or_app; left; exact Hin.
Qed.

Lemma optimize_disk_frame :
  forall h self w max_age_days small,
    optimizer_frame h w small (Optimizer.optimize_disk h self w max_age_days small).
Proof.
  intros h self w max_age_days small.
  apply optimize_disk_preserves.
  - intros st fpath; apply optimize_file_frame.
  - split; [constructor |].
    split; [intros p [] |].
    split; [intros p [] |].
    split; [intros _ p [] |].
    split; [apply shrunk_refl |].
    split; [reflexivity |].
    intros q stq Hst _; exact Hst.
Qed.

(** X19. Every path [optimize_disk] returns existed when the call started and
    does not exist when it ends; no path is returned twice. *)
Theorem removed_paths_are_gone :
  forall (h : Host) (self : Optimizer.obj) (w : world) (max_age_days : Z)
         (delete_small_files : bool),
    let '(removed_paths, w') :=
      Optimizer.optimize_disk h self w max_age_days delete_small_files in
    NoDup removed_paths
    /\ forall p, In p removed_paths ->
                 os.path_exists h (fs w) p = true
                 /\ os.path_exists h (fs w') p = false.
Proof.
  intros h self w max_age_days small.
  pose proof (optimize_disk_frame h self w max_age_days small) as Hf.
  destruct (Optimizer.optimize_disk h self w max_age_days small) as [removed w'].
  destruct Hf as (Hnd & Hwas & Hgone & _); cbn [fst snd] in *.
  split; [exact Hnd | intros p Hin; split; auto].
Qed.

(** X20. With [delete_small_files=False] every removed file had at least 1024
    bytes. *)
Theorem small_files_are_kept :
  forall (h : Host) (self : Optimizer.obj) (w : world) (max_age_days : Z) (p : string),
    In p (fst (Optimizer.optimize_disk h self w max_age_days false)) ->
    exists size, os.path_getsize h (fs w) p = Ok size /\ 1024 <= size.
Proof.
  intros h self w max_age_days p Hin.
  pose proof (optimize_disk_frame h self w max_age_days false) as Hf.
  destruct Hf as (_ & _ & _ & Hsize & _).
  exact (Hsize eq_refl p Hin).
Qed.

Lemma small_files_are_kept_witness :
  exists size,
    os.path_getsize Sample.host (fs Sample.w0) "/tmp/app.tmp" = Ok size /\ 1024 <= size.
Proof.
  refine (small_files_are_kept Sample.host Sample.optimizer Sample.w0 1 "/tmp/app.tmp" _).
  vm_compute; left; reflexivity.
Defined.

(** X21. [optimize_disk] touches no file but those it returns: a path that
    names a regular file at none of the places of the removed paths names
    that file, with its metadata, after the call. *)
Theorem other_files_are_untouched :
  forall (h : Host) (self : Optimizer.obj) (w : world) (max_age_days : Z)
         (delete_small_files : bool) (q : string) (stq : stat_result),
    os.resolve h (fs w) q = Some (File stq) ->
    (forall p,
        In p (fst (Optimizer.optimize_disk h self w max_age_days delete_small_files)) ->
        os.locate h (fs w) p <> os.locate h (fs w) q) ->
    os.resolve h
      (fs (snd (Optimizer.optimize_disk h self w max_age_days delete_small_files))) q
    = Some (File stq).
Proof.
  intros h self w max_age_days small q stq Hq Hne.
  pose proof (optimize_disk_frame h self w max_age_days small) as Hf.
  destruct Hf as (_ & _ & _ & _ & Hs & _ & Hframe).
  apply (file_kept h (fs w) _ q stq Hs Hq).
  unfold os.path_exists. rewrite (Hframe q stq); [reflexivity | | exact Hne].
  unfold os.stat; rewrite Hq; reflexivity.
Qed.

(** A day as the limit removes four files; [/tmp/fresh.tmp] is as it was. *)
Lemma other_files_are_untouched_witness :
  os.resolve Sample.host
    (fs (snd (Optimizer.optimize_disk Sample.host Sample.optimizer Sample.w0 1 true)))
    "/tmp/fresh.tmp"
  = Some (File {| st_mtime := Sample.t0 - 0 * 86400; st_size := 2048 |}).
Proof.
  refine (other_files_are_untouched Sample.host Sample.optimizer Sample.w0 1 true
            "/tmp/fresh.tmp" {| st_mtime := Sample.t0 - 0 * 86400; st_size := 2048 |}
            _ _).
  - vm_compute; reflexivity.
  - intros p Hin; vm_compute in Hin.
    repeat (destruct Hin as [Hin | Hin]; [subst p; vm_compute; discriminate |]).
    destruct Hin.
Defined.

(** ** Absolute paths *)

Lemma isabs_cons :
  forall r, posixpath.isabs (String "/" r) = true.
Proof.
  intros r; unfold posixpath.isabs, str.startswith, posixpath.sep; cbn [String.prefix].
  destruct (Ascii.ascii_dec "/" "/"); [destruct r; reflexivity | congruence].
Qed.

Lemma startswith_sep :
  forall s, posixpath.isabs s = true -> exists r, s = String "/" r.
Proof.
  intros [|c r]; unfold posixpath.isabs, str.startswith, posixpath.sep; cbn [String.prefix].
  - discriminate.
  - destruct (Ascii.ascii_dec "/" c) as [<- | Hc]; [eauto | discriminate].
Qed.

(** [normpath] of an absolute path: one or two slashes, then the components
    that remain, joined. *)
Lemma normpath_absolute :
  forall r,
    exists n,
      (n = 1 \/ n = 2)%nat
      /\ posixpath.normpath (String "/" r)
         = (posixpath.repeat_sep n
            ++ str.join posixpath.sep
                 (fold_left (posixpath.norm_step n)
                    (str.split posixpath.sep_char (String "/" r)) []))%string.
Proof.
  intros r; unfold posixpath.normpath.
  assert (H1 : String.eqb (String "/" r) "" = false) by reflexivity.
  assert (H2 : str.startswith (String "/" r) posixpath.sep = true)
    by apply isabs_cons.
  rewrite H1, H2.
  destruct (andb _ _); [exists 2%nat | exists 1%nat]; (split; [auto |]);
    cbn [posixpath.repeat_sep posixpath.sep String.append String.eqb];
    reflexivity.
Qed.

Lemma join_cwd_absolute :
  forall cwd x,
    posixpath.isabs cwd = true -> posixpath.isabs x = false ->
    posixpath.isabs (posixpath.join cwd x) = true.
Proof.
  intros cwd x Hcwd Hx; unfold posixpath.join.
  unfold posixpath.isabs in Hx; rewrite Hx.
  destruct (startswith_sep cwd Hcwd) as [r ->].
  destruct (orb _ _); cbn [String.append]; apply isabs_cons.
Qed.

(** X22. Every whitelist entry, of the scanner and of the optimizer, is an
    absolute path. *)
Theorem whitelist_entries_are_absolute :
  forall (h : Host) (s : string) (root : node) (p : string),
    posixpath.isabs (getcwd h) = true ->
    In p (Scanner._get_whitelist_paths h s) \/ In p (Optimizer._get_whitelist_paths h s root) ->
    posixpath.isabs p = true.
Proof.
  intros h s root p Hcwd Hin.
  assert (Habs : forall x, posixpath.isabs (os.path_abspath h x) = true).
  { intros x; unfold os.path_abspath, posixpath.abspath.
    set (path := if posixpath.isabs x then x else posixpath.join (getcwd h) x).
    assert (Hp : posixpath.isabs path = true).
    { unfold path; destruct (posixpath.isabs x) eqn:Hx; [exact Hx |].
      apply join_cwd_absolute; assumption. }
    destruct (startswith_sep path Hp) as [r ->].
    destruct (normpath_absolute r) as (n & Hn & ->).
    destruct Hn as [-> | ->]; cbn [posixpath.repeat_sep posixpath.sep String.append];
      apply isabs_cons. }
  destruct Hin as [Hin | Hin].
  - unfold Scanner._get_whitelist_paths in Hin.
    apply dedupe_from_incl in Hin. apply in_map_iff in Hin as (x & <- & _). apply Habs.
  - unfold Optimizer._get_whitelist_paths in Hin.
    apply dedupe_from_incl in Hin. apply in_map_iff in Hin as (x & <- & _). apply Habs.
Qed.

Lemma whitelist_entries_are_absolute_witness :
  posixpath.isabs "/lib64" = true.
Proof.
  refine (whitelist_entries_are_absolute Sample.host "Linux" Sample.disk "/lib64" _ _).
  - reflexivity.
  - left; in_list.
Defined.

(** ** The cleaner tab *)

Lemma optimize_disk_invariant :
  forall h self w max_age_days small,
    optimizer_invariant h self w (max_age_days * 86400)
      (Optimizer.optimize_disk h self w max_age_days small).
Proof.
  intros h self w max_age_days small; unfold Optimizer.optimize_disk; cbv zeta.
  apply optimize_folders_invariant; [apply incl_refl |].
  split; [apply shrunk_refl | split; [cbn [snd]; lia | split; [intros p [] | reflexivity]]].
Qed.

Lemma clear_files_invariant :
  forall h junk root,
    let st := fold_left (Dashboard.clear_file h) junk ([], root) in
    incl (fst st) junk
    /\ snd st = remove_all h root (fst st)
    /\ shrunk root (snd st)
    /\ (forall p, In p (fst st) ->
                  os.path_exists h root p = true /\ os.path_exists h (snd st) p = false).
Proof.
  intros h junk root.
  apply (fold_left_invariant _ _
           (fun st : list string * node =>
              incl (fst st) junk
              /\ snd st = remove_all h root (fst st)
              /\ shrunk root (snd st)
              /\ (forall p, In p (fst st) ->
                            os.path_exists h root p = true
                            /\ os.path_exists h (snd st) p = false))).
  - split; [intros p [] | split; [reflexivity | split; [apply shrunk_refl | intros p []]]].
  - intros [deleted cur] f Hf (Hincl & Hall & Hs & Hgone); cbn [fst snd] in *.
    unfold Dashboard.clear_file.
    destruct (os.path_exists h cur f) eqn:Hex; [| auto].
    destruct (os.remove h cur f) as [root' | e] eqn:Hr; [| auto].
    cbn [fst snd]. split; [| split; [| split]].
    + intros p Hin; apply in_app_or in Hin as [Hin | [<- | []]]; auto.
    + unfold remove_all in *; rewrite fold_left_app; cbn [fold_left].
      rewrite <- Hall, Hr; reflexivity.
    + destruct (remove_delete_at h cur f root' Hr) as [cs Hdel].
      eapply shrunk_step; eauto.
    + intros p Hin; apply in_app_or in Hin as [Hin | [<- | []]].
      * destruct (Hgone p Hin) as [Hwas Hnow]. split; [exact Hwas |].
        apply (exists_shrunk h cur root' p (remove_shrunk h cur f root' Hr) Hnow).
      * split; [| exact (gone_after_remove h cur f root' Hr)].
        unfold os.path_exists in *.
        destruct (os.stat h cur f) as [st | e] eqn:E; [| discriminate].
        rewrite (stat_shrunk h root cur f st Hs E); reflexivity.
Qed.

Lemma scan_deletable_not_whitelisted :
  forall h self w age thr incl_d incl_c extra limits dry c p,
    In c deletable_categories ->
    In p (stored (Scanner.lists
                    (fst (fst (Scanner.scan_all h self w age thr incl_d incl_c extra
                                 limits dry)))) c) ->
    Scanner._is_under_whitelist h self p = false.
Proof.
  intros h self w age thr incl_d incl_c extra limits dry c p Hc Hin.
  destruct (scan_all_lists h self w age thr incl_d incl_c extra limits dry) as [_ Hl].
  cbv zeta in Hl; rewrite Hl in Hin.
  destruct (Scanner._is_under_whitelist h self p) eqn:Hwl; [| reflexivity].
  exfalso.
  pose proof (fold_collect_safe h self age thr (limits_of limits) _
                (Scanner.empty_found, w) (empty_found_safe h self) c p Hin Hwl) as Hk.
  cbn [deletable_categories In] in Hc.
  destruct Hk as [-> | ->];
    repeat (destruct Hc as [Hc | Hc]; [discriminate |]); exact Hc.
Qed.

(** X25. Scan, then "Clear Junk Files". Whatever the file system has become
    between the two clicks, the handler deletes only paths of the junk list
    of the last scan, none of them under the scanner's whitelist; each
    deleted path existed and is gone afterwards, and nothing else is
    removed. After a scan without junk it deletes nothing. *)
Theorem clear_junk_deletes_only_scanned_junk :
  forall (h : Host) (self : Dashboard.obj) (w : world) (root : node),
    let self' := fst (Dashboard.scan_files h self w) in
    let junk :=
      match Dashboard.last_scan self' with
      | Some report => stored (Scanner.lists report) "junk"
      | None => []
      end in
    match Dashboard.clear_junk_files h self' root with
    | (None, root') => root' = root /\ junk = []
    | (Some deleted_files, root') =>
        root' = remove_all h root deleted_files
        /\ forall p, In p deleted_files ->
                     In p junk
                     /\ Scanner._is_under_whitelist h (Dashboard.scanner self) p = false
                     /\ os.path_exists h root p = true
                     /\ os.path_exists h root' p = false
    end.
Proof.
  intros h self w root; cbv zeta.
  unfold Dashboard.scan_files.
  pose proof (fun c p => scan_deletable_not_whitelisted h (Dashboard.scanner self) w
                           (Some 84600) (Some 1) true true [] None true c p) as Hsafe.
  destruct (Scanner.scan_all h (Dashboard.scanner self) w (Some 84600) (Some 1)
              true true [] None true) as [[report fnd] w'].
  cbn [fst snd Dashboard.last_scan] in *.
  unfold Dashboard.clear_junk_files; cbn [Dashboard.last_scan].
  unfold stored in *.
  destruct (dict.get (Scanner.lists report) "junk") as [[|f l]|] eqn:G;
    [split; reflexivity | | split; reflexivity].
  pose proof (clear_files_invariant h (f :: l) root) as (Hincl & Hall & _ & Hgone);
    cbv zeta in Hincl, Hall, Hgone.
  destruct (fold_left (Dashboard.clear_file h) (f :: l) ([], root)) as [deleted root'].
  cbn [fst snd] in *. split; [exact Hall |].
  intros p Hin. destruct (Hgone p Hin) as [Hwas Hnow].
  split; [apply Hincl; exact Hin | split; [| split; assumption]].
  apply (Hsafe "junk" p); [in_list | rewrite G; apply Hincl; exact Hin].
Qed.

(** The run on the sample host: the scan finds one junk file and the
    handler deletes it. *)
Example clear_junk_sample :
  fst (Dashboard.clear_junk_files Sample.host
         (fst (Dashboard.scan_files Sample.host
                 (Dashboard.__init__ Sample.host Sample.disk) Sample.w0))
         Sample.disk)
  = Some ["/tmp/app.tmp"].
Proof. vm_compute; reflexivity. Qed.

(** ** [full_optimize] *)

Lemma In_firstn :
  forall (A : Type) (n : nat) (l : list A) (x : A), In x (firstn n l) -> In x l.
Proof.
  intros A n; induction n as [|n IH]; intros [|y l] x H; cbn [firstn] in H;
    try destruct H as [H | H]; try contradiction.
  - left; exact H.
  - right; apply IH; exact H.
Qed.

(** X24. [full_optimize] removes what [optimize_disk] removes with small files
    included, whether or not the memory step fails. Its count is the number
    of removed paths; its sample holds at most twenty paths, each one not
    under the whitelist, a file of a temp directory, old enough, and gone
    when the call ends. *)
Theorem full_optimize_reports_what_it_removed :
  forall (h : Host) (self : Optimizer.obj) (w : world) (max_age_days : Z)
         (external : option exn),
    let '(summary, w') := Optimizer.full_optimize h self w max_age_days external in
    w' = snd (Optimizer.optimize_disk h self w max_age_days true)
    /\ Optimizer.files_removed_count summary
       = Z.of_nat (List.length (fst (Optimizer.optimize_disk h self w max_age_days true)))
    /\ (List.length (Optimizer.files_removed_sample summary) <= 20)%nat
    /\ Z.of_nat (List.length (Optimizer.files_removed_sample summary))
       <= Optimizer.files_removed_count summary
    /\ forall p, In p (Optimizer.files_removed_sample summary) ->
                 removable h self w (max_age_days * 86400) p
                 /\ os.path_exists h (fs w') p = false.
Proof.
  intros h self w max_age_days external; unfold Optimizer.full_optimize.
  pose proof (optimize_disk_invariant h self w max_age_days true) as (_ & _ & Hrem & _).
  pose proof (optimize_disk_frame h self w max_age_days true) as (_ & _ & Hgone & _).
  destruct (Optimizer.optimize_disk h self w max_age_days true) as [removed w'].
  cbn [fst snd Optimizer.files_removed_count Optimizer.files_removed_sample] in *.
  split; [reflexivity | split; [reflexivity | split; [| split]]].
  - rewrite length_firstn; lia.
  - rewrite length_firstn; lia.
  - intros p Hin. apply In_firstn in Hin. split; [apply Hrem | apply Hgone]; exact Hin.
Qed.

(** ** The cleaner only deletes *)

Lemma shrunk_trans :
  forall a b c, shrunk a b -> shrunk b c -> shrunk a c.
Proof.
  intros a b c Hab Hbc; induction Hbc as [b | b m c cs Hbm IH Hdel]; [exact Hab |].
  eapply shrunk_step; [apply IH; exact Hab | exact Hdel].
Qed.

Lemma rmdir_shrunk :
  forall h root p root', os.rmdir h root p = Ok root' -> shrunk root root'.
Proof.
  intros h root p root'; unfold os.rmdir.
  destruct (os.locate h root p) as [cs|]; [| discriminate].
  destruct (os.lookup root cs) as [[st | | st es]|]; try discriminate.
  destruct (String.eqb (os.last_component p) "."); [discriminate |].
  destruct (String.eqb (os.last_component p) ".."); [discriminate |].
  destruct (String.eqb (os.last_component p) ""); [discriminate |].
  destruct (denied h cs); [discriminate |].
  destruct es as [|e es]; [| discriminate].
  destruct (os.delete_at cs root) as [r|] eqn:D; [| discriminate].
  intros H; injection H as <-.
  eapply shrunk_step; [apply shrunk_refl | exact D].
Qed.

Lemma for_each_shrunk :
  forall (f : node -> string -> Exc node),
    (forall root x root', f root x = Ok root' -> shrunk root root') ->
    forall l root, shrunk root (snd (Cleaner.for_each f l root)).
Proof.
  intros f Hf l; induction l as [|x l IH]; intros root; cbn [Cleaner.for_each].
  - apply shrunk_refl.
  - destruct (f root x) as [root' | e] eqn:E; [| apply shrunk_refl].
    eapply shrunk_trans; [exact (Hf root x root' E) | apply IH].
Qed.

Lemma delete_entries_shrunk :
  forall h l root, shrunk root (snd (Cleaner.delete_entries h root l)).
Proof.
  intros h l; induction l as [|[[r dirs] files] l IH]; intros root;
    cbn [Cleaner.delete_entries]; [apply shrunk_refl |].
  assert (Hentry : shrunk root (snd (Cleaner.delete_entry h root (r, dirs, files)))).
  { unfold Cleaner.delete_entry.
    pose proof (for_each_shrunk (fun fs name => os.remove h fs (posixpath.join r name))
                  (fun a x b => remove_shrunk h a (posixpath.join r x) b) files root) as H1.
    destruct (Cleaner.for_each _ files root) as [[e|] root1]; cbn [snd] in *; [exact H1 |].
    eapply shrunk_trans; [exact H1 |].
    apply (for_each_shrunk (fun fs name => os.rmdir h fs (posixpath.join r name))
             (fun a x b => rmdir_shrunk h a (posixpath.join r x) b)). }
  destruct (Cleaner.delete_entry h root (r, dirs, files)) as [[e|] root1];
    cbn [snd] in *; [exact Hentry |].
  eapply shrunk_trans; [exact Hentry | apply IH].
Qed.

Lemma permanent_delete_shrunk :
  forall h root p, shrunk root (snd (Cleaner.permanent_delete h root p)).
Proof.
  intros h root p; unfold Cleaner.permanent_delete.
  destruct (os.path_isdir h root p).
  - pose proof (delete_entries_shrunk h (os.walk h root p false) root) as H1.
    destruct (Cleaner.delete_entries h root (os.walk h root p false)) as [[e|] root1];
      cbn [snd] in *; [exact H1 |].
    destruct (os.rmdir h root1 p) as [root2 | e] eqn:E; cbn [snd]; [| exact H1].
    eapply shrunk_trans; [exact H1 | exact (rmdir_shrunk h root1 p root2 E)].
  - destruct (os.remove h root p) as [root1 | e] eqn:E; cbn [snd];
      [exact (remove_shrunk h root p root1 E) | apply shrunk_refl].
Qed.

(** X18. Without a trash the cleaner creates no file and changes none: a
    path that names a regular file after the call named that file, with the
    same metadata, before it. This holds for every flag, whatever the
    system refuses, and also when the deletion of a directory tree fails
    half way. *)
Theorem cleaner_only_deletes :
  forall (h : Host) (send2trash : option Cleaner.trash_fn) (self : Cleaner.obj)
         (root : node) (paths : list string) (dry_run force : bool)
         (q : string) (stq : stat_result),
    Cleaner.use_trash self = false ->
    os.resolve h (snd (Cleaner.clean_paths h send2trash self root paths dry_run force)) q
    = Some (File stq) ->
    os.resolve h root q = Some (File stq).
Proof.
  intros h s2t self root paths dry force q stq Hno.
  apply file_was_there.
  unfold Cleaner.clean_paths.
  apply (fold_left_invariant _ _ (fun acc : Cleaner.outcome => shrunk root (snd acc)));
    [apply shrunk_refl |].
  intros [[results errors] cur] p _ Hs; cbn [snd] in *.
  unfold Cleaner.clean_path. rewrite Hno.
  destruct (os.path_exists h cur p); cbn [negb snd]; [| exact Hs].
  destruct dry; [exact Hs |].
  destruct force; [| exact Hs].
  pose proof (permanent_delete_shrunk h cur p) as Hp.
  destruct (Cleaner.permanent_delete h cur p) as [[e|] root1]; cbn [snd] in *;
    eapply shrunk_trans; eauto.
Qed.

(** Deleting the directory [/tmp] of the sample host: [/etc/hosts] is found
    afterwards, so it was there before. *)
Lemma cleaner_only_deletes_witness :
  os.resolve Sample.host Sample.disk "/etc/hosts"
  = Some (File {| st_mtime := Sample.t0 - 30 * 86400; st_size := 200 |}).
Proof.
  refine (cleaner_only_deletes Sample.host None (Cleaner.__init__ None) Sample.disk
            ["/tmp"] false true "/etc/hosts"
            {| st_mtime := Sample.t0 - 30 * 86400; st_size := 200 |} _ _).
  - reflexivity.
  - vm_compute; reflexivity.
Defined.

(** A directory named by a path that ends in ["."]: its content is deleted,
    then [os.rmdir] refuses the path and the cleaner reports the error; the
    empty directory stays. *)
Example rmdir_of_dot_is_refused :
  let '(results, errors, root') :=
    Cleaner.clean_paths Sample.host None (Cleaner.__init__ None) Sample.disk
      ["/opt/tools/."] false true in
  results = []
  /\ errors = [("/opt/tools/.", "[Errno 22] Invalid argument: '/opt/tools/.'")]
  /\ os.path_exists Sample.host root' "/opt/tools/setup.exe" = false
  /\ os.path_isdir Sample.host root' "/opt/tools" = true.
Proof. vm_compute; repeat split; reflexivity. Qed.

(** The recursive delete on the sample host: [/tmp], with a dangling link and
    a subdirectory, is removed whole; [/opt] likewise. *)
Example permanent_delete_sample :
  let '(results, errors, root') :=
    Cleaner.clean_paths Sample.host None (Cleaner.__init__ None) Sample.disk
      ["/tmp"; "/opt"] false true in
  results = [("/tmp", "deleted"); ("/opt", "deleted")]
  /\ errors = []
  /\ os.path_exists Sample.host root' "/tmp" = false
  /\ os.path_exists Sample.host root' "/opt/tools/setup.exe" = false
  /\ os.path_exists Sample.host root' "/home/user/Downloads/setup.exe" = true.
Proof. vm_compute; repeat split; reflexivity. Qed.
